(** * The GitLab target manager of sparrow (pkg/sparrow/targets/gitlab.go)

    A shallow embedding of [gitlabTargetManager]: its registration state
    machine ([updateRegistration], [Shutdown], [Registered]), the
    health-filtered refresh ([refreshTargets], [GetTargets]) and the
    [Reconcile] event loop with its two timers, the context and the [done]
    channel.  The second half of the file states and proves the properties of
    the reconciler. *)

From Stdlib Require Import ZArith List String Bool Lia.
Import ListNotations.

Local Open Scope string_scope.
Local Open Scope list_scope.
Local Open Scope Z_scope.

(* ------------------------------------------------------------------------ *)
(** ** Package [time] *)

(** [time.Time] is an instant with nanosecond precision; it is modelled by
    the number of nanoseconds since a fixed epoch.  [time.Duration] is an
    [int64] count of nanoseconds, and its unary minus wraps around. *)
Module time.

Definition Time := Z.
Definition Duration := Z.

Definition min_int64 : Z := - 2 ^ 63.
Definition max_int64 : Z := 2 ^ 63 - 1.

Definition wrap64 (z : Z) : Z := (z + 2 ^ 63) mod 2 ^ 64 - 2 ^ 63.

(** [-d] on an [int64]. *)
Definition neg (d : Duration) : Duration := wrap64 (- d).

(** [t.Add(d)] *)
Definition Add (t : Time) (d : Duration) : Time := t + d.

(** [t.After(u)]: is [t] strictly later than [u]? *)
Definition After (t u : Time) : bool := u <? t.

(** [t.UTC()] only changes the location the instant is displayed in. *)
Definition UTC (t : Time) : Time := t.

Definition Second : Duration := 1000000000.

End time.

(* ------------------------------------------------------------------------ *)
(** ** Package [checks] *)

Module checks.

Record GlobalTarget := {
  Url : string;
  LastSeen : time.Time;
}.

End checks.

(* ------------------------------------------------------------------------ *)
(** ** Package [context] *)

(** [context.Context]: [closed] says that the channel of [ctx.Done()] is
    closed; [ctx.Err()] is non-nil exactly then. *)
Record Context := { closed : bool }.

(* ------------------------------------------------------------------------ *)
(** ** Package [gitlab] *)

Module gitlab.

(** A Go [error] value; [nil] is [None] of [option error]. *)
Definition error := string.

(** The [gitlab.File] struct, with its exported fields, as the composite
    literals of [updateRegistration] and of the client's tests set them
    (the unexported [fileName] is set inside package [gitlab] only). *)
Record File := {
  Branch : string;
  AuthorEmail : string;
  AuthorName : string;
  Content : checks.GlobalTarget;
  CommitMessage : string;
}.

Definition with_CommitMessage (f : File) (m : string) : File :=
  {| Branch := Branch f; AuthorEmail := AuthorEmail f;
     AuthorName := AuthorName f; Content := Content f;
     CommitMessage := m |}.

(** The [gitlab.Gitlab] interface, as far as the target manager calls it.
    A client is a value of some type [G]; a method call returns the
    client's next state next to its Go results. *)
Class Gitlab (G : Type) := {
  FetchFiles : Context -> G -> G * (list checks.GlobalTarget * option error);
  PutFile : Context -> File -> G -> G * option error;
  PostFile : Context -> File -> G -> G * option error;
}.

(** A scripted client in the manner of a test double: each method answers
    with the next canned response of its queue, and with success once the
    queue is empty. *)
Record Scripted := {
  fetch_script : list (list checks.GlobalTarget * option error);
  put_script : list (option error);
  post_script : list (option error);
}.

Definition scripted_FetchFiles (_ : Context) (g : Scripted)
  : Scripted * (list checks.GlobalTarget * option error) :=
  match fetch_script g with
  | [] => (g, ([], None))
  | r :: rest =>
      ({| fetch_script := rest; put_script := put_script g;
          post_script := post_script g |}, r)
  end.

Definition scripted_PutFile (_ : Context) (_ : File) (g : Scripted)
  : Scripted * option error :=
  match put_script g with
  | [] => (g, None)
  | r :: rest =>
      ({| fetch_script := fetch_script g; put_script := rest;
          post_script := post_script g |}, r)
  end.

Definition scripted_PostFile (_ : Context) (_ : File) (g : Scripted)
  : Scripted * option error :=
  match post_script g with
  | [] => (g, None)
  | r :: rest =>
      ({| fetch_script := fetch_script g; put_script := put_script g;
          post_script := rest |}, r)
  end.

#[export] Instance Scripted_Gitlab : Gitlab Scripted := {
  FetchFiles := scripted_FetchFiles;
  PutFile := scripted_PutFile;
  PostFile := scripted_PostFile;
}.

End gitlab.

Import checks gitlab.

(* ------------------------------------------------------------------------ *)
(** ** Effects: the observable trace and the goroutine monad *)

Inductive level := Debug | Info | Error.

(** A call to the remote store through the client. *)
Inductive call :=
| CFetchFiles
| CPutFile (f : File)
| CPostFile (f : File).

(** What an execution leaves behind: log lines and remote-store calls. *)
Inductive event :=
| Log (lvl : level) (msg : string)
| Remote (c : call).

(** [ctx.Err()] *)
Definition ctx_Err (ctx : Context) : option error :=
  if closed ctx then Some "context canceled" else None.

(** A goroutine either returns a value in a new state, or parks for ever on
    a channel operation nobody will complete, in the state it had reached. *)
Inductive outcome (S A : Type) :=
| Ret (a : A) (s : S)
| Park (s : S).
Arguments Ret {S A} a s.
Arguments Park {S A} s.

Definition M (S A : Type) := S -> outcome S A.

Definition ret {S A} (a : A) : M S A := fun s => Ret a s.

Definition bind {S A B} (m : M S A) (k : A -> M S B) : M S B :=
  fun s => match m s with
           | Ret a s' => k a s'
           | Park s' => Park s'
           end.

Declare Scope go_scope.
Delimit Scope go_scope with go.
Notation "x <- m ;; k" := (bind m (fun x => k))
  (at level 61, m at next level, right associativity) : go_scope.
Notation "m ;; k" := (bind m (fun _ => k))
  (at level 61, right associativity) : go_scope.
Local Open Scope go_scope.

(* ------------------------------------------------------------------------ *)
(** ** The manager and its operations *)

Section Manager.

Context {G : Type} `{Gitlab G}.

(** The wall clock: [clock k] is what the [k]-th call of [time.Now()]
    returns. *)
Variable clock : nat -> time.Time.

(** The struct [gitlabTargetManager].  [done] is a channel of capacity 1
    carrying [struct{}]: only the number of buffered signals matters.  The
    mutex [mu] has no field here: within one goroutine every [Lock] is
    paired with a deferred [Unlock]; its protocol is the subject of
    [Module Interleaving] below. *)
Record gitlabTargetManager := {
  targets : list GlobalTarget;
  done : nat;
  gitlab : G;
  name : string;
  checkInterval : time.Duration;
  unhealthyThreshold : time.Duration;
  registrationInterval : time.Duration;
  registered : bool;
}.

Definition done_cap : nat := 1.

(** [NewGitlabManager] *)
Definition NewGitlabManager (g : G) (name : string)
    (checkInterval unhealthyThreshold regInterval : time.Duration)
  : gitlabTargetManager :=
  {| targets := []; done := 0%nat; gitlab := g; name := name;
     checkInterval := checkInterval;
     unhealthyThreshold := unhealthyThreshold;
     registrationInterval := regInterval;
     registered := false |}.

(** The state one goroutine runs in: the manager, the number of clock
    readings taken so far, and the trace. *)
Record world := {
  mgr : gitlabTargetManager;
  tick : nat;
  trace : list event;
}.

Definition set_targets (ts : list GlobalTarget) (t : gitlabTargetManager) :=
  {| targets := ts; done := done t; gitlab := gitlab t; name := name t;
     checkInterval := checkInterval t;
     unhealthyThreshold := unhealthyThreshold t;
     registrationInterval := registrationInterval t;
     registered := registered t |}.

Definition set_done (n : nat) (t : gitlabTargetManager) :=
  {| targets := targets t; done := n; gitlab := gitlab t; name := name t;
     checkInterval := checkInterval t;
     unhealthyThreshold := unhealthyThreshold t;
     registrationInterval := registrationInterval t;
     registered := registered t |}.

Definition set_gitlab (g : G) (t : gitlabTargetManager) :=
  {| targets := targets t; done := done t; gitlab := g; name := name t;
     checkInterval := checkInterval t;
     unhealthyThreshold := unhealthyThreshold t;
     registrationInterval := registrationInterval t;
     registered := registered t |}.

Definition set_registered (b : bool) (t : gitlabTargetManager) :=
  {| targets := targets t; done := done t; gitlab := gitlab t;
     name := name t; checkInterval := checkInterval t;
     unhealthyThreshold := unhealthyThreshold t;
     registrationInterval := registrationInterval t;
     registered := b |}.

Definition with_mgr (f : gitlabTargetManager -> gitlabTargetManager)
    (w : world) : world :=
  {| mgr := f (mgr w); tick := tick w; trace := trace w |}.

Definition emit (e : event) (w : world) : world :=
  {| mgr := mgr w; tick := tick w; trace := trace w ++ [e] |}.

(** *** Primitive effects *)

Definition log (lvl : level) (msg : string) : M world unit :=
  fun w => Ret tt (emit (Log lvl msg) w).

Definition time_Now : M world time.Time :=
  fun w => Ret (clock (tick w))
               {| mgr := mgr w; tick := S (tick w); trace := trace w |}.

Definition read {A} (f : gitlabTargetManager -> A) : M world A :=
  fun w => Ret (f (mgr w)) w.

Definition write (f : gitlabTargetManager -> gitlabTargetManager)
  : M world unit :=
  fun w => Ret tt (with_mgr f w).

(** [t.done <- struct{}{}]: the send completes while the buffer has room;
    with a full buffer the sender waits for a receiver. *)
Definition send_done : M world unit :=
  fun w => if (done (mgr w) <? done_cap)%nat
           then Ret tt (with_mgr (set_done (S (done (mgr w)))) w)
           else Park w.

Definition gitlab_FetchFiles (ctx : Context)
  : M world (list GlobalTarget * option error) :=
  fun w => let (g, r) := FetchFiles ctx (gitlab (mgr w)) in
           Ret r (emit (Remote CFetchFiles) (with_mgr (set_gitlab g) w)).

Definition gitlab_PutFile (ctx : Context) (f : File)
  : M world (option error) :=
  fun w => let (g, r) := PutFile ctx f (gitlab (mgr w)) in
           Ret r (emit (Remote (CPutFile f)) (with_mgr (set_gitlab g) w)).

Definition gitlab_PostFile (ctx : Context) (f : File)
  : M world (option error) :=
  fun w => let (g, r) := PostFile ctx f (gitlab (mgr w)) in
           Ret r (emit (Remote (CPostFile f)) (with_mgr (set_gitlab g) w)).

(** *** Methods *)

(** [GetTargets] *)
Definition GetTargets : M world (list GlobalTarget) := read targets.

(** [Registered] *)
Definition Registered : M world bool := read registered.

(** [Shutdown] *)
Definition Shutdown (ctx : Context) : M world (option error) :=
  log Debug "Shutting down global gitlabTargetManager" ;;
  write (set_registered false) ;;
  send_done ;;
  ret None.

(** [updateRegistration] *)
Definition updateRegistration (ctx : Context) : M world (option error) :=
  log Debug "Updating registration" ;;
  now <- time_Now ;;
  n <- read name ;;
  let f := {| Branch := "main";
              AuthorEmail := (n ++ "@sparrow")%string;
              AuthorName := n;
              Content := {| Url := ("https://" ++ n)%string;
                            LastSeen := time.UTC now |};
              CommitMessage := "" |} in
  r <- Registered ;;
  if r then
    let f := with_CommitMessage f "Updated registration" in
    err <- gitlab_PutFile ctx f ;;
    match err with
    | Some e =>
        log Error "Failed to update registration" ;;
        ret (Some e)
    | None =>
        log Debug "Successfully updated registration" ;;
        ret None
    end
  else
    let f := with_CommitMessage f "Initial registration" in
    err <- gitlab_PostFile ctx f ;;
    match err with
    | Some e =>
        log Error "Failed to register global gitlabTargetManager" ;;
        ret (Some e)
    | None =>
        log Debug "Successfully registered" ;;
        write (set_registered true) ;;
        ret None
    end.

(** The [for _, target := range targets] loop of [refreshTargets]:
    [healthyTargets] is the accumulator. *)
Fixpoint filter_unhealthy (thr : time.Duration) (ts : list GlobalTarget)
    (healthyTargets : list GlobalTarget) : M world (list GlobalTarget) :=
  match ts with
  | [] => ret healthyTargets
  | target :: rest =>
      now <- time_Now ;;
      if time.After (time.Add now (time.neg thr)) (LastSeen target) then
        log Debug "Skipping unhealthy target" ;;
        filter_unhealthy thr rest healthyTargets
      else
        filter_unhealthy thr rest (healthyTargets ++ [target])
  end.

(** [refreshTargets] *)
Definition refreshTargets (ctx : Context) : M world (option error) :=
  r <- gitlab_FetchFiles ctx ;;
  match snd r with
  | Some e =>
      log Error "Failed to update global targets" ;;
      ret (Some e)
  | None =>
      thr <- read unhealthyThreshold ;;
      healthyTargets <- filter_unhealthy thr (fst r) [] ;;
      write (set_targets healthyTargets) ;;
      log Debug "Updated global targets" ;;
      ret None
  end.

End Manager.

Arguments gitlabTargetManager G : clear implicits.
Arguments world G : clear implicits.

(* ------------------------------------------------------------------------ *)
(** ** The [Reconcile] loop *)

(** A [time.Timer]: [Armed] while it runs, [Fired] once its tick waits in the
    channel [C], [Idle] when it neither runs nor holds a tick (stopped, or
    its tick was received and [Reset] was not called). *)
Inductive timer := Armed | Fired | Idle.

Definition timer_Reset (_ : timer) : timer := Armed.

Definition timer_Stop (tm : timer) : timer :=
  match tm with
  | Armed => Idle
  | Fired => Fired
  | Idle => Idle
  end.

Definition is_fired (tm : timer) : bool :=
  match tm with
  | Fired => true
  | _ => false
  end.

(** The four communication clauses of the [select]. *)
Inductive select_case :=
| CaseCtxDone
| CaseDone
| CaseCheckTimer
| CaseRegistrationTimer.

Inductive status := Running | Returned | Parked.

Inductive which_timer := CheckT | RegistrationT.

(** What can happen to a running reconciler: its goroutine runs one
    iteration of the [for] loop, [select] having chosen a clause that can
    proceed; a timer fires; the context is cancelled; the owner of the
    manager calls [Shutdown] from its own goroutine. *)
Inductive action :=
| Select (c : select_case)
| Fire (tm : which_timer)
| Cancel
| OwnerShutdown.

Section Reconciler.

Context {G : Type} `{Gitlab G}.
Variable clock : nat -> time.Time.

(** The goroutine running [Reconcile]: the manager's world, the context
    it was given, its two local timers and where its control is. *)
Record loop := {
  world_of : world G;
  ctx : Context;
  checkTimer : timer;
  registrationTimer : timer;
  status_of : status;
}.

Definition set_world (w : world G) (l : loop) : loop :=
  {| world_of := w; ctx := ctx l; checkTimer := checkTimer l;
     registrationTimer := registrationTimer l; status_of := status_of l |}.

Definition set_ctx (c : Context) (l : loop) : loop :=
  {| world_of := world_of l; ctx := c; checkTimer := checkTimer l;
     registrationTimer := registrationTimer l; status_of := status_of l |}.

Definition set_checkTimer (tm : timer) (l : loop) : loop :=
  {| world_of := world_of l; ctx := ctx l; checkTimer := tm;
     registrationTimer := registrationTimer l; status_of := status_of l |}.

Definition set_registrationTimer (tm : timer) (l : loop) : loop :=
  {| world_of := world_of l; ctx := ctx l; checkTimer := checkTimer l;
     registrationTimer := tm; status_of := status_of l |}.

Definition set_status (st : status) (l : loop) : loop :=
  {| world_of := world_of l; ctx := ctx l; checkTimer := checkTimer l;
     registrationTimer := registrationTimer l; status_of := st |}.

Definition logl (lvl : level) (msg : string) (l : loop) : loop :=
  set_world (emit (Log lvl msg) (world_of l)) l.

(** [Reconcile] up to its [for]: the log line and the two [NewTimer]s. *)
Definition Reconcile_enter (c : Context) (w : world G) : loop :=
  {| world_of :=
       emit (Log Debug "Starting global gitlabTargetManager reconciler") w;
     ctx := c; checkTimer := Armed; registrationTimer := Armed;
     status_of := Running |}.

(** [return] inside the loop runs the two deferred [Stop]s. *)
Definition Reconcile_return (l : loop) : loop :=
  set_status Returned
    (set_checkTimer (timer_Stop (checkTimer l))
       (set_registrationTimer (timer_Stop (registrationTimer l)) l)).

(** Can the clause proceed? *)
Definition ready (c : select_case) (l : loop) : bool :=
  match c with
  | CaseCtxDone => closed (ctx l)
  | CaseDone => (0 <? done (mgr (world_of l)))%nat
  | CaseCheckTimer => is_fired (checkTimer l)
  | CaseRegistrationTimer => is_fired (registrationTimer l)
  end.

(** One iteration of the [for] loop, [select] having chosen clause [c]. *)
Definition Reconcile_iteration (c : select_case) (l : loop) : loop :=
  match c with
  | CaseCtxDone =>
      match ctx_Err (ctx l) with
      | Some _ =>
          let l := logl Error "Context canceled" l in
          match Shutdown (ctx l) (world_of l) with
          | Ret (Some _) w' =>
              Reconcile_return
                (logl Error "Failed to shutdown gracefully" (set_world w' l))
          | Ret None w' => set_world w' l
          | Park w' => set_status Parked (set_world w' l)
          end
      | None => l
      end
  | CaseDone =>
      let l := set_world
                 (with_mgr (set_done (pred (done (mgr (world_of l)))))
                    (world_of l)) l in
      Reconcile_return (logl Info "Ending Reconcile routine." l)
  | CaseCheckTimer =>
      let l := set_checkTimer Idle l in
      match refreshTargets clock (ctx l) (world_of l) with
      | Ret (Some _) w' =>
          logl Error "Failed to get global gitlabTargetManager"
            (set_world w' l)
      | Ret None w' =>
          let l := set_world w' l in
          set_checkTimer (timer_Reset (checkTimer l)) l
      | Park w' => set_status Parked (set_world w' l)
      end
  | CaseRegistrationTimer =>
      let l := set_registrationTimer Idle l in
      match updateRegistration clock (ctx l) (world_of l) with
      | Ret (Some _) w' =>
          logl Error "Failed to register global gitlabTargetManager"
            (set_world w' l)
      | Ret None w' =>
          let l := set_world w' l in
          set_registrationTimer (timer_Reset (registrationTimer l)) l
      | Park w' => set_status Parked (set_world w' l)
      end
  end.

Definition get_timer (tm : which_timer) (l : loop) : timer :=
  match tm with
  | CheckT => checkTimer l
  | RegistrationT => registrationTimer l
  end.

Definition set_timer (tm : which_timer) (v : timer) (l : loop) : loop :=
  match tm with
  | CheckT => set_checkTimer v l
  | RegistrationT => set_registrationTimer v l
  end.

(** [exec a l] is the state after [a], or [None] when [a] cannot happen in
    [l].  [OwnerShutdown] is the owner's call of [Shutdown] while the
    [done] channel has room; a call that would park the owner is not an
    action of this model. *)
Definition exec (a : action) (l : loop) : option loop :=
  match a with
  | Select c =>
      match status_of l with
      | Running =>
          if ready c l then Some (Reconcile_iteration c l) else None
      | _ => None
      end
  | Fire tm =>
      match get_timer tm l with
      | Armed => Some (set_timer tm Fired l)
      | _ => None
      end
  | Cancel => Some (set_ctx {| closed := true |} l)
  | OwnerShutdown =>
      match Shutdown (ctx l) (world_of l) with
      | Ret _ w' => Some (set_world w' l)
      | Park _ => None
      end
  end.

Fixpoint runs (acts : list action) (l : loop) : option loop :=
  match acts with
  | [] => Some l
  | a :: rest =>
      match exec a l with
      | Some l' => runs rest l'
      | None => None
      end
  end.

(** The remote-store calls of a trace, in order. *)
Fixpoint remote_calls (tr : list event) : list call :=
  match tr with
  | [] => []
  | Remote c :: rest => c :: remote_calls rest
  | Log _ _ :: rest => remote_calls rest
  end.

(** How often a line was logged. *)
Fixpoint count_log (msg : string) (tr : list event) : nat :=
  match tr with
  | [] => 0%nat
  | Log _ m :: rest =>
      ((if String.eqb m msg then 1 else 0) + count_log msg rest)%nat
  | Remote _ :: rest => count_log msg rest
  end.

End Reconciler.

Arguments loop G : clear implicits.

(* ------------------------------------------------------------------------ *)
(** ** What the specification says, in its own words *)

(** "discards any record where [now - lastSeen > unhealthyThreshold]" *)
Definition stale (now : time.Time) (thr : time.Duration) (r : GlobalTarget)
  : bool :=
  thr <? now - LastSeen r.

(** The records a refresh keeps when the [k]-th clock reading is taken for
    the first record, the next one for the second, and so on. *)
Fixpoint survivors (clock : nat -> time.Time) (thr : time.Duration) (k : nat)
    (ts : list GlobalTarget) : list GlobalTarget :=
  match ts with
  | [] => []
  | target :: rest =>
      if time.After (time.Add (clock k) (time.neg thr)) (LastSeen target)
      then survivors clock thr (S k) rest
      else target :: survivors clock thr (S k) rest
  end.

(** *** Observations on a reconciler *)

Definition is_fetch (c : call) : bool :=
  match c with
  | CFetchFiles => true
  | _ => false
  end.

Definition is_publish (c : call) : bool := negb (is_fetch c).

Section Observations.

Context {G : Type} `{Gitlab G}.
Variable clock : nat -> time.Time.

(** [Reconcile] under a schedule: the state of its goroutine after the
    actions of [sched], in order. *)
Definition Reconcile (sched : list action) (c : Context) (w : world G)
    : option (loop G) :=
  runs clock sched (Reconcile_enter c w).

(** The remote-store calls the reconciler has made so far. *)
Definition calls_of (l : loop G) : list call :=
  remote_calls (trace (world_of l)).

Definition fetches_of (l : loop G) : list call := filter is_fetch (calls_of l).

Definition publishes_of (l : loop G) : list call :=
  filter is_publish (calls_of l).

Definition logged (msg : string) (l : loop G) : nat :=
  count_log msg (trace (world_of l)).

(* The remote call of a registration *)

(** The payload [updateRegistration] publishes. *)
Definition registration_file (n : string) (now : time.Time) (msg : string)
  : File :=
  {| Branch := "main";
     AuthorEmail := (n ++ "@sparrow")%string;
     AuthorName := n;
     Content := {| Url := ("https://" ++ n)%string;
                   LastSeen := time.UTC now |};
     CommitMessage := msg |}.

(** The one remote call of [updateRegistration] in world [w]. *)
Definition registration_call (w : world G) : call :=
  if registered (mgr w)
  then CPutFile (registration_file (name (mgr w)) (clock (tick w))
                   "Updated registration")
  else CPostFile (registration_file (name (mgr w)) (clock (tick w))
                    "Initial registration").

(** What the client answers to that call. *)
Definition registration_answer (ctx : Context) (w : world G)
  : G * option error :=
  match registration_call w with
  | CPutFile f => PutFile ctx f (gitlab (mgr w))
  | CPostFile f => PostFile ctx f (gitlab (mgr w))
  | CFetchFiles => (gitlab (mgr w), None)
  end.

Definition is_nil (err : option error) : bool :=
  match err with
  | None => true
  | Some _ => false
  end.

End Observations.

(* ------------------------------------------------------------------------ *)
(** ** Readers against a refresh: the protocol of the mutex *)

(** [refreshTargets] and any number of [GetTargets] calls, each in its own
    goroutine, interleaved statement by statement under [t.mu]. *)
Module Interleaving.

(** [sync.RWMutex]: whether a writer holds it, and how many readers do.  A
    goroutine whose [Lock] or [RLock] cannot proceed waits: it has no step. *)
Record RWMutex := { writer : bool; readers : nat }.

Definition unlocked : RWMutex := {| writer := false; readers := 0 |}.

Definition Lock (m : RWMutex) : option RWMutex :=
  if writer m then None
  else match readers m with
       | O => Some {| writer := true; readers := 0 |}
       | S _ => None
       end.

Definition Unlock (m : RWMutex) : RWMutex :=
  {| writer := false; readers := readers m |}.

Definition RLock (m : RWMutex) : option RWMutex :=
  if writer m then None
  else Some {| writer := false; readers := S (readers m) |}.

Definition RUnlock (m : RWMutex) : RWMutex :=
  {| writer := writer m; readers := pred (readers m) |}.

(** Where the goroutine in [refreshTargets] stands. *)
Inductive refresher :=
| AtLock
| AtFetch
| AtRange (rest healthyTargets : list GlobalTarget)
| AtUnlock (err : option error)
| Refreshed (err : option error).

(** Where a goroutine in [GetTargets] stands. *)
Inductive getter :=
| AtRLock
| AtRead
| AtRUnlock (snapshot : list GlobalTarget)
| Got (snapshot : list GlobalTarget).

Inductive turn :=
| Refresher
| Getter (i : nat).

Fixpoint update {A} (i : nat) (x : A) (xs : list A) : list A :=
  match xs, i with
  | [], _ => []
  | _ :: rest, O => x :: rest
  | y :: rest, S j => y :: update j x rest
  end.

Section Steps.

Context {G : Type} `{Gitlab G}.
Variable clock : nat -> time.Time.

(** The context [refreshTargets] was called with. *)
Variable ctx : Context.

Record config := {
  memory : world G;
  mu : RWMutex;
  refresh : refresher;
  getters : list getter;
}.

Definition set_memory (w : world G) (c : config) : config :=
  {| memory := w; mu := mu c; refresh := refresh c; getters := getters c |}.

Definition set_mu (m : RWMutex) (c : config) : config :=
  {| memory := memory c; mu := m; refresh := refresh c; getters := getters c |}.

Definition set_refresh (r : refresher) (c : config) : config :=
  {| memory := memory c; mu := mu c; refresh := r; getters := getters c |}.

Definition set_getter (i : nat) (g : getter) (c : config) : config :=
  {| memory := memory c; mu := mu c; refresh := refresh c;
     getters := update i g (getters c) |}.

(** A statement that cannot park, run on the shared memory. *)
Definition atomically {A} (m : M (world G) A) (c : config)
    : option (A * config) :=
  match m (memory c) with
  | Ret a w' => Some (a, set_memory w' c)
  | Park _ => None
  end.

(** The next statement of [refreshTargets]. *)
Definition step_refresher (c : config) : option config :=
  match refresh c with
  | AtLock =>
      match Lock (mu c) with
      | Some m => Some (set_refresh AtFetch (set_mu m c))
      | None => None
      end
  | AtFetch =>
      match atomically (gitlab_FetchFiles ctx) c with
      | Some (r, c') =>
          match snd r with
          | Some e =>
              match atomically (log Error "Failed to update global targets")
                      c' with
              | Some (_, c'') => Some (set_refresh (AtUnlock (Some e)) c'')
              | None => None
              end
          | None => Some (set_refresh (AtRange (fst r) []) c')
          end
      | None => None
      end
  | AtRange (target :: rest) healthyTargets =>
      match atomically (time_Now clock) c with
      | Some (now, c') =>
          if time.After
               (time.Add now (time.neg (unhealthyThreshold (mgr (memory c')))))
               (LastSeen target)
          then
            match atomically (log Debug "Skipping unhealthy target") c' with
            | Some (_, c'') =>
                Some (set_refresh (AtRange rest healthyTargets) c'')
            | None => None
            end
          else Some (set_refresh (AtRange rest (healthyTargets ++ [target])) c')
      | None => None
      end
  | AtRange [] healthyTargets =>
      match atomically (write (set_targets healthyTargets) ;;
                        log Debug "Updated global targets") c with
      | Some (_, c') => Some (set_refresh (AtUnlock None) c')
      | None => None
      end
  | AtUnlock err =>
      Some (set_refresh (Refreshed err) (set_mu (Unlock (mu c)) c))
  | Refreshed _ => None
  end.

(** The next statement of the [i]-th [GetTargets]. *)
Definition step_getter (i : nat) (c : config) : option config :=
  match nth_error (getters c) i with
  | Some AtRLock =>
      match RLock (mu c) with
      | Some m => Some (set_getter i AtRead (set_mu m c))
      | None => None
      end
  | Some AtRead =>
      match atomically GetTargets c with
      | Some (snapshot, c') => Some (set_getter i (AtRUnlock snapshot) c')
      | None => None
      end
  | Some (AtRUnlock snapshot) =>
      Some (set_getter i (Got snapshot) (set_mu (RUnlock (mu c)) c))
  | Some (Got _) => None
  | None => None
  end.

Definition step (t : turn) (c : config) : option config :=
  match t with
  | Refresher => step_refresher c
  | Getter i => step_getter i c
  end.

Fixpoint run (sched : list turn) (c : config) : option config :=
  match sched with
  | [] => Some c
  | t :: rest =>
      match step t c with
      | Some c' => run rest c'
      | None => None
      end
  end.

(** A refresh and [n] readers, all about to start, the mutex free. *)
Definition start (w : world G) (n : nat) : config :=
  {| memory := w; mu := unlocked; refresh := AtLock;
     getters := repeat AtRLock n |}.

(** The peer list a refresh started in [w] installs: the survivors of what
    the store answers, or the old list when the store fails. *)
Definition post_refresh (w : world G) : list GlobalTarget :=
  match snd (snd (FetchFiles ctx (gitlab (mgr w)))) with
  | None =>
      survivors clock (unhealthyThreshold (mgr w)) (tick w)
        (fst (snd (FetchFiles ctx (gitlab (mgr w)))))
  | Some _ => targets (mgr w)
  end.

(** Does the refresher hold the write lock? *)
Definition holds_lock (r : refresher) : bool :=
  match r with
  | AtFetch | AtRange _ _ | AtUnlock _ => true
  | AtLock | Refreshed _ => false
  end.

(** Does the getter hold a read lock? *)
Definition holds_rlock (g : getter) : bool :=
  match g with
  | AtRead | AtRUnlock _ => true
  | AtRLock | Got _ => false
  end.

(** The snapshot a getter has taken, if it has. *)
Definition snapshot_of (g : getter) : option (list GlobalTarget) :=
  match g with
  | AtRUnlock v | Got v => Some v
  | AtRLock | AtRead => None
  end.

(** How many getters hold a read lock. *)
Fixpoint count_rlocks (gs : list getter) : nat :=
  match gs with
  | [] => 0
  | g :: rest => ((if holds_rlock g then 1 else 0) + count_rlocks rest)%nat
  end.

(** What the shared memory looks like while the refresher stands at [r],
    the refresh having started in [w0]. *)
Definition memory_at (w0 : world G) (r : refresher) (w : world G) : Prop :=
  match r with
  | AtLock | AtFetch => w = w0
  | AtRange rest healthyTargets =>
      targets (mgr w) = targets (mgr w0)
      /\ healthyTargets
         ++ survivors clock (unhealthyThreshold (mgr w)) (tick w) rest
         = post_refresh w0
  | AtUnlock None | Refreshed None => targets (mgr w) = post_refresh w0
  | AtUnlock (Some _) | Refreshed (Some _) => targets (mgr w) = targets (mgr w0)
  end.

Record invariant (w0 : world G) (c : config) : Prop := {
  inv_writer : writer (mu c) = holds_lock (refresh c);
  inv_readers : readers (mu c) = count_rlocks (getters c);
  inv_exclusive : writer (mu c) = true -> readers (mu c) = 0%nat;
  inv_memory : memory_at w0 (refresh c) (memory c);
  inv_snapshots :
    forall g v,
      In g (getters c) ->
      snapshot_of g = Some v ->
      v = targets (mgr w0) \/ v = post_refresh w0;
}.

End Steps.

Arguments config G : clear implicits.

End Interleaving.

(* ------------------------------------------------------------------------ *)
(** ** Concrete managers used in the examples *)

Definition ctx0 : Context := {| closed := false |}.

(** A clock that stands still at second 100. *)
Definition now0 : time.Time := 100 * time.Second.
Definition clock0 : nat -> time.Time := fun _ => now0.

Definition threshold0 : time.Duration := 60 * time.Second.

Definition world_with (g : Scripted) (ts : list GlobalTarget)
    : world Scripted :=
  {| mgr := set_targets ts
              (NewGitlabManager g "sparrow.example" (30 * time.Second)
                 threshold0 (300 * time.Second));
     tick := 0; trace := [] |}.

Definition peer_a : GlobalTarget :=
  {| Url := "a"; LastSeen := now0 - 10 * time.Second |}.
Definition peer_b : GlobalTarget :=
  {| Url := "b"; LastSeen := now0 - 120 * time.Second |}.
(** A record whose age is the threshold exactly. *)
Definition peer_c : GlobalTarget :=
  {| Url := "c"; LastSeen := now0 - threshold0 |}.

Definition store_ab : Scripted :=
  {| fetch_script := [([peer_a; peer_b], None)];
     put_script := []; post_script := [] |}.

Definition store_c : Scripted :=
  {| fetch_script := [([peer_c], None)];
     put_script := []; post_script := [] |}.

(** A store whose listing fails half way, handing back what it had got. *)
Definition store_down : Scripted :=
  {| fetch_script := [([peer_b], Some "502 Bad Gateway")];
     put_script := []; post_script := [] |}.

Definition store_ok : Scripted :=
  {| fetch_script := []; put_script := []; post_script := [] |}.

(** A store that is down for fetching and for creating. *)
Definition store_failing : Scripted :=
  {| fetch_script := [([peer_b], Some "502 Bad Gateway")];
     put_script := [];
     post_script := [Some "502 Bad Gateway"] |}.

(** A running reconciler whose two timers have fired, on that store. *)
Definition loop_both_fired : loop Scripted :=
  {| world_of := world_with store_failing [peer_a];
     ctx := ctx0; checkTimer := Fired; registrationTimer := Fired;
     status_of := Running |}.

(** A reconciler that has just entered its loop, and the same with the
    context already cancelled. *)
Definition loop_fresh : loop Scripted :=
  Reconcile_enter ctx0 (world_with store_ab []).

Definition loop_cancelled : loop Scripted :=
  Reconcile_enter {| closed := true |} (world_with store_ab []).

(** The owner has called [Shutdown]; no timer has fired yet. *)
Definition loop_signalled : loop Scripted :=
  match exec clock0 OwnerShutdown loop_fresh with
  | Some l => l
  | None => loop_fresh
  end.

(* ------------------------------------------------------------------------ *)
(** ** Package [metrics] (pkg/sparrow/metrics/metrics.go) *)

(** The metrics manager: its Prometheus registry and the life cycle of the
    OpenTelemetry tracer provider.  The libraries it calls ([resource.New],
    the exporter's [Create], the provider's [Shutdown]) answer through an
    interface; what the manager builds itself is built here. *)
Module metrics.

(** A Go [error] with its message and what it wraps, if anything. *)
Inductive goerror :=
| Plain (msg : string)
| Wrapping (msg : string) (cause : goerror).

(** [err.Error()] *)
Definition message (err : goerror) : string :=
  match err with
  | Plain msg => msg
  | Wrapping msg _ => msg
  end.

(** [errors.Unwrap(err)] *)
Definition Unwrap (err : goerror) : option goerror :=
  match err with
  | Plain _ => None
  | Wrapping _ cause => Some cause
  end.

(** [fmt.Errorf(prefix + "%v", err)]: a new error that wraps nothing. *)
Definition Errorf_v (prefix : string) (err : goerror) : goerror :=
  Plain (prefix ++ message err)%string.

(** [fmt.Errorf(prefix + "%w", err)]: a new error that wraps [err]. *)
Definition Errorf_w (prefix : string) (err : goerror) : goerror :=
  Wrapping (prefix ++ message err)%string err.

(** The collectors [New] registers. *)
Inductive Collector := GoCollector | ProcessCollector.

(** A [prometheus.Registry], by the collectors registered with it. *)
Definition Registry := list Collector.

Inductive AttrKey := ServiceNameKey | ServiceVersionKey.

(** The options [InitTracing] hands to [resource.New]. *)
Inductive ResourceOption :=
| WithHost
| WithContainer
| WithAttributes (kvs : list (AttrKey * string)).

Inductive Sampler := AlwaysSample.

(** What an execution leaves behind. *)
Inductive mevent :=
| MLog (lvl : level) (msg : string)
| ResourceNew (opts : list ResourceOption)
| ExporterCreate
| ProviderCreated (id : nat)
| GlobalProviderSet (id : nat)
| ProviderShutdown (id : nat).

(** A call of one of the two methods of [Provider] that act on the
    process. *)
Inductive request :=
| AskInitTracing (ctx : Context)
| AskShutdown (ctx : Context).

Section Manager.

(** [Config], declared elsewhere in the package, and the values of the
    OpenTelemetry SDK the manager only passes on. *)
Variables Config Resource SpanExporter : Type.

(** [sdktrace.NewBatchSpanProcessor] with the three options set. *)
Record BatchSpanProcessor := {
  bsp_exporter : SpanExporter;
  bsp_batchTimeout : time.Duration;
  bsp_maxQueueSize : Z;
  bsp_maxExportBatchSize : Z;
}.

(** A [*sdktrace.TracerProvider]: [tp_id] tells apart the providers
    allocated one after the other. *)
Record TracerProvider := {
  tp_id : nat;
  tp_sampler : Sampler;
  tp_spanProcessor : BatchSpanProcessor;
  tp_resource : Resource;
}.

(** The libraries, as an environment [E] that answers.  [Create] is handed
    a pointer to the configuration and may write through it. *)
Class Telemetry (E : Type) := {
  resource_New :
    Context -> list ResourceOption -> E -> E * (Resource * option goerror);
  exporter_Create :
    Context -> Config -> E -> E * Config * (SpanExporter * option goerror);
  provider_Shutdown :
    Context -> TracerProvider -> E -> E * option goerror;
}.

Context {E : Type} `{Telemetry E}.

(** The struct [manager]; [tp] is [None] for a nil pointer. *)
Record manager := {
  config : Config;
  registry : Registry;
  tp : option TracerProvider;
}.

(** The manager together with the process around it: the libraries, the
    global tracer provider of [otel] ([None] while it is the default), the
    number of providers allocated so far, and the history. *)
Record state := {
  self : manager;
  env : E;
  global_provider : option TracerProvider;
  allocated : nat;
  history : list mevent;
}.

Definition record (ev : mevent) (s : state) : state :=
  {| self := self s; env := env s; global_provider := global_provider s;
     allocated := allocated s; history := history s ++ [ev] |}.

Definition with_env (e : E) (s : state) : state :=
  {| self := self s; env := e; global_provider := global_provider s;
     allocated := allocated s; history := history s |}.

Definition with_self (m : manager) (s : state) : state :=
  {| self := m; env := env s; global_provider := global_provider s;
     allocated := allocated s; history := history s |}.

Definition set_config (c : Config) (m : manager) : manager :=
  {| config := c; registry := registry m; tp := tp m |}.

Definition set_tp (p : option TracerProvider) (m : manager) : manager :=
  {| config := config m; registry := registry m; tp := p |}.

(** [registry.MustRegister(cs...)] on a registry that holds none of them. *)
Definition MustRegister (cs : list Collector) (r : Registry) : Registry :=
  r ++ cs.

(** [New] *)
Definition New (cfg : Config) : manager :=
  let registry := MustRegister [GoCollector; ProcessCollector] [] in
  {| config := cfg; registry := registry; tp := None |}.

(** [GetRegistry] *)
Definition GetRegistry (m : manager) : Registry := registry m.

(** *** Primitive effects *)

Definition mlog (lvl : level) (msg : string) : M state unit :=
  fun s => Ret tt (record (MLog lvl msg) s).

Definition call_resource_New (ctx : Context) (opts : list ResourceOption)
  : M state (Resource * option goerror) :=
  fun s => let (e, r) := resource_New ctx opts (env s) in
           Ret r (record (ResourceNew opts) (with_env e s)).

Definition call_exporter_Create (ctx : Context)
  : M state (SpanExporter * option goerror) :=
  fun s => let '(e, cfg, r) := exporter_Create ctx (config (self s)) (env s) in
           Ret r (record ExporterCreate
                    (with_self (set_config cfg (self s)) (with_env e s))).

Definition call_provider_Shutdown (ctx : Context) (p : TracerProvider)
  : M state (option goerror) :=
  fun s => let (e, r) := provider_Shutdown ctx p (env s) in
           Ret r (record (ProviderShutdown (tp_id p)) (with_env e s)).

(** [sdktrace.NewTracerProvider]: a fresh provider. *)
Definition NewTracerProvider (sampler : Sampler) (bsp : BatchSpanProcessor)
    (res : Resource) : M state TracerProvider :=
  fun s =>
    let p := {| tp_id := allocated s; tp_sampler := sampler;
                tp_spanProcessor := bsp; tp_resource := res |} in
    Ret p (record (ProviderCreated (tp_id p))
             {| self := self s; env := env s;
                global_provider := global_provider s;
                allocated := S (allocated s); history := history s |}).

(** [otel.SetTracerProvider] *)
Definition otel_SetTracerProvider (p : TracerProvider) : M state unit :=
  fun s => Ret tt (record (GlobalProviderSet (tp_id p))
                     {| self := self s; env := env s;
                        global_provider := Some p;
                        allocated := allocated s; history := history s |}).

Definition assign_tp (p : TracerProvider) : M state unit :=
  fun s => Ret tt (with_self (set_tp (Some p) (self s)) s).

(** *** Methods *)

Definition batchTimeout : time.Duration := 5 * time.Second.
Definition maxQueueSize : Z := 1000.
Definition maxBatchSize : Z := 100.

(** The options of the call of [resource.New]. *)
Definition resource_options : list ResourceOption :=
  [WithHost; WithContainer;
   WithAttributes [(ServiceNameKey, "sparrow-metrics-api");
                   (ServiceVersionKey, "0.1.0")]].

(** [InitTracing] *)
Definition InitTracing (ctx : Context) : M state (option goerror) :=
  r <- call_resource_New ctx resource_options ;;
  match snd r with
  | Some err =>
      mlog Error "Failed to create resource" ;;
      ret (Some (Errorf_v "failed to create resource: " err))
  | None =>
      x <- call_exporter_Create ctx ;;
      match snd x with
      | Some err =>
          mlog Error "Failed to create exporter" ;;
          ret (Some (Errorf_v "failed to create exporter: " err))
      | None =>
          let bsp := {| bsp_exporter := fst x;
                        bsp_batchTimeout := batchTimeout;
                        bsp_maxQueueSize := maxQueueSize;
                        bsp_maxExportBatchSize := maxBatchSize |} in
          p <- NewTracerProvider AlwaysSample bsp (fst r) ;;
          otel_SetTracerProvider p ;;
          assign_tp p ;;
          mlog Debug "Tracing initialized with new provider" ;;
          ret None
      end
  end.

(** [Shutdown] *)
Definition Shutdown (ctx : Context) : M state (option goerror) :=
  fun s =>
    match tp (self s) with
    | Some p =>
        (err <- call_provider_Shutdown ctx p ;;
         match err with
         | Some e =>
             mlog Error "Failed to shutdown tracer provider" ;;
             ret (Some (Errorf_w "failed to shutdown tracer provider: " e))
         | None =>
             mlog Debug "Tracing shutdown" ;;
             ret None
         end) s
    | None => (mlog Debug "Tracing shutdown" ;; ret None) s
    end.

(** The provider shutdowns of a history, in order. *)
Fixpoint shutdowns (h : list mevent) : list nat :=
  match h with
  | [] => []
  | ProviderShutdown id :: rest => id :: shutdowns rest
  | _ :: rest => shutdowns rest
  end.

(** The calls of the exporter's [Create] in a history. *)
Fixpoint creations (h : list mevent) : nat :=
  match h with
  | [] => 0%nat
  | ExporterCreate :: rest => S (creations rest)
  | _ :: rest => creations rest
  end.

(** A process in which [New cfg] has just returned. *)
Definition fresh (cfg : Config) (e : E) : state :=
  {| self := New cfg; env := e; global_provider := None;
     allocated := 0; history := [] |}.

(** The provider a successful [InitTracing] builds in state [s] from the
    resource and the exporter it was given. *)
Definition provider_of (s : state) (res : Resource) (exp : SpanExporter)
    : TracerProvider :=
  {| tp_id := allocated s;
     tp_sampler := AlwaysSample;
     tp_spanProcessor := {| bsp_exporter := exp;
                            bsp_batchTimeout := 5 * time.Second;
                            bsp_maxQueueSize := 1000;
                            bsp_maxExportBatchSize := 100 |};
     tp_resource := res |}.

(** The method a request calls. *)
Definition serve (q : request) : M state (option goerror) :=
  match q with
  | AskInitTracing ctx => InitTracing ctx
  | AskShutdown ctx => Shutdown ctx
  end.

(** The process after a client has made the calls [reqs] one after the
    other, whatever they returned. *)
Fixpoint serve_all (reqs : list request) (s : state) : state :=
  match reqs with
  | [] => s
  | q :: rest =>
      match serve q s with
      | Ret _ s' => serve_all rest s'
      | Park s' => s'
      end
  end.

End Manager.

Arguments state Config Resource SpanExporter E : clear implicits.
Arguments manager Config Resource SpanExporter : clear implicits.
Arguments New {Config Resource SpanExporter} cfg.
Arguments GetRegistry {Config Resource SpanExporter} m.
Arguments InitTracing {Config Resource SpanExporter E _} ctx _.
Arguments Shutdown {Config Resource SpanExporter E _} ctx _.
Arguments fresh {Config Resource SpanExporter E} cfg e.
Arguments serve {Config Resource SpanExporter E _} q _.
Arguments serve_all {Config Resource SpanExporter E _} reqs s.
Arguments provider_of {Config Resource SpanExporter E} s res exp.
Arguments resource_New {Config Resource SpanExporter E _} ctx opts e.
Arguments exporter_Create {Config Resource SpanExporter E _} ctx cfg e.
Arguments provider_Shutdown {Config Resource SpanExporter E _} ctx p e.
Arguments self {Config Resource SpanExporter E} s.
Arguments env {Config Resource SpanExporter E} s.
Arguments global_provider {Config Resource SpanExporter E} s.
Arguments allocated {Config Resource SpanExporter E} s.
Arguments history {Config Resource SpanExporter E} s.
Arguments config {Config Resource SpanExporter} m.
Arguments registry {Config Resource SpanExporter} m.
Arguments tp {Config Resource SpanExporter} m.
Arguments tp_id {Resource SpanExporter} t.
Arguments tp_sampler {Resource SpanExporter} t.
Arguments tp_spanProcessor {Resource SpanExporter} t.
Arguments tp_resource {Resource SpanExporter} t.

(** Libraries with canned answers, one queue per call; a call on an empty
    queue succeeds. *)
Record Canned := {
  resource_answers : list (option goerror);
  exporter_answers : list (option goerror);
  shutdown_answers : list (option goerror);
}.

Definition canned_resource_New (_ : Context) (_ : list ResourceOption)
    (e : Canned) : Canned * (string * option goerror) :=
  match resource_answers e with
  | [] => (e, ("resource", None))
  | r :: rest =>
      ({| resource_answers := rest; exporter_answers := exporter_answers e;
          shutdown_answers := shutdown_answers e |}, ("resource", r))
  end.

Definition canned_exporter_Create (_ : Context) (cfg : unit) (e : Canned)
    : Canned * unit * (string * option goerror) :=
  match exporter_answers e with
  | [] => (e, cfg, ("exporter", None))
  | r :: rest =>
      ({| resource_answers := resource_answers e; exporter_answers := rest;
          shutdown_answers := shutdown_answers e |}, cfg, ("exporter", r))
  end.

Definition canned_provider_Shutdown (_ : Context)
    (_ : TracerProvider string string) (e : Canned)
    : Canned * option goerror :=
  match shutdown_answers e with
  | [] => (e, None)
  | r :: rest =>
      ({| resource_answers := resource_answers e;
          exporter_answers := exporter_answers e;
          shutdown_answers := rest |}, r)
  end.

#[global] Instance Canned_Telemetry : Telemetry unit string string Canned := {
  resource_New := canned_resource_New;
  exporter_Create := canned_exporter_Create;
  provider_Shutdown := canned_provider_Shutdown;
}.

(** Libraries that always succeed, and libraries whose provider fails to
    shut down. *)
Definition all_well : Canned :=
  {| resource_answers := []; exporter_answers := []; shutdown_answers := [] |}.

Definition flush_fails : Canned :=
  {| resource_answers := []; exporter_answers := [];
     shutdown_answers := [Some (Plain "context deadline exceeded")] |}.

Definition no_host : Canned :=
  {| resource_answers := [Some (Plain "no host")];
     exporter_answers := []; shutdown_answers := [] |}.

Definition no_exporter : Canned :=
  {| resource_answers := [];
     exporter_answers := [Some (Plain "unknown exporter")];
     shutdown_answers := [] |}.

End metrics.

(** The processes on canned libraries. *)
Definition canned_state : Type :=
  metrics.state unit string string metrics.Canned.

(** A process in which [New] has just returned. *)
Definition fresh_process (e : metrics.Canned) : canned_state :=
  metrics.fresh tt e.

(** A process in which [New] and then [InitTracing] have returned. *)
Definition traced_process (e : metrics.Canned) : canned_state :=
  match metrics.InitTracing ctx0 (fresh_process e) with
  | Ret _ s => s
  | Park s => s
  end.

(* ------------------------------------------------------------------------ *)
(** ** Order-preserving selections *)

(** [subsequence xs ys]: [xs] is [ys] with some elements left out, the
    others in their order. *)
Inductive subsequence {A : Type} : list A -> list A -> Prop :=
| subsequence_nil : subsequence [] []
| subsequence_keep (x : A) (xs ys : list A) :
    subsequence xs ys -> subsequence (x :: xs) (x :: ys)
| subsequence_drop (y : A) (xs ys : list A) :
    subsequence xs ys -> subsequence xs (y :: ys).

(** The iterations of a schedule that serve a timer tick. *)
Definition serves_tick (a : action) : bool :=
  match a with
  | Select CaseCheckTimer | Select CaseRegistrationTimer => true
  | _ => false
  end.

(** The actions by which somebody asks the reconciler to stop. *)
Definition asks_to_stop (a : action) : bool :=
  match a with
  | Cancel | OwnerShutdown => true
  | _ => false
  end.

(** A reader that reads first, then the refresher up to its loop. *)
Definition reader_then_refresher : list Interleaving.turn :=
  [Interleaving.Getter 0; Interleaving.Getter 0; Interleaving.Getter 0;
   Interleaving.Refresher; Interleaving.Refresher].

(** The refresher alone, to its end, on a store with two records. *)
Definition whole_refresh : list Interleaving.turn :=
  repeat Interleaving.Refresher 6.

(** Has the getter returned? *)
Definition getter_returned (g : Interleaving.getter) : bool :=
  match g with
  | Interleaving.Got _ => true
  | _ => false
  end.

(** Has every goroutine of the configuration returned? *)
Definition all_returned {G : Type} `{Gitlab G} (c : Interleaving.config G)
    : bool :=
  match Interleaving.refresh c with
  | Interleaving.Refreshed _ =>
      forallb getter_returned (Interleaving.getters c)
  | _ => false
  end.

(** The result the refresher is bound to return, once it is known. *)
Definition result_known {G : Type} `{Gitlab G} (ctx : Context)
    (w0 : world G) (r : Interleaving.refresher) : Prop :=
  match r with
  | Interleaving.AtLock | Interleaving.AtFetch => True
  | Interleaving.AtRange _ _ =>
      snd (snd (FetchFiles ctx (gitlab (mgr w0)))) = None
  | Interleaving.AtUnlock err | Interleaving.Refreshed err =>
      err = snd (snd (FetchFiles ctx (gitlab (mgr w0))))
  end.

(** A running reconciler whose two timers have fired, on a store that
    answers. *)
Definition loop_ticks_pending : loop Scripted :=
  {| world_of := world_with store_ab [peer_c];
     ctx := ctx0; checkTimer := Fired; registrationTimer := Fired;
     status_of := Running |}.

(** A schedule in which both timers fire and are served twice. *)
Definition two_rounds : list action :=
  [Fire CheckT; Select CaseCheckTimer; Fire RegistrationT;
   Select CaseRegistrationTimer; Fire CheckT; Fire RegistrationT;
   Select CaseRegistrationTimer; Select CaseCheckTimer].

(** The loop is running with nobody having asked it to stop. *)
Definition undisturbed {G : Type} `{Gitlab G} (l : loop G) : Prop :=
  status_of l = Running
  /\ closed (ctx l) = false
  /\ done (mgr (world_of l)) = 0%nat.

(* ======================================================================== *)
(** * Properties *)

(* ------------------------------------------------------------------------ *)
(** ** Arithmetic of the staleness test *)

Lemma neg_in_range (d : time.Duration) :
  time.min_int64 < d <= time.max_int64 -> time.neg d = - d.
Proof.
  unfold time.neg, time.wrap64, time.min_int64, time.max_int64.
  intros Hd.
  rewrite Z.mod_small by lia. lia.
Qed.


Lemma After_Add_neg (now : time.Time) (thr : time.Duration) (r : GlobalTarget) :
  time.min_int64 < thr <= time.max_int64 ->
  time.After (time.Add now (time.neg thr)) (LastSeen r) = stale now thr r.
Proof.
  intros Hthr. rewrite (neg_in_range _ Hthr).
  unfold time.After, time.Add, stale.
  destruct (Z.ltb_spec (LastSeen r) (now + - thr));
    destruct (Z.ltb_spec thr (now - LastSeen r)); try reflexivity; lia.
Qed.

Lemma survivors_constant_clock (clock : nat -> time.Time) (now : time.Time)
    (thr : time.Duration) (ts : list GlobalTarget) :
  time.min_int64 < thr <= time.max_int64 ->
  forall k,
    (forall i, (k <= i < k + List.length ts)%nat -> clock i = now) ->
    survivors clock thr k ts = filter (fun r => negb (stale now thr r)) ts.
Proof.
  intros Hthr. induction ts as [|t ts IH]; intros k Hclock.
  - reflexivity.
  - cbn [survivors filter].
    rewrite (Hclock k) by (cbn [List.length]; lia).
    rewrite (After_Add_neg _ _ _ Hthr).
    rewrite (IH (S k)) by (intros i Hi; apply Hclock; cbn [List.length]; lia).
    destruct (stale now thr t); reflexivity.
Qed.

(* ------------------------------------------------------------------------ *)
(** ** Traces *)

Lemma remote_calls_app (tr1 tr2 : list event) :
  remote_calls (tr1 ++ tr2) = remote_calls tr1 ++ remote_calls tr2.
Proof.
  induction tr1 as [|[lvl m|c] tr1 IH]; cbn [app remote_calls].
  - reflexivity.
  - exact IH.
  - now rewrite IH.
Qed.

Lemma count_log_app (msg : string) (tr1 tr2 : list event) :
  count_log msg (tr1 ++ tr2) = (count_log msg tr1 + count_log msg tr2)%nat.
Proof.
  induction tr1 as [|[lvl m|c] tr1 IH]; cbn [app count_log].
  - reflexivity.
  - rewrite IH. lia.
  - exact IH.
Qed.

(* ------------------------------------------------------------------------ *)
(** ** The operations, one by one *)

Section Operations.

Context {G : Type} `{Gitlab G}.
Variable clock : nat -> time.Time.

(** The filtering loop returns the accumulator extended by the survivors;
    it reads the clock once per record and touches nothing else. *)
Lemma filter_unhealthy_spec (thr : time.Duration) (ts : list GlobalTarget) :
  forall (acc : list GlobalTarget) (w : world G),
  exists w',
    filter_unhealthy clock thr ts acc w
      = Ret (acc ++ survivors clock thr (tick w) ts) w'
    /\ mgr w' = mgr w
    /\ tick w' = (tick w + List.length ts)%nat
    /\ remote_calls (trace w') = remote_calls (trace w)
    /\ (forall msg, msg <> "Skipping unhealthy target" ->
          count_log msg (trace w') = count_log msg (trace w)).
Proof.
  induction ts as [|t ts IH]; intros acc w.
  - exists w. cbn. rewrite app_nil_r. repeat split; try reflexivity; lia.
  - cbn [filter_unhealthy survivors List.length].
    unfold bind at 1. unfold time_Now at 1. cbn [tick].
    destruct (time.After _ _).
    + unfold bind at 1. unfold log at 1.
      destruct (IH acc (emit (Log Debug "Skipping unhealthy target")
                          {| mgr := mgr w; tick := S (tick w);
                             trace := trace w |}))
        as (w' & Hrun & Hmgr & Htick & Hcalls & Hlog).
      exists w'. cbn [tick emit mgr trace] in *.
      rewrite Hrun. repeat split; try assumption.
      * lia.
      * rewrite Hcalls, remote_calls_app. cbn. apply app_nil_r.
      * intros msg Hmsg. rewrite (Hlog msg Hmsg), count_log_app.
        cbn [count_log].
        destruct (String.eqb_spec "Skipping unhealthy target" msg);
          [congruence | lia].
    + destruct (IH (acc ++ [t]) {| mgr := mgr w; tick := S (tick w);
                                   trace := trace w |})
        as (w' & Hrun & Hmgr & Htick & Hcalls & Hlog).
      exists w'. cbn [tick mgr trace] in *.
      rewrite Hrun, <- app_assoc. repeat split; try assumption. lia.
Qed.

(** A failed fetch: the error is returned and only the client and the
    trace have moved. *)
Lemma refreshTargets_failure (ctx : Context) (w : world G) (g' : G)
    (ts : list GlobalTarget) (e : error) :
  FetchFiles ctx (gitlab (mgr w)) = (g', (ts, Some e)) ->
  refreshTargets clock ctx w
  = Ret (Some e)
      (emit (Log Error "Failed to update global targets")
         (emit (Remote CFetchFiles) (with_mgr (set_gitlab g') w))).
Proof.
  intros Hfetch. unfold refreshTargets, bind, gitlab_FetchFiles.
  rewrite Hfetch. reflexivity.
Qed.

(** A successful fetch: the peer list becomes the survivors. *)
Lemma refreshTargets_success (ctx : Context) (w : world G) (g' : G)
    (fetched : list GlobalTarget) :
  FetchFiles ctx (gitlab (mgr w)) = (g', (fetched, None)) ->
  exists w',
    refreshTargets clock ctx w = Ret None w'
    /\ mgr w' = set_targets
                  (survivors clock (unhealthyThreshold (mgr w)) (tick w)
                     fetched)
                  (set_gitlab g' (mgr w))
    /\ remote_calls (trace w') = remote_calls (trace w) ++ [CFetchFiles]
    /\ (forall msg, msg <> "Skipping unhealthy target" ->
          msg <> "Updated global targets" ->
          count_log msg (trace w') = count_log msg (trace w)).
Proof.
  intros Hfetch. unfold refreshTargets, bind at 1, gitlab_FetchFiles.
  rewrite Hfetch. cbn [snd fst].
  unfold bind at 1, read at 1.
  cbn [mgr with_mgr emit set_gitlab unhealthyThreshold].
  unfold bind at 1.
  destruct (filter_unhealthy_spec (unhealthyThreshold (mgr w)) fetched []
              (emit (Remote CFetchFiles) (with_mgr (set_gitlab g') w)))
    as (w1 & Hrun & Hmgr & _ & Hcalls & Hlog).
  rewrite Hrun. cbn [mgr tick trace emit with_mgr app] in *.
  eexists. split; [reflexivity|].
  cbn [mgr trace with_mgr emit]. rewrite Hmgr. repeat split.
  - rewrite remote_calls_app, Hcalls, remote_calls_app. cbn.
    now rewrite app_nil_r.
  - intros msg H1 H2. rewrite count_log_app, (Hlog msg H1), count_log_app.
    cbn [count_log].
    destruct (String.eqb_spec "Updated global targets" msg);
      [congruence | lia].
Qed.

(** [refreshTargets] always returns; it never touches [registered] or
    [done], and it calls the store exactly once. *)
Lemma refreshTargets_total (ctx : Context) (w : world G) :
  exists r w',
    refreshTargets clock ctx w = Ret r w'
    /\ registered (mgr w') = registered (mgr w)
    /\ done (mgr w') = done (mgr w)
    /\ remote_calls (trace w') = remote_calls (trace w) ++ [CFetchFiles]
    /\ count_log "Failed to shutdown gracefully" (trace w')
       = count_log "Failed to shutdown gracefully" (trace w)
    /\ count_log "Shutting down global gitlabTargetManager" (trace w')
       = count_log "Shutting down global gitlabTargetManager" (trace w).
Proof.
  destruct (FetchFiles ctx (gitlab (mgr w))) as [g' [ts [e|]]] eqn:Hfetch.
  - exists (Some e). eexists. split.
    + apply (refreshTargets_failure ctx w g' ts e Hfetch).
    + cbn [mgr trace emit with_mgr set_gitlab registered done].
      rewrite !remote_calls_app, !count_log_app. cbn.
      rewrite app_nil_r. repeat split; lia.
  - destruct (refreshTargets_success ctx w g' ts Hfetch)
      as (w' & Hrun & Hmgr & Hcalls & Hlog).
    exists None, w'. rewrite Hmgr. repeat split; try assumption.
    + apply Hlog; discriminate.
    + apply Hlog; discriminate.
Qed.

(** [updateRegistration] always returns, with the client's answer; it
    makes exactly one remote call, and sets [registered] exactly when it
    was unset and the call succeeded. *)
Lemma updateRegistration_spec (ctx : Context) (w : world G) :
  exists w',
    updateRegistration clock ctx w = Ret (snd (registration_answer clock ctx w)) w'
    /\ registered (mgr w')
       = (registered (mgr w) || is_nil (snd (registration_answer clock ctx w)))%bool
    /\ done (mgr w') = done (mgr w)
    /\ targets (mgr w') = targets (mgr w)
    /\ remote_calls (trace w')
       = remote_calls (trace w) ++ [registration_call clock w]
    /\ count_log "Failed to shutdown gracefully" (trace w')
       = count_log "Failed to shutdown gracefully" (trace w)
    /\ count_log "Shutting down global gitlabTargetManager" (trace w')
       = count_log "Shutting down global gitlabTargetManager" (trace w).
Proof.
  unfold updateRegistration, registration_answer, registration_call.
  unfold registration_file, with_CommitMessage.
  unfold bind, log, time_Now, Registered, read, gitlab_PutFile,
    gitlab_PostFile, write, ret.
  cbn [mgr tick trace emit with_mgr Branch AuthorEmail AuthorName Content
       CommitMessage].
  destruct (registered (mgr w)) eqn:Hreg.
  - destruct (PutFile _ _ _) as [g' [e|]]; eexists; (split; [reflexivity|]);
      cbn [mgr trace emit with_mgr set_gitlab set_registered registered
           done targets snd is_nil orb];
      rewrite ?Hreg, !remote_calls_app, !count_log_app; cbn;
      rewrite ?app_nil_r; repeat split; lia.
  - destruct (PostFile _ _ _) as [g' [e|]]; eexists; (split; [reflexivity|]);
      cbn [mgr trace emit with_mgr set_gitlab set_registered registered
           done targets snd is_nil orb];
      rewrite ?Hreg, !remote_calls_app, !count_log_app; cbn;
      rewrite ?app_nil_r; repeat split; lia.
Qed.

(** [Shutdown] with room in [done]: it returns [nil], having cleared
    [registered] and queued one signal. *)
Lemma Shutdown_room (ctx : Context) (w : world G) :
  (done (mgr w) < done_cap)%nat ->
  Shutdown ctx w
  = Ret None
      (with_mgr (set_done (S (done (mgr w))))
         (with_mgr (set_registered false)
            (emit (Log Debug "Shutting down global gitlabTargetManager")
               w))).
Proof.
  intros Hroom. unfold Shutdown, bind, log, write, send_done, ret.
  cbn [mgr with_mgr emit set_registered done].
  destruct (Nat.ltb_spec (done (mgr w)) done_cap); [reflexivity | lia].
Qed.

(** [Shutdown] with a full [done]: the caller parks on the send, having
    cleared [registered]. *)
Lemma Shutdown_full (ctx : Context) (w : world G) :
  (done_cap <= done (mgr w))%nat ->
  Shutdown ctx w
  = Park (with_mgr (set_registered false)
            (emit (Log Debug "Shutting down global gitlabTargetManager")
               w)).
Proof.
  intros Hfull. unfold Shutdown, bind, log, write, send_done, ret.
  cbn [mgr with_mgr emit set_registered done].
  destruct (Nat.ltb_spec (done (mgr w)) done_cap); [lia | reflexivity].
Qed.

(** The only [return] of [Shutdown] returns [nil]. *)
Lemma Shutdown_returns_nil (ctx : Context) (w w' : world G)
    (r : option error) :
  Shutdown ctx w = Ret r w' -> r = None.
Proof.
  destruct (Nat.lt_ge_cases (done (mgr w)) done_cap) as [Hroom|Hfull].
  - rewrite (Shutdown_room ctx w Hroom). congruence.
  - rewrite (Shutdown_full ctx w Hfull). discriminate.
Qed.

End Operations.

(** The scenario of the specification: threshold 60s, records seen 10s and
    120s ago; the refresh keeps the first only. *)
Example refresh_scenario :
  exists w',
    refreshTargets clock0 ctx0 (world_with store_ab []) = Ret None w'
    /\ targets (mgr w') = [peer_a].
Proof. eexists. split; reflexivity. Qed.

(* ------------------------------------------------------------------------ *)
(** ** Properties of the refresh *)

Section RefreshProperties.

Context {G : Type} `{Gitlab G}.
Variable clock : nat -> time.Time.

(** C2.  In every state of the manager, when the client's [FetchFiles]
    fails, [refreshTargets] returns that error and the cached peer list is
    what it was: [GetTargets] gives the same snapshot before and after,
    whatever partial list the client handed back with the error. *)
Theorem refresh_failure_keeps_snapshot (ctx : Context) (w : world G)
    (g' : G) (partial : list GlobalTarget) (e : error) :
  FetchFiles ctx (gitlab (mgr w)) = (g', (partial, Some e)) ->
  exists w',
    refreshTargets clock ctx w = Ret (Some e) w'
    /\ targets (mgr w') = targets (mgr w)
    /\ exists snapshot,
         GetTargets w = Ret snapshot w /\ GetTargets w' = Ret snapshot w'.
Proof.
  intros Hfetch. eexists. split.
  - apply (refreshTargets_failure clock ctx w g' partial e Hfetch).
  - split; [reflexivity|].
    exists (targets (mgr w)). split; reflexivity.
Qed.

(** C3, as amended.  With the clock at [now] during the refresh and a
    threshold whose negation does not overflow, a refresh drops every
    fetched record with [lastSeen < now - unhealthyThreshold] and keeps,
    unchanged, every fetched record with
    [lastSeen >= now - unhealthyThreshold]: a record whose age is the
    threshold exactly is kept.  Nothing else enters the snapshot. *)
Theorem refresh_staleness_boundary (ctx : Context) (w : world G) (g' : G)
    (fetched : list GlobalTarget) (now : time.Time) :
  time.min_int64 < unhealthyThreshold (mgr w) <= time.max_int64 ->
  FetchFiles ctx (gitlab (mgr w)) = (g', (fetched, None)) ->
  (forall i, (tick w <= i < tick w + List.length fetched)%nat ->
             clock i = now) ->
  exists w',
    refreshTargets clock ctx w = Ret None w'
    /\ (forall r, In r fetched ->
                  LastSeen r < now - unhealthyThreshold (mgr w) ->
                  ~ In r (targets (mgr w')))
    /\ (forall r, In r fetched ->
                  now - unhealthyThreshold (mgr w) <= LastSeen r ->
                  In r (targets (mgr w')))
    /\ (forall r, In r (targets (mgr w')) -> In r fetched).
Proof.
  intros Hthr Hfetch Hclock.
  destruct (refreshTargets_success clock ctx w g' fetched Hfetch)
    as (w' & Hrun & Hmgr & _).
  exists w'. split; [exact Hrun|].
  rewrite Hmgr. cbn [targets set_targets].
  rewrite (survivors_constant_clock clock now _ fetched Hthr _ Hclock).
  repeat split.
  - intros r _ Hold Hin. apply filter_In in Hin as [_ Hkeep].
    unfold stale in Hkeep. apply negb_true_iff, Z.ltb_ge in Hkeep. lia.
  - intros r Hin Hfresh. apply filter_In. split; [exact Hin|].
    unfold stale. apply negb_true_iff, Z.ltb_ge. lia.
  - intros r Hin. apply filter_In in Hin. tauto.
Qed.

(** C4.  With the clock at [now] during the refresh, a successful refresh
    replaces the peer list, whatever it was, by the fetched sequence
    filtered by the staleness test: the records with
    [now - lastSeen > unhealthyThreshold] are discarded, the others stay in
    the order of the store. *)
Theorem refresh_is_filter (ctx : Context) (w : world G) (g' : G)
    (fetched : list GlobalTarget) (now : time.Time) :
  time.min_int64 < unhealthyThreshold (mgr w) <= time.max_int64 ->
  FetchFiles ctx (gitlab (mgr w)) = (g', (fetched, None)) ->
  (forall i, (tick w <= i < tick w + List.length fetched)%nat ->
             clock i = now) ->
  exists w',
    refreshTargets clock ctx w = Ret None w'
    /\ targets (mgr w')
       = filter (fun r => negb (stale now (unhealthyThreshold (mgr w)) r))
           fetched
    /\ GetTargets w' = Ret (targets (mgr w')) w'.
Proof.
  intros Hthr Hfetch Hclock.
  destruct (refreshTargets_success clock ctx w g' fetched Hfetch)
    as (w' & Hrun & Hmgr & _).
  exists w'. split; [exact Hrun|]. split; [|reflexivity].
  rewrite Hmgr. cbn [targets set_targets].
  apply (survivors_constant_clock clock now _ fetched Hthr _ Hclock).
Qed.

End RefreshProperties.

Lemma refresh_failure_keeps_snapshot_witness :
  FetchFiles ctx0 (gitlab (mgr (world_with store_down [peer_a])))
  = ({| fetch_script := []; put_script := []; post_script := [] |},
     ([peer_b], Some "502 Bad Gateway"))
  /\ exists w',
       refreshTargets clock0 ctx0 (world_with store_down [peer_a])
       = Ret (Some "502 Bad Gateway") w'
       /\ targets (mgr w') = [peer_a]
       /\ exists snapshot,
            GetTargets (world_with store_down [peer_a])
            = Ret snapshot (world_with store_down [peer_a])
            /\ GetTargets w' = Ret snapshot w'.
Proof.
  split; [reflexivity|].
  apply (refresh_failure_keeps_snapshot clock0 ctx0
           (world_with store_down [peer_a]) store_ok [peer_b]
           "502 Bad Gateway").
  reflexivity.
Defined.

(** C3, as stated, fails: a record whose age is the threshold exactly
    ([lastSeen = now - unhealthyThreshold]) is in the snapshot after the
    refresh. *)
Lemma refresh_keeps_record_at_threshold :
  LastSeen peer_c <= now0 - unhealthyThreshold (mgr (world_with store_c []))
  /\ exists w',
       refreshTargets clock0 ctx0 (world_with store_c []) = Ret None w'
       /\ In peer_c (targets (mgr w')).
Proof.
  split.
  - vm_compute. discriminate.
  - eexists. split; [reflexivity|]. left. reflexivity.
Qed.

Lemma refresh_staleness_boundary_witness :
  time.min_int64 < threshold0 <= time.max_int64
  /\ exists w',
       refreshTargets clock0 ctx0 (world_with store_ab [peer_c]) = Ret None w'
       /\ (forall r, In r [peer_a; peer_b] ->
                     LastSeen r < now0 - threshold0 ->
                     ~ In r (targets (mgr w')))
       /\ (forall r, In r [peer_a; peer_b] ->
                     now0 - threshold0 <= LastSeen r ->
                     In r (targets (mgr w')))
       /\ (forall r, In r (targets (mgr w')) -> In r [peer_a; peer_b]).
Proof.
  split; [vm_compute; split; [reflexivity | discriminate]|].
  apply (refresh_staleness_boundary clock0 ctx0
           (world_with store_ab [peer_c]) store_ok [peer_a; peer_b] now0).
  - vm_compute; split; [reflexivity | discriminate].
  - reflexivity.
  - intros i _. reflexivity.
Defined.

Lemma refresh_is_filter_witness :
  time.min_int64 < threshold0 <= time.max_int64
  /\ exists w',
       refreshTargets clock0 ctx0 (world_with store_ab [peer_c]) = Ret None w'
       /\ targets (mgr w')
          = filter (fun r => negb (stale now0 threshold0 r)) [peer_a; peer_b]
       /\ GetTargets w' = Ret (targets (mgr w')) w'.
Proof.
  split; [vm_compute; split; [reflexivity | discriminate]|].
  apply (refresh_is_filter clock0 ctx0
           (world_with store_ab [peer_c]) store_ok [peer_a; peer_b] now0).
  - vm_compute; split; [reflexivity | discriminate].
  - reflexivity.
  - intros i _. reflexivity.
Defined.

(* ------------------------------------------------------------------------ *)
(** ** Properties of the registration state machine *)

Section RegistrationProperties.

Context {G : Type} `{Gitlab G}.
Variable clock : nat -> time.Time.

(** C6.  From an unregistered manager, two calls of [updateRegistration]
    in sequence, the client succeeding both times, make exactly two remote
    calls: first a [PostFile] (create) marked "Initial registration", then
    a [PutFile] (update) marked "Updated registration"; [Registered] is
    true after the first call and after the second. *)
Theorem register_twice_creates_then_updates (ctx : Context) (w0 : world G) :
  registered (mgr w0) = false ->
  snd (PostFile ctx
         (registration_file (name (mgr w0)) (clock (tick w0))
            "Initial registration")
         (gitlab (mgr w0))) = None ->
  exists w1,
    updateRegistration clock ctx w0 = Ret None w1
    /\ Registered w1 = Ret true w1
    /\ (snd (PutFile ctx
               (registration_file (name (mgr w1)) (clock (tick w1))
                  "Updated registration")
               (gitlab (mgr w1))) = None ->
        exists w2,
          updateRegistration clock ctx w1 = Ret None w2
          /\ remote_calls (trace w2)
             = remote_calls (trace w0)
               ++ [CPostFile (registration_file (name (mgr w0))
                                (clock (tick w0)) "Initial registration");
                   CPutFile (registration_file (name (mgr w1))
                               (clock (tick w1)) "Updated registration")]
          /\ Registered w2 = Ret true w2).
Proof.
  intros Hunreg Hok1.
  destruct (updateRegistration_spec clock ctx w0)
    as (w1 & Hrun1 & Hreg1 & _ & _ & Hcalls1 & _).
  unfold registration_answer, registration_call in Hrun1, Hreg1, Hcalls1.
  rewrite Hunreg in Hrun1, Hreg1, Hcalls1.
  rewrite Hok1 in Hrun1, Hreg1. cbn [orb is_nil] in Hreg1.
  exists w1. split; [exact Hrun1|]. split.
  - unfold Registered, read. now rewrite Hreg1.
  - intros Hok2.
    destruct (updateRegistration_spec clock ctx w1)
      as (w2 & Hrun2 & Hreg2 & _ & _ & Hcalls2 & _).
    unfold registration_answer, registration_call in Hrun2, Hreg2, Hcalls2.
    rewrite Hreg1 in Hrun2, Hreg2, Hcalls2.
    rewrite Hok2 in Hrun2. cbn [orb] in Hreg2.
    exists w2. split; [exact Hrun2|]. split.
    + rewrite Hcalls2, Hcalls1, <- app_assoc. reflexivity.
    + unfold Registered, read. now rewrite Hreg2.
Qed.

End RegistrationProperties.

Lemma register_twice_creates_then_updates_witness :
  registered (mgr (world_with store_ok [])) = false
  /\ exists w1,
       updateRegistration clock0 ctx0 (world_with store_ok []) = Ret None w1
       /\ Registered w1 = Ret true w1
       /\ (snd (PutFile ctx0
                  (registration_file (name (mgr w1)) (clock0 (tick w1))
                     "Updated registration")
                  (gitlab (mgr w1))) = None ->
           exists w2,
             updateRegistration clock0 ctx0 w1 = Ret None w2
             /\ remote_calls (trace w2)
                = remote_calls (trace (world_with store_ok []))
                  ++ [CPostFile
                        (registration_file
                           (name (mgr (world_with store_ok [])))
                           (clock0 (tick (world_with store_ok [])))
                           "Initial registration");
                      CPutFile
                        (registration_file (name (mgr w1)) (clock0 (tick w1))
                           "Updated registration")]
             /\ Registered w2 = Ret true w2).
Proof.
  split; [reflexivity|].
  apply (register_twice_creates_then_updates clock0 ctx0
           (world_with store_ok [])); reflexivity.
Defined.

(** The same two calls, run on the scripted store. *)
Example register_twice_run :
  exists w1 w2,
    updateRegistration clock0 ctx0 (world_with store_ok []) = Ret None w1
    /\ updateRegistration clock0 ctx0 w1 = Ret None w2
    /\ map (fun c => match c with
                     | CPostFile f => ("create", CommitMessage f)
                     | CPutFile f => ("update", CommitMessage f)
                     | CFetchFiles => ("fetch", "")
                     end) (remote_calls (trace w2))
       = [("create", "Initial registration");
          ("update", "Updated registration")]
    /\ registered (mgr w2) = true.
Proof. do 2 eexists. repeat split; cbv; reflexivity. Qed.

(* ------------------------------------------------------------------------ *)
(** ** Properties of the [Reconcile] loop *)

Section LoopProperties.

Context {G : Type} `{Gitlab G}.
Variable clock : nat -> time.Time.

(** *** One iteration, clause by clause *)

Lemma iteration_check (l : loop G) :
  exists r w',
    refreshTargets clock (ctx l) (world_of l) = Ret r w'
    /\ Reconcile_iteration clock CaseCheckTimer l
       = match r with
         | Some _ =>
             logl Error "Failed to get global gitlabTargetManager"
               (set_world w' (set_checkTimer Idle l))
         | None => set_checkTimer Armed (set_world w' (set_checkTimer Idle l))
         end.
Proof.
  destruct (refreshTargets_total clock (ctx l) (world_of l))
    as (r & w' & Hrun & _).
  exists r, w'. split; [exact Hrun|].
  unfold Reconcile_iteration. cbn [set_checkTimer ctx world_of].
  rewrite Hrun. destruct r; reflexivity.
Qed.

Lemma iteration_registration (l : loop G) :
  exists r w',
    updateRegistration clock (ctx l) (world_of l) = Ret r w'
    /\ Reconcile_iteration clock CaseRegistrationTimer l
       = match r with
         | Some _ =>
             logl Error "Failed to register global gitlabTargetManager"
               (set_world w' (set_registrationTimer Idle l))
         | None =>
             set_registrationTimer Armed
               (set_world w' (set_registrationTimer Idle l))
         end.
Proof.
  destruct (updateRegistration_spec clock (ctx l) (world_of l))
    as (w' & Hrun & _).
  eexists _, w'. split; [exact Hrun|].
  unfold Reconcile_iteration. cbn [set_registrationTimer ctx world_of].
  rewrite Hrun. destruct (snd _); reflexivity.
Qed.

Lemma iteration_done (l : loop G) :
  Reconcile_iteration clock CaseDone l
  = Reconcile_return
      (logl Info "Ending Reconcile routine."
         (set_world
            (with_mgr (set_done (pred (done (mgr (world_of l)))))
               (world_of l)) l)).
Proof. reflexivity. Qed.

(** The clause of [ctx.Done()], the context being cancelled: [Shutdown] is
    called; the loop goes on when the signal fitted into [done], and parks
    inside [Shutdown] when [done] was full. *)
Lemma iteration_ctx_done (l : loop G) :
  closed (ctx l) = true ->
  Reconcile_iteration clock CaseCtxDone l
  = let w := emit (Log Error "Context canceled") (world_of l) in
    let w' := with_mgr (set_registered false)
                (emit (Log Debug "Shutting down global gitlabTargetManager")
                   w) in
    if (done (mgr (world_of l)) <? done_cap)%nat
    then set_world (with_mgr (set_done (S (done (mgr (world_of l))))) w') l
    else set_status Parked (set_world w' l).
Proof.
  intros Hclosed. unfold Reconcile_iteration, ctx_Err. rewrite Hclosed.
  cbn [logl set_world world_of ctx].
  destruct (Nat.ltb_spec (done (mgr (world_of l))) done_cap) as [Hroom|Hfull].
  - rewrite Shutdown_room by exact Hroom. reflexivity.
  - rewrite Shutdown_full by exact Hfull. reflexivity.
Qed.

(** *** What one action changes *)

Lemma is_fired_Fired (tm : timer) : is_fired tm = true -> tm = Fired.
Proof. destruct tm; cbn; congruence. Qed.

(** A summary of [exec]: the calls an action adds, what it does to the two
    timers and to the status, and that it never logs a failed shutdown. *)
Lemma exec_effect (a : action) (l l' : loop G) :
  exec clock a l = Some l' ->
  logged "Failed to shutdown gracefully" l'
  = logged "Failed to shutdown gracefully" l
  /\ match a with
     | Select CaseCheckTimer =>
         status_of l = Running /\ status_of l' = Running
         /\ checkTimer l = Fired
         /\ registrationTimer l' = registrationTimer l
         /\ calls_of l' = calls_of l ++ [CFetchFiles]
     | Select CaseRegistrationTimer =>
         status_of l = Running /\ status_of l' = Running
         /\ registrationTimer l = Fired
         /\ checkTimer l' = checkTimer l
         /\ calls_of l'
            = calls_of l ++ [registration_call clock (world_of l)]
     | Select CaseDone =>
         status_of l = Running /\ status_of l' = Returned
         /\ checkTimer l' = timer_Stop (checkTimer l)
         /\ registrationTimer l' = timer_Stop (registrationTimer l)
         /\ calls_of l' = calls_of l
     | Select CaseCtxDone =>
         status_of l = Running
         /\ (status_of l' = Running \/ status_of l' = Parked)
         /\ checkTimer l' = checkTimer l
         /\ registrationTimer l' = registrationTimer l
         /\ calls_of l' = calls_of l
     | Fire CheckT =>
         status_of l' = status_of l
         /\ checkTimer l = Armed /\ checkTimer l' = Fired
         /\ registrationTimer l' = registrationTimer l
         /\ calls_of l' = calls_of l
     | Fire RegistrationT =>
         status_of l' = status_of l
         /\ registrationTimer l = Armed /\ registrationTimer l' = Fired
         /\ checkTimer l' = checkTimer l
         /\ calls_of l' = calls_of l
     | Cancel | OwnerShutdown =>
         status_of l' = status_of l
         /\ checkTimer l' = checkTimer l
         /\ registrationTimer l' = registrationTimer l
         /\ calls_of l' = calls_of l
     end.
Proof.
  unfold logged, calls_of.
  destruct a as [c|tm| |]; cbn [exec]; intros Hexec.
  - destruct (status_of l) eqn:Hst; try discriminate.
    destruct (ready c l) eqn:Hready; [|discriminate].
    injection Hexec as <-.
    destruct c; cbn [ready] in Hready.
    + rewrite (iteration_ctx_done l Hready). cbv zeta.
      destruct (done (mgr (world_of l)) <? done_cap)%nat;
        cbn [set_world set_status world_of status_of checkTimer
             registrationTimer with_mgr emit trace];
        rewrite !remote_calls_app, !count_log_app; cbn;
        rewrite ?app_nil_r; repeat split; auto; lia.
    + rewrite iteration_done.
      cbn [Reconcile_return logl set_world set_status set_checkTimer
           set_registrationTimer world_of status_of checkTimer
           registrationTimer with_mgr emit trace].
      rewrite !remote_calls_app, !count_log_app; cbn.
      rewrite ?app_nil_r. repeat split; auto; lia.
    + apply is_fired_Fired in Hready.
      destruct (iteration_check l) as (r & w' & Hrun & ->).
      destruct (refreshTargets_total clock (ctx l) (world_of l))
        as (r0 & w0 & Hrun0 & _ & _ & Hcalls & Hlog & _).
      rewrite Hrun in Hrun0. injection Hrun0 as <- <-.
      destruct r;
        cbn [logl set_world set_status set_checkTimer world_of status_of
             checkTimer registrationTimer emit trace];
        rewrite ?remote_calls_app, ?count_log_app; cbn;
        rewrite ?app_nil_r, Hcalls, Hlog; repeat split; auto; lia.
    + apply is_fired_Fired in Hready.
      destruct (iteration_registration l) as (r & w' & Hrun & ->).
      destruct (updateRegistration_spec clock (ctx l) (world_of l))
        as (w0 & Hrun0 & _ & _ & _ & Hcalls & Hlog & _).
      rewrite Hrun in Hrun0. injection Hrun0 as _ <-.
      destruct r;
        cbn [logl set_world set_status set_registrationTimer world_of
             status_of checkTimer registrationTimer emit trace];
        rewrite ?remote_calls_app, ?count_log_app; cbn;
        rewrite ?app_nil_r, Hcalls, Hlog; repeat split; auto; lia.
  - destruct tm; cbn [get_timer set_timer] in Hexec.
    + destruct (checkTimer l) eqn:Htm; try discriminate.
      injection Hexec as <-. cbn. repeat split; auto.
    + destruct (registrationTimer l) eqn:Htm; try discriminate.
      injection Hexec as <-. cbn. repeat split; auto.
  - injection Hexec as <-. cbn. repeat split; auto.
  - destruct (Nat.lt_ge_cases (done (mgr (world_of l))) done_cap)
      as [Hroom|Hfull].
    + rewrite (Shutdown_room (ctx l) (world_of l) Hroom) in Hexec.
      injection Hexec as <-.
      cbn [set_world world_of status_of checkTimer registrationTimer
           with_mgr emit trace].
      rewrite !remote_calls_app, !count_log_app; cbn.
      rewrite ?app_nil_r. repeat split; auto; lia.
    + rewrite (Shutdown_full (ctx l) (world_of l) Hfull) in Hexec.
      discriminate.
Qed.

(** *** Invariants of schedules *)

Lemma registration_call_is_publish (w : world G) :
  is_fetch (registration_call clock w) = false.
Proof. unfold registration_call. now destruct (registered (mgr w)). Qed.

(** A check timer that is [Idle] stays so, and no [FetchFiles] follows. *)
Lemma exec_check_idle (a : action) (l l' : loop G) :
  exec clock a l = Some l' ->
  checkTimer l = Idle ->
  checkTimer l' = Idle /\ fetches_of l' = fetches_of l.
Proof.
  intros Hexec Hidle. apply exec_effect in Hexec as [_ Heff].
  unfold fetches_of.
  destruct a as [[| | |]|[|]| |].
  - destruct Heff as (_ & _ & Hc & _ & Hcalls). now rewrite Hc, Hcalls.
  - destruct Heff as (_ & _ & Hc & _ & Hcalls).
    now rewrite Hc, Hcalls, Hidle.
  - destruct Heff as (_ & _ & Hfired & _). congruence.
  - destruct Heff as (_ & _ & _ & Hc & Hcalls).
    rewrite Hc, Hcalls, filter_app. cbn [filter].
    rewrite registration_call_is_publish, app_nil_r. now split.
  - destruct Heff as (_ & Harmed & _). congruence.
  - destruct Heff as (_ & _ & _ & Hc & Hcalls). now rewrite Hc, Hcalls.
  - destruct Heff as (_ & Hc & _ & Hcalls). now rewrite Hc, Hcalls.
  - destruct Heff as (_ & Hc & _ & Hcalls). now rewrite Hc, Hcalls.
Qed.

Lemma runs_check_idle (acts : list action) :
  forall l l' : loop G,
    runs clock acts l = Some l' ->
    checkTimer l = Idle ->
    checkTimer l' = Idle /\ fetches_of l' = fetches_of l.
Proof.
  induction acts as [|a acts IH]; intros l l' Hruns Hidle; cbn [runs] in Hruns.
  - injection Hruns as <-. now split.
  - destruct (exec clock a l) as [l1|] eqn:Hexec; [|discriminate].
    destruct (exec_check_idle a l l1 Hexec Hidle) as [Hidle1 Hf1].
    destruct (IH l1 l' Hruns Hidle1) as [Hidle' Hf']. split; congruence.
Qed.

(** A registration timer that is [Idle] stays so, and no publish follows. *)
Lemma exec_registration_idle (a : action) (l l' : loop G) :
  exec clock a l = Some l' ->
  registrationTimer l = Idle ->
  registrationTimer l' = Idle /\ publishes_of l' = publishes_of l.
Proof.
  intros Hexec Hidle. apply exec_effect in Hexec as [_ Heff].
  unfold publishes_of.
  destruct a as [[| | |]|[|]| |].
  - destruct Heff as (_ & _ & _ & Hr & Hcalls). now rewrite Hr, Hcalls.
  - destruct Heff as (_ & _ & _ & Hr & Hcalls).
    now rewrite Hr, Hcalls, Hidle.
  - destruct Heff as (_ & _ & _ & Hr & Hcalls).
    rewrite Hr, Hcalls, filter_app. cbn. rewrite app_nil_r. now split.
  - destruct Heff as (_ & _ & Hfired & _). congruence.
  - destruct Heff as (_ & _ & _ & Hr & Hcalls). now rewrite Hr, Hcalls.
  - destruct Heff as (_ & Harmed & _). congruence.
  - destruct Heff as (_ & _ & Hr & Hcalls). now rewrite Hr, Hcalls.
  - destruct Heff as (_ & _ & Hr & Hcalls). now rewrite Hr, Hcalls.
Qed.

Lemma runs_registration_idle (acts : list action) :
  forall l l' : loop G,
    runs clock acts l = Some l' ->
    registrationTimer l = Idle ->
    registrationTimer l' = Idle /\ publishes_of l' = publishes_of l.
Proof.
  induction acts as [|a acts IH]; intros l l' Hruns Hidle; cbn [runs] in Hruns.
  - injection Hruns as <-. now split.
  - destruct (exec clock a l) as [l1|] eqn:Hexec; [|discriminate].
    destruct (exec_registration_idle a l l1 Hexec Hidle) as [Hidle1 Hf1].
    destruct (IH l1 l' Hruns Hidle1) as [Hidle' Hf']. split; congruence.
Qed.

(** Once the goroutine has left [Running] (it returned, or it is parked),
    its status never changes again and it makes no remote call. *)
Lemma exec_stopped (a : action) (l l' : loop G) :
  exec clock a l = Some l' ->
  status_of l <> Running ->
  status_of l' = status_of l /\ calls_of l' = calls_of l.
Proof.
  intros Hexec Hstop. apply exec_effect in Hexec as [_ Heff].
  destruct a as [[| | |]|[|]| |];
    try (destruct Heff as (Hrun & _); congruence).
  - destruct Heff as (Hst & _ & _ & _ & Hcalls). now split.
  - destruct Heff as (Hst & _ & _ & _ & Hcalls). now split.
  - destruct Heff as (Hst & _ & _ & Hcalls). now split.
  - destruct Heff as (Hst & _ & _ & Hcalls). now split.
Qed.

Lemma runs_stopped (acts : list action) :
  forall l l' : loop G,
    runs clock acts l = Some l' ->
    status_of l <> Running ->
    status_of l' = status_of l /\ calls_of l' = calls_of l.
Proof.
  induction acts as [|a acts IH]; intros l l' Hruns Hstop; cbn [runs] in Hruns.
  - injection Hruns as <-. now split.
  - destruct (exec clock a l) as [l1|] eqn:Hexec; [|discriminate].
    destruct (exec_stopped a l l1 Hexec Hstop) as [Hst1 Hc1].
    destruct (IH l1 l' Hruns) as [Hst' Hc']; [congruence|].
    split; congruence.
Qed.

(** No schedule ever logs "Failed to shutdown gracefully". *)
Lemma runs_never_logs_failed_shutdown (acts : list action) :
  forall l l' : loop G,
    runs clock acts l = Some l' ->
    logged "Failed to shutdown gracefully" l'
    = logged "Failed to shutdown gracefully" l.
Proof.
  induction acts as [|a acts IH]; intros l l' Hruns; cbn [runs] in Hruns.
  - now injection Hruns as <-.
  - destruct (exec clock a l) as [l1|] eqn:Hexec; [|discriminate].
    apply exec_effect in Hexec as [Hlog _].
    rewrite (IH l1 l' Hruns). exact Hlog.
Qed.

End LoopProperties.

Section ReconcilerClaims.

Context {G : Type} `{Gitlab G}.
Variable clock : nat -> time.Time.

(** On success the handler reaches [Reset]: the timer is armed again. *)
Lemma successful_refresh_rearms (l : loop G) (g' : G)
    (fetched : list GlobalTarget) :
  status_of l = Running ->
  checkTimer l = Fired ->
  FetchFiles (ctx l) (gitlab (mgr (world_of l))) = (g', (fetched, None)) ->
  exists l1,
    exec clock (Select CaseCheckTimer) l = Some l1
    /\ status_of l1 = Running
    /\ checkTimer l1 = Armed.
Proof.
  intros Hrun Hfired Hfetch. cbn [exec ready]. rewrite Hrun, Hfired.
  cbn [is_fired].
  eexists. split; [reflexivity|].
  destruct (iteration_check clock l) as (r & w' & Hr & ->).
  destruct (refreshTargets_success clock (ctx l) (world_of l) g' fetched Hfetch)
    as (w1 & Hr1 & _).
  rewrite Hr in Hr1. injection Hr1 as -> ->. cbn. now split.
Qed.

(** C1, at the failing input.  When [refreshTargets] fails, the handler
    leaves through [continue] before [checkTimer.Reset]: the loop keeps
    running, but the check timer is neither running nor holding a tick, it
    stays so under every later schedule, and [FetchFiles] is never called
    again.  The same holds for a failed [updateRegistration], the
    registration timer and the publishing calls.  So a failed operation is
    not retried on a next firing of its timer: there is no next firing. *)
Theorem failed_operation_is_not_rearmed (l : loop G) :
  status_of l = Running ->
  (checkTimer l = Fired ->
   forall e w',
     refreshTargets clock (ctx l) (world_of l) = Ret (Some e) w' ->
     exists l1,
       exec clock (Select CaseCheckTimer) l = Some l1
       /\ status_of l1 = Running
       /\ checkTimer l1 = Idle
       /\ forall acts l2,
            runs clock acts l1 = Some l2 ->
            checkTimer l2 = Idle /\ fetches_of l2 = fetches_of l1)
  /\ (registrationTimer l = Fired ->
      forall e w',
        updateRegistration clock (ctx l) (world_of l) = Ret (Some e) w' ->
        exists l1,
          exec clock (Select CaseRegistrationTimer) l = Some l1
          /\ status_of l1 = Running
          /\ registrationTimer l1 = Idle
          /\ forall acts l2,
               runs clock acts l1 = Some l2 ->
               registrationTimer l2 = Idle
               /\ publishes_of l2 = publishes_of l1).
Proof.
  intros Hrun. split.
  - intros Hfired e w' Hfail.
    cbn [exec ready]. rewrite Hrun, Hfired. cbn [is_fired].
    eexists. split; [reflexivity|].
    destruct (iteration_check clock l) as (r & w1 & Hr & ->).
    rewrite Hfail in Hr. injection Hr as <- <-.
    cbn [logl set_world set_checkTimer status_of checkTimer].
    split; [exact Hrun|]. split; [reflexivity|].
    intros acts l2 Hruns.
    apply (runs_check_idle clock acts _ l2 Hruns). reflexivity.
  - intros Hfired e w' Hfail.
    cbn [exec ready]. rewrite Hrun, Hfired. cbn [is_fired].
    eexists. split; [reflexivity|].
    destruct (iteration_registration clock l) as (r & w1 & Hr & ->).
    rewrite Hfail in Hr. injection Hr as <- <-.
    cbn [logl set_world set_registrationTimer status_of registrationTimer].
    split; [exact Hrun|]. split; [reflexivity|].
    intros acts l2 Hruns.
    apply (runs_registration_idle clock acts _ l2 Hruns). reflexivity.
Qed.

(** C7, as amended.  Once a signal waits in [done], the iteration in which
    [select] takes the [done] clause returns from [Reconcile] without a
    remote-store call, and the state reached is terminal: under every later
    schedule the loop stays returned and the remote-store calls stay what
    they were.  When moreover the context is not cancelled and no timer tick
    is pending, the [done] clause is the only one [select] can take, so the
    next iteration is that one. *)
Theorem done_signal_ends_loop (l : loop G) :
  status_of l = Running ->
  (0 < done (mgr (world_of l)))%nat ->
  (exists l1,
     exec clock (Select CaseDone) l = Some l1
     /\ status_of l1 = Returned
     /\ calls_of l1 = calls_of l
     /\ forall acts l2,
          runs clock acts l1 = Some l2 ->
          status_of l2 = Returned /\ calls_of l2 = calls_of l)
  /\ (closed (ctx l) = false ->
      checkTimer l <> Fired ->
      registrationTimer l <> Fired ->
      forall c l1, exec clock (Select c) l = Some l1 -> c = CaseDone).
Proof.
  intros Hrun Hdone. split.
  - assert (Hready : ready CaseDone l = true).
    { cbn [ready]. now apply Nat.ltb_lt. }
    assert (Hexec : exec clock (Select CaseDone) l
                    = Some (Reconcile_iteration clock CaseDone l)).
    { cbn [exec]. now rewrite Hrun, Hready. }
    exists (Reconcile_iteration clock CaseDone l).
    split; [exact Hexec|].
    destruct (exec_effect clock _ _ _ Hexec) as (_ & _ & Hret & _ & _ & Hcalls).
    split; [exact Hret|]. split; [exact Hcalls|].
    intros acts l2 Hruns.
    destruct (runs_stopped clock acts _ l2 Hruns) as [Hst Hc];
      [congruence|].
    split; congruence.
  - intros Hctx Hcheck Hreg c l1 Hexec. cbn [exec] in Hexec.
    rewrite Hrun in Hexec.
    destruct c; cbn [ready] in Hexec; try reflexivity.
    + rewrite Hctx in Hexec. discriminate.
    + destruct (checkTimer l); cbn in Hexec; congruence.
    + destruct (registrationTimer l); cbn in Hexec; congruence.
Qed.

(** C8, at the failing input.  With the context cancelled and [done] empty,
    [select] may take the clause of [ctx.Done()] twice in a row, as the
    closed channel stays ready: the loop then calls [Shutdown] a second
    time, and that call parks on the full [done] channel.  From there on the
    loop is parked under every schedule: it never returns. *)
Theorem cancelled_loop_can_shut_down_twice (l : loop G) :
  status_of l = Running ->
  closed (ctx l) = true ->
  done (mgr (world_of l)) = 0%nat ->
  exists l2,
    runs clock [Select CaseCtxDone; Select CaseCtxDone] l = Some l2
    /\ logged "Shutting down global gitlabTargetManager" l2
       = (2 + logged "Shutting down global gitlabTargetManager" l)%nat
    /\ status_of l2 = Parked
    /\ forall acts l3, runs clock acts l2 = Some l3 -> status_of l3 = Parked.
Proof.
  intros Hrun Hclosed Hempty.
  cbn [runs exec ready]. rewrite Hrun, Hclosed.
  rewrite (iteration_ctx_done clock l Hclosed). rewrite Hempty.
  cbn [Nat.ltb Nat.leb done_cap].
  cbv zeta.
  cbn [set_world status_of ctx]. rewrite Hrun, Hclosed.
  match goal with
  | |- context [Reconcile_iteration clock CaseCtxDone ?l1] =>
      rewrite (iteration_ctx_done clock l1 Hclosed)
  end.
  cbn [set_world world_of with_mgr set_done set_registered mgr done emit
       Nat.ltb Nat.leb done_cap].
  eexists. split; [reflexivity|].
  unfold logged.
  cbn [set_status set_world world_of status_of trace with_mgr emit].
  split.
  - rewrite !count_log_app. cbn. lia.
  - split; [reflexivity|].
    intros acts l3 Hruns.
    destruct (runs_stopped clock acts _ l3 Hruns) as [Hst _]; [discriminate|].
    exact Hst.
Qed.

(** C10.  [Shutdown] never returns a non-nil error: with room in [done] it
    returns [nil], and otherwise it does not return at all.  Hence, under
    every schedule, the loop never logs "Failed to shutdown gracefully", and
    an iteration on the clause of [ctx.Done()] never returns from
    [Reconcile]. *)
Theorem Shutdown_error_is_always_nil (ctx : Context) (w : world G) :
  match Shutdown ctx w with
  | Ret r _ => r = None /\ (done (mgr w) < done_cap)%nat
  | Park _ => (done_cap <= done (mgr w))%nat
  end
  /\ (forall (l : loop G) acts l',
        runs clock acts l = Some l' ->
        logged "Failed to shutdown gracefully" l'
        = logged "Failed to shutdown gracefully" l)
  /\ (forall (l l' : loop G),
        exec clock (Select CaseCtxDone) l = Some l' ->
        status_of l' <> Returned).
Proof.
  split; [|split].
  - destruct (Nat.lt_ge_cases (done (mgr w)) done_cap) as [Hroom|Hfull].
    + rewrite (Shutdown_room ctx w Hroom). now split.
    + rewrite (Shutdown_full ctx w Hfull). exact Hfull.
  - intros l acts l'. apply runs_never_logs_failed_shutdown.
  - intros l l' Hexec.
    destruct (exec_effect clock _ _ _ Hexec) as (_ & _ & [Hst|Hst] & _);
      congruence.
Qed.

End ReconcilerClaims.

Section RegisteredFlag.

Context {G : Type} `{Gitlab G}.
Variable clock : nat -> time.Time.

(** Apart from the two actions that call [Shutdown], no action of a
    schedule clears [registered]. *)
Lemma exec_keeps_registered (a : action) (l l' : loop G) :
  exec clock a l = Some l' ->
  a <> Select CaseCtxDone ->
  a <> OwnerShutdown ->
  registered (mgr (world_of l)) = true ->
  registered (mgr (world_of l')) = true.
Proof.
  intros Hexec Hctx Hown Hreg.
  destruct a as [c|tm| |]; cbn [exec] in Hexec.
  - destruct (status_of l); try discriminate.
    destruct (ready c l); [|discriminate]. injection Hexec as <-.
    destruct c.
    + congruence.
    + rewrite iteration_done. exact Hreg.
    + destruct (iteration_check clock l) as (r & w' & Hrun & ->).
      destruct (refreshTargets_total clock (ctx l) (world_of l))
        as (r0 & w0 & Hrun0 & Hreg0 & _).
      rewrite Hrun in Hrun0. injection Hrun0 as <- <-.
      destruct r; cbn; congruence.
    + destruct (iteration_registration clock l) as (r & w' & Hrun & ->).
      destruct (updateRegistration_spec clock (ctx l) (world_of l))
        as (w0 & Hrun0 & Hreg0 & _).
      rewrite Hrun in Hrun0. injection Hrun0 as _ <-.
      rewrite Hreg in Hreg0. destruct r; cbn; exact Hreg0.
  - destruct tm; cbn [get_timer set_timer] in Hexec.
    + destruct (checkTimer l); try discriminate. now injection Hexec as <-.
    + destruct (registrationTimer l); try discriminate.
      now injection Hexec as <-.
  - now injection Hexec as <-.
  - congruence.
Qed.

(** C5.  [updateRegistration] always returns; when it fails, [registered]
    is what it was, so that after a failed initial registration the next
    call is a [PostFile] (create) again; it never clears the flag; and it
    sets the flag only when the flag was unset and the call it made, a
    [PostFile] marked "Initial registration", succeeded.  [refreshTargets],
    [GetTargets] and [Registered] leave the flag alone.  [Shutdown] clears
    it, and within a schedule of the reconciler only the two actions that
    call [Shutdown] can take the flag from true to false. *)
Theorem registered_only_rises (ctx : Context) (w : world G) :
  (exists r w',
     updateRegistration clock ctx w = Ret r w'
     /\ (r <> None -> registered (mgr w') = registered (mgr w))
     /\ (registered (mgr w) = true -> registered (mgr w') = true)
     /\ (registered (mgr w) = false ->
         registered (mgr w') = true ->
         r = None
         /\ remote_calls (trace w')
            = remote_calls (trace w)
              ++ [CPostFile (registration_file (name (mgr w))
                               (clock (tick w)) "Initial registration")])
     /\ (registered (mgr w) = false ->
         r <> None ->
         registration_call clock w'
         = CPostFile (registration_file (name (mgr w')) (clock (tick w'))
                        "Initial registration")))
  /\ (exists r w',
        refreshTargets clock ctx w = Ret r w'
        /\ registered (mgr w') = registered (mgr w))
  /\ GetTargets w = Ret (targets (mgr w)) w
  /\ Registered w = Ret (registered (mgr w)) w
  /\ (forall r w', Shutdown ctx w = Ret r w' -> registered (mgr w') = false)
  /\ (forall a (l l' : loop G),
        world_of l = w ->
        exec clock a l = Some l' ->
        registered (mgr w) = true ->
        registered (mgr (world_of l')) = false ->
        a = Select CaseCtxDone \/ a = OwnerShutdown).
Proof.
  split; [|split; [|split; [|split; [|split]]]].
  - destruct (updateRegistration_spec clock ctx w)
      as (w' & Hrun & Hreg & _ & _ & Hcalls & _).
    exists (snd (registration_answer clock ctx w)), w'.
    split; [exact Hrun|].
    unfold registration_call in Hcalls.
    unfold registration_call. rewrite Hreg.
    destruct (snd (registration_answer clock ctx w)) as [e|];
      destruct (registered (mgr w)); cbn [orb is_nil];
      repeat split; try congruence; auto.
  - destruct (refreshTargets_total clock ctx w) as (r & w' & Hrun & Hreg & _).
    exists r, w'. now split.
  - reflexivity.
  - reflexivity.
  - intros r w' Hrun.
    destruct (Nat.lt_ge_cases (done (mgr w)) done_cap) as [Hroom|Hfull].
    + rewrite (Shutdown_room ctx w Hroom) in Hrun. now injection Hrun as _ <-.
    + rewrite (Shutdown_full ctx w Hfull) in Hrun. discriminate.
  - intros a l l' <- Hexec Hreg Hcleared.
    destruct a as [[| | |]|tm| |]; auto;
      rewrite (exec_keeps_registered _ l l' Hexec) in Hcleared;
      discriminate || exact Hreg.
Qed.

End RegisteredFlag.

Lemma failed_operation_is_not_rearmed_witness :
  status_of loop_both_fired = Running
  /\ (exists l1,
        exec clock0 (Select CaseCheckTimer) loop_both_fired = Some l1
        /\ status_of l1 = Running
        /\ checkTimer l1 = Idle
        /\ forall acts l2,
             runs clock0 acts l1 = Some l2 ->
             checkTimer l2 = Idle /\ fetches_of l2 = fetches_of l1)
  /\ (exists l1,
        exec clock0 (Select CaseRegistrationTimer) loop_both_fired = Some l1
        /\ status_of l1 = Running
        /\ registrationTimer l1 = Idle
        /\ forall acts l2,
             runs clock0 acts l1 = Some l2 ->
             registrationTimer l2 = Idle
             /\ publishes_of l2 = publishes_of l1).
Proof.
  split; [reflexivity|].
  destruct (failed_operation_is_not_rearmed clock0 loop_both_fired eq_refl)
    as [Hcheck Hregistration].
  split.
  - eapply (Hcheck eq_refl "502 Bad Gateway"). cbv. reflexivity.
  - eapply (Hregistration eq_refl "502 Bad Gateway"). cbv. reflexivity.
Defined.

(** C7, as stated, fails: the owner has called [Shutdown] and its signal
    waits in [done], but the check timer has fired too; [select] may take
    the timer's clause, and the loop then fetches from the store and keeps
    running. *)
Lemma refresh_after_shutdown :
  exists l1 l2,
    runs clock0 [Fire CheckT; OwnerShutdown] loop_fresh = Some l1
    /\ done (mgr (world_of l1)) = 1%nat
    /\ exec clock0 (Select CaseCheckTimer) l1 = Some l2
    /\ status_of l2 = Running
    /\ calls_of l1 = []
    /\ calls_of l2 = [CFetchFiles].
Proof. do 2 eexists. repeat split; cbv; reflexivity. Qed.

Lemma done_signal_ends_loop_witness :
  status_of loop_signalled = Running
  /\ (0 < done (mgr (world_of loop_signalled)))%nat
  /\ (exists l1,
        exec clock0 (Select CaseDone) loop_signalled = Some l1
        /\ status_of l1 = Returned
        /\ calls_of l1 = calls_of loop_signalled
        /\ forall acts l2,
             runs clock0 acts l1 = Some l2 ->
             status_of l2 = Returned /\ calls_of l2 = calls_of loop_signalled)
  /\ (forall c l1,
        exec clock0 (Select c) loop_signalled = Some l1 -> c = CaseDone).
Proof.
  split; [reflexivity|]. split; [cbn; lia|].
  destruct (done_signal_ends_loop clock0 loop_signalled eq_refl)
    as [Hreturns Honly]; [cbn; lia|].
  split; [exact Hreturns|].
  apply Honly; [reflexivity | discriminate | discriminate].
Defined.

Lemma cancelled_loop_can_shut_down_twice_witness :
  status_of loop_cancelled = Running
  /\ closed (ctx loop_cancelled) = true
  /\ done (mgr (world_of loop_cancelled)) = 0%nat
  /\ exists l2,
       runs clock0 [Select CaseCtxDone; Select CaseCtxDone] loop_cancelled
       = Some l2
       /\ logged "Shutting down global gitlabTargetManager" l2
          = (2 + logged "Shutting down global gitlabTargetManager"
                   loop_cancelled)%nat
       /\ status_of l2 = Parked
       /\ forall acts l3,
            runs clock0 acts l2 = Some l3 -> status_of l3 = Parked.
Proof.
  split; [reflexivity|]. split; [reflexivity|]. split; [reflexivity|].
  apply (cancelled_loop_can_shut_down_twice clock0 loop_cancelled);
    reflexivity.
Defined.

(** The same on the concrete store: cancellation, then the clause of
    [ctx.Done()] twice. *)
Example shutdown_twice_run :
  exists l2,
    Reconcile clock0 [Cancel; Select CaseCtxDone; Select CaseCtxDone]
      ctx0 (world_with store_ab [])
    = Some l2
    /\ status_of l2 = Parked
    /\ logged "Shutting down global gitlabTargetManager" l2 = 2%nat
    /\ done (mgr (world_of l2)) = 1%nat.
Proof. eexists. repeat split; cbv; reflexivity. Qed.

(** And the schedule the code was written for: cancellation, the clause of
    [ctx.Done()] once, then the clause of [done]. *)
Example shutdown_once_run :
  exists l2,
    Reconcile clock0 [Cancel; Select CaseCtxDone; Select CaseDone]
      ctx0 (world_with store_ab [])
    = Some l2
    /\ status_of l2 = Returned
    /\ logged "Shutting down global gitlabTargetManager" l2 = 1%nat.
Proof. eexists. repeat split; cbv; reflexivity. Qed.

Section InterleavingProperties.

Import Interleaving.

Context {G : Type} `{Gitlab G}.
Variable clock : nat -> time.Time.
Variable ctx : Context.

Lemma In_update {A} (i : nat) (x : A) (xs : list A) (y : A) :
  In y (update i x xs) -> y = x \/ In y xs.
Proof.
  revert i. induction xs as [|z xs IH]; intros [|i]; cbn; try tauto.
  - intros [<-|Hin]; auto.
  - intros [<-|Hin]; auto. destruct (IH i Hin); auto.
Qed.

Lemma count_rlocks_update (i : nat) (g g' : getter) (gs : list getter) :
  nth_error gs i = Some g ->
  (count_rlocks (update i g' gs) + (if holds_rlock g then 1 else 0)
   = count_rlocks gs + (if holds_rlock g' then 1 else 0))%nat.
Proof.
  revert i. induction gs as [|g0 gs IH]; intros [|i]; cbn; try discriminate.
  - intros [= ->]. lia.
  - intros Hnth. specialize (IH i Hnth). lia.
Qed.

Lemma count_rlocks_zero (gs : list getter) :
  count_rlocks gs = 0%nat -> forall g, In g gs -> holds_rlock g = false.
Proof.
  induction gs as [|g0 gs IH]; cbn; [tauto|].
  intros Hzero g [<-|Hin].
  - destruct (holds_rlock g0); [discriminate | reflexivity].
  - apply IH; [|exact Hin].
    destruct (holds_rlock g0); [discriminate | exact Hzero].
Qed.

Lemma count_rlocks_repeat (n : nat) : count_rlocks (repeat AtRLock n) = 0%nat.
Proof. induction n; cbn; auto. Qed.

(** The shared peer list is always the old list or the new one. *)
Lemma memory_at_targets (w0 w : world G) (r : refresher) :
  memory_at clock ctx w0 r w ->
  targets (mgr w) = targets (mgr w0)
  \/ targets (mgr w) = post_refresh clock ctx w0.
Proof.
  destruct r as [| |rest h|[e|]|[e|]]; cbn [memory_at].
  - intros ->. now left.
  - intros ->. now left.
  - intros [Hold _]. now left.
  - now left.
  - now right.
  - now left.
  - now right.
Qed.

Lemma invariant_start (w : world G) (n : nat) : invariant clock ctx w (start w n).
Proof.
  split; cbn [start mu refresh getters memory unlocked writer readers
              holds_lock memory_at].
  - reflexivity.
  - now rewrite count_rlocks_repeat.
  - discriminate.
  - reflexivity.
  - intros g v Hin. apply repeat_spec in Hin as ->. discriminate.
Qed.

Lemma invariant_step_refresher (w0 : world G) (c c' : config G) :
  invariant clock ctx w0 c ->
  step_refresher clock ctx c = Some c' ->
  invariant clock ctx w0 c'.
Proof.
  intros [Hw Hr Hx Hm Hs]. unfold step_refresher.
  destruct (refresh c) as [| |[|t rest] h|err|err] eqn:Hat;
    cbn [holds_lock memory_at] in *.
  - unfold Lock. rewrite Hw.
    destruct (readers (mu c)) eqn:Hreaders; [|discriminate].
    intros [= <-]. split; cbn; auto; congruence.
  - unfold atomically, gitlab_FetchFiles, log. rewrite Hm.
    destruct (FetchFiles ctx (gitlab (mgr w0))) as [g' [fetched [e|]]] eqn:Hfetch;
      cbn [snd fst set_memory memory]; intros [= <-];
      split; cbn [set_refresh set_memory mu refresh getters memory holds_lock
                  memory_at with_mgr emit mgr set_gitlab targets tick
                  unhealthyThreshold app]; auto.
    split; [reflexivity|]. unfold post_refresh. now rewrite Hfetch.
  - unfold atomically, bind, write, log. intros [= <-].
    destruct Hm as [Hold Hnew]. cbn [survivors] in Hnew.
    rewrite app_nil_r in Hnew.
    split; cbn [set_refresh set_memory mu refresh getters memory holds_lock
                memory_at with_mgr emit mgr set_targets targets]; auto.
  - unfold atomically, time_Now, log.
    cbn [set_memory memory mgr tick].
    destruct Hm as [Hold Hnew]. cbn [survivors] in Hnew.
    destruct (time.After _ _); intros [= <-];
      split; cbn [set_refresh set_memory mu refresh getters memory holds_lock
                  memory_at emit mgr tick]; auto.
    split; [exact Hold|]. now rewrite <- app_assoc.
  - intros [= <-].
    split; cbn [set_refresh set_mu mu refresh getters memory holds_lock
                Unlock writer readers]; auto.
  - discriminate.
Qed.

Lemma invariant_step_getter (w0 : world G) (i : nat) (c c' : config G) :
  invariant clock ctx w0 c ->
  step_getter i c = Some c' ->
  invariant clock ctx w0 c'.
Proof.
  intros [Hw Hr Hx Hm Hs]. unfold step_getter.
  destruct (nth_error (getters c) i) as [[| |v|v]|] eqn:Hnth;
    try discriminate.
  - unfold RLock. destruct (writer (mu c)) eqn:Hwriter; [discriminate|].
    intros [= <-].
    pose proof (count_rlocks_update i AtRLock AtRead (getters c) Hnth)
      as Hcount.
    cbn [holds_rlock] in Hcount.
    split; cbn [set_getter set_mu mu refresh getters memory writer readers];
      auto.
    + lia.
    + discriminate.
    + intros g v Hin Hsnap. apply In_update in Hin as [->|Hin];
        [discriminate | eauto].
  - unfold atomically, GetTargets, read. intros [= <-].
    pose proof (count_rlocks_update i AtRead
                  (AtRUnlock (targets (mgr (memory c)))) (getters c) Hnth)
      as Hcount.
    cbn [holds_rlock] in Hcount.
    split; cbn [set_getter set_memory mu refresh getters memory]; auto.
    + lia.
    + intros g v Hin Hsnap. apply In_update in Hin as [->|Hin]; [|eauto].
      injection Hsnap as <-. exact (memory_at_targets w0 _ _ Hm).
  - intros [= <-].
    pose proof (count_rlocks_update i (AtRUnlock v) (Got v) (getters c) Hnth)
      as Hcount.
    cbn [holds_rlock] in Hcount.
    split; cbn [set_getter set_mu mu refresh getters memory RUnlock writer
                readers]; auto.
    + lia.
    + intros Hwriter. rewrite (Hx Hwriter). reflexivity.
    + intros g v' Hin Hsnap. apply In_update in Hin as [->|Hin]; [|eauto].
      injection Hsnap as <-.
      apply (Hs (AtRUnlock v) v); [|reflexivity].
      now apply nth_error_In in Hnth.
Qed.

Lemma invariant_run (w0 : world G) (sched : list turn) :
  forall c c' : config G,
    invariant clock ctx w0 c ->
    run clock ctx sched c = Some c' ->
    invariant clock ctx w0 c'.
Proof.
  induction sched as [|t sched IH]; intros c c' Hinv; cbn [run].
  - now intros [= <-].
  - destruct (step clock ctx t c) as [c1|] eqn:Hstep; [|discriminate].
    apply IH. destruct t; cbn [step] in Hstep.
    + exact (invariant_step_refresher w0 c c1 Hinv Hstep).
    + exact (invariant_step_getter w0 i c c1 Hinv Hstep).
Qed.

(** [post_refresh] is the peer list the sequential [refreshTargets]
    leaves. *)
Lemma post_refresh_refreshTargets (w : world G) :
  exists r w',
    refreshTargets clock ctx w = Ret r w'
    /\ targets (mgr w') = post_refresh clock ctx w.
Proof.
  unfold post_refresh.
  destruct (FetchFiles ctx (gitlab (mgr w))) as [g' [fetched [e|]]] eqn:Hfetch;
    cbn [snd fst].
  - eexists _, _. split.
    + apply (refreshTargets_failure clock ctx w g' fetched e Hfetch).
    + reflexivity.
  - destruct (refreshTargets_success clock ctx w g' fetched Hfetch)
      as (w' & Hrun & Hmgr & _).
    exists None, w'. split; [exact Hrun|]. now rewrite Hmgr.
Qed.

Lemma run_app (s1 s2 : list turn) :
  forall c : config G,
    run clock ctx (s1 ++ s2) c
    = match run clock ctx s1 c with
      | Some c1 => run clock ctx s2 c1
      | None => None
      end.
Proof.
  induction s1 as [|t s1 IH]; intros c; cbn [app run]; [reflexivity|].
  destruct (step clock ctx t c); [apply IH | reflexivity].
Qed.

(** The statements of the [range] loop, run without interruption, compute
    what [filter_unhealthy] computes. *)
Lemma range_alone (rest : list GlobalTarget) :
  forall (h : list GlobalTarget) (c : config G),
    refresh c = AtRange rest h ->
    exists c' h',
      run clock ctx (repeat Refresher (List.length rest)) c = Some c'
      /\ refresh c' = AtRange [] h'
      /\ filter_unhealthy clock (unhealthyThreshold (mgr (memory c))) rest h
           (memory c)
         = Ret h' (memory c')
      /\ mgr (memory c') = mgr (memory c)
      /\ mu c' = mu c
      /\ getters c' = getters c.
Proof.
  induction rest as [|t rest IH]; intros h c Hat.
  - exists c, h. cbn. repeat split; auto.
  - cbn [List.length repeat run step filter_unhealthy].
    unfold step_refresher. rewrite Hat.
    unfold atomically, bind at 1, time_Now, log.
    cbn [set_memory memory mgr tick].
    destruct (time.After _ _).
    + match goal with
      | |- context [run clock ctx _ ?c1] =>
          destruct (IH h c1 eq_refl)
            as (c' & h' & Hrun & Hat' & Hfilter & Hmgr & Hmu & Hget)
      end.
      exists c', h'. split; [exact Hrun|]. split; [exact Hat'|].
      cbn [set_refresh set_memory memory mgr emit mu getters] in *.
      unfold bind at 1, log. repeat split; assumption.
    + match goal with
      | |- context [run clock ctx _ ?c1] =>
          destruct (IH (h ++ [t]) c1 eq_refl)
            as (c' & h' & Hrun & Hat' & Hfilter & Hmgr & Hmu & Hget)
      end.
      exists c', h'. split; [exact Hrun|]. split; [exact Hat'|].
      cbn [set_refresh set_memory memory mgr emit mu getters] in *.
      repeat split; assumption.
Qed.

(** The statements of the refresher outside the loop. *)
Lemma step_lock (c : config G) :
  refresh c = AtLock ->
  mu c = unlocked ->
  step_refresher clock ctx c
  = Some (set_refresh AtFetch (set_mu {| writer := true; readers := 0 |} c)).
Proof.
  intros Hat Hmu. unfold step_refresher. now rewrite Hat, Hmu.
Qed.

Lemma step_fetch (c : config G) (g' : G) (fetched : list GlobalTarget)
    (err : option error) :
  refresh c = AtFetch ->
  FetchFiles ctx (gitlab (mgr (memory c))) = (g', (fetched, err)) ->
  step_refresher clock ctx c
  = let c' := set_memory
                (emit (Remote CFetchFiles)
                   (with_mgr (set_gitlab g') (memory c))) c in
    match err with
    | Some e =>
        Some (set_refresh (AtUnlock (Some e))
                (set_memory
                   (emit (Log Error "Failed to update global targets")
                      (memory c')) c'))
    | None => Some (set_refresh (AtRange fetched []) c')
    end.
Proof.
  intros Hat Hfetch. unfold step_refresher. rewrite Hat.
  unfold atomically at 1, gitlab_FetchFiles. rewrite Hfetch.
  destruct err; reflexivity.
Qed.

Lemma step_store (c : config G) (h : list GlobalTarget) :
  refresh c = AtRange [] h ->
  step_refresher clock ctx c
  = Some (set_refresh (AtUnlock None)
            (set_memory
               (emit (Log Debug "Updated global targets")
                  (with_mgr (set_targets h) (memory c))) c)).
Proof.
  intros Hat. unfold step_refresher. now rewrite Hat.
Qed.

Lemma step_unlock (c : config G) (err : option error) :
  refresh c = AtUnlock err ->
  step_refresher clock ctx c
  = Some (set_refresh (Refreshed err) (set_mu (Unlock (mu c)) c)).
Proof.
  intros Hat. unfold step_refresher. now rewrite Hat.
Qed.

Lemma run_cons (t : turn) (sched : list turn) (c : config G) :
  run clock ctx (t :: sched) c
  = match step clock ctx t c with
    | Some c' => run clock ctx sched c'
    | None => None
    end.
Proof. reflexivity. Qed.

(** The refresher, run alone to its end, is [refreshTargets]: same result,
    same memory, and the mutex is free again. *)
Lemma refresher_alone (w : world G) (n : nat) :
  exists k c r,
    run clock ctx (repeat Refresher k) (start w n) = Some c
    /\ refresh c = Refreshed r
    /\ refreshTargets clock ctx w = Ret r (memory c)
    /\ mu c = unlocked
    /\ getters c = repeat AtRLock n.
Proof.
  destruct (FetchFiles ctx (gitlab (mgr w))) as [g' [fetched [e|]]] eqn:Hfetch.
  - exists 3%nat. cbn [repeat].
    rewrite run_cons. cbn [step].
    rewrite (step_lock (start w n) eq_refl eq_refl).
    rewrite run_cons. cbn [step].
    erewrite step_fetch; [|reflexivity | exact Hfetch]. cbv beta iota zeta.
    rewrite run_cons. cbn [step].
    erewrite step_unlock; [|reflexivity].
    eexists _, _. split; [reflexivity|].
    rewrite (refreshTargets_failure clock ctx w g' fetched e Hfetch).
    repeat split; reflexivity.
  - exists (S (S (List.length fetched + 2))).
    cbn [repeat].
    rewrite run_cons. cbn [step].
    rewrite (step_lock (start w n) eq_refl eq_refl).
    rewrite run_cons. cbn [step].
    erewrite step_fetch; [|reflexivity | exact Hfetch]. cbv beta iota zeta.
    rewrite repeat_app, run_app.
    match goal with
    | |- context [run clock ctx (repeat Refresher (List.length fetched)) ?c1] =>
        destruct (range_alone fetched [] c1 eq_refl)
          as (c' & h' & Hrun & Hat' & Hfilter & Hmgr & Hmu & Hget)
    end.
    rewrite Hrun. cbn [repeat].
    rewrite run_cons. cbn [step].
    rewrite (step_store c' h' Hat'). cbv beta iota.
    rewrite run_cons. cbn [step].
    erewrite step_unlock; [|reflexivity].
    eexists _, _. split; [reflexivity|].
    cbn [refresh memory mu getters set_memory set_refresh set_mu start] in *.
    rewrite Hmu, Hget.
    repeat split; try reflexivity.
    unfold refreshTargets, bind at 1, gitlab_FetchFiles. rewrite Hfetch.
    cbn [snd fst]. unfold bind at 1, read at 1. unfold bind at 1.
    cbn [mgr with_mgr emit set_gitlab unhealthyThreshold] in *.
    rewrite Hfilter. reflexivity.
Qed.

(** C9.  Under every interleaving of a refresh with any number of
    [GetTargets] calls, every snapshot a reader has taken is the complete
    list from before the refresh or the complete list the refresh installs
    (the one the sequential [refreshTargets] leaves), and so is the shared
    list at every moment; while the refresher holds the lock no reader holds
    a read lock. *)
Theorem readers_see_old_or_new (w : world G) (n : nat)
    (sched : list turn) (c : config G) :
  run clock ctx sched (start w n) = Some c ->
  (forall g snapshot,
     In g (getters c) ->
     snapshot_of g = Some snapshot ->
     snapshot = targets (mgr w) \/ snapshot = post_refresh clock ctx w)
  /\ (targets (mgr (memory c)) = targets (mgr w)
      \/ targets (mgr (memory c)) = post_refresh clock ctx w)
  /\ (holds_lock (refresh c) = true ->
      forall g, In g (getters c) -> holds_rlock g = false)
  /\ (exists r w',
        refreshTargets clock ctx w = Ret r w'
        /\ targets (mgr w') = post_refresh clock ctx w).
Proof.
  intros Hrun.
  destruct (invariant_run w sched _ c (invariant_start w n) Hrun)
    as [Hw Hr Hx Hm Hs].
  split; [exact Hs|]. split; [exact (memory_at_targets w _ _ Hm)|]. split.
  - intros Hholds. apply count_rlocks_zero.
    rewrite <- Hr. apply Hx. congruence.
  - apply post_refresh_refreshTargets.
Qed.

End InterleavingProperties.

(** Two readers around a refresh: the first reads before the refresher
    takes the lock and gets the old list, the second reads after the unlock
    and gets the new one. *)
Example two_readers_run :
  exists c,
    Interleaving.run clock0 ctx0
      [Interleaving.Getter 0; Interleaving.Getter 0; Interleaving.Getter 0;
       Interleaving.Refresher; Interleaving.Refresher; Interleaving.Refresher;
       Interleaving.Refresher; Interleaving.Refresher; Interleaving.Refresher;
       Interleaving.Getter 1; Interleaving.Getter 1; Interleaving.Getter 1]
      (Interleaving.start (world_with store_ab [peer_c]) 2)
    = Some c
    /\ Interleaving.getters c
       = [Interleaving.Got [peer_c]; Interleaving.Got [peer_a]].
Proof. eexists. split; cbv; reflexivity. Qed.

(** A reader cannot take the read lock while the refresher holds the
    lock: it has no step. *)
Example reader_waits_for_refresh :
  Interleaving.run clock0 ctx0
    [Interleaving.Refresher; Interleaving.Refresher; Interleaving.Getter 0]
    (Interleaving.start (world_with store_ab [peer_c]) 1)
  = None.
Proof. reflexivity. Qed.

Lemma readers_see_old_or_new_witness :
  exists c,
    Interleaving.run clock0 ctx0
      [Interleaving.Getter 0; Interleaving.Getter 0; Interleaving.Getter 0;
       Interleaving.Refresher; Interleaving.Refresher]
      (Interleaving.start (world_with store_ab [peer_c]) 2)
    = Some c
    /\ (forall g snapshot,
          In g (Interleaving.getters c) ->
          Interleaving.snapshot_of g = Some snapshot ->
          snapshot = targets (mgr (world_with store_ab [peer_c]))
          \/ snapshot
             = Interleaving.post_refresh clock0 ctx0
                 (world_with store_ab [peer_c])).
Proof.
  destruct (Interleaving.run clock0 ctx0
              [Interleaving.Getter 0; Interleaving.Getter 0;
               Interleaving.Getter 0; Interleaving.Refresher;
               Interleaving.Refresher]
              (Interleaving.start (world_with store_ab [peer_c]) 2))
    as [c|] eqn:Hrun.
  - exists c. split; [reflexivity|].
    exact (proj1 (readers_see_old_or_new clock0 ctx0
                    (world_with store_ab [peer_c]) 2 _ c Hrun)).
  - cbv in Hrun. discriminate Hrun.
Defined.

(* ======================================================================== *)
(** * Further properties of the target manager *)

(* ------------------------------------------------------------------------ *)
(** ** More on the refresh *)

Lemma survivors_subsequence (clock : nat -> time.Time) (thr : time.Duration)
    (ts : list GlobalTarget) :
  forall k, subsequence (survivors clock thr k ts) ts.
Proof.
  induction ts as [|t ts IH]; intros k; cbn [survivors].
  - constructor.
  - destruct (time.After _ _); constructor; apply IH.
Qed.

(** No record seen before [lo - thr] survives readings that are all at
    least [lo]. *)
Lemma survivors_not_before (clock : nat -> time.Time) (thr : time.Duration)
    (lo : time.Time) (ts : list GlobalTarget) :
  time.min_int64 < thr <= time.max_int64 ->
  forall k,
    (forall i, (k <= i < k + List.length ts)%nat -> lo <= clock i) ->
    forall r, In r (survivors clock thr k ts) -> lo - thr <= LastSeen r.
Proof.
  intros Hthr. induction ts as [|t ts IH]; intros k Hclock r;
    cbn [survivors]; [intros []|].
  assert (Hk : lo <= clock k) by (apply Hclock; cbn [List.length]; lia).
  assert (Hrest : forall i, (S k <= i < S k + List.length ts)%nat ->
                            lo <= clock i).
  { intros i Hi. apply Hclock. cbn [List.length]. lia. }
  rewrite (After_Add_neg _ _ _ Hthr). unfold stale.
  destruct (Z.ltb_spec thr (clock k - LastSeen t)) as [Hstale|Hfresh].
  - apply (IH (S k) Hrest).
  - intros [<-|Hin]; [lia | apply (IH (S k) Hrest r Hin)].
Qed.

(** Every record seen at [hi - thr] or later survives readings that are all
    at most [hi]. *)
Lemma survivors_from (clock : nat -> time.Time) (thr : time.Duration)
    (hi : time.Time) (ts : list GlobalTarget) :
  time.min_int64 < thr <= time.max_int64 ->
  forall k,
    (forall i, (k <= i < k + List.length ts)%nat -> clock i <= hi) ->
    forall r, In r ts -> hi - thr <= LastSeen r ->
              In r (survivors clock thr k ts).
Proof.
  intros Hthr. induction ts as [|t ts IH]; intros k Hclock r;
    cbn [survivors In]; [tauto|].
  assert (Hk : clock k <= hi) by (apply Hclock; cbn [List.length]; lia).
  assert (Hrest : forall i, (S k <= i < S k + List.length ts)%nat ->
                            clock i <= hi).
  { intros i Hi. apply Hclock. cbn [List.length]. lia. }
  rewrite (After_Add_neg _ _ _ Hthr). unfold stale.
  intros [<-|Hin] Hfresh.
  - destruct (Z.ltb_spec thr (clock k - LastSeen t)); [lia | now left].
  - destruct (Z.ltb_spec thr (clock k - LastSeen t));
      [|right]; apply (IH (S k) Hrest r Hin Hfresh).
Qed.

Section MoreOnRefresh.

Context {G : Type} `{Gitlab G}.
Variable clock : nat -> time.Time.

(** A successful refresh, with everything it leaves behind. *)
Lemma refreshTargets_success_world (ctx : Context) (w : world G) (g' : G)
    (fetched : list GlobalTarget) :
  FetchFiles ctx (gitlab (mgr w)) = (g', (fetched, None)) ->
  exists w',
    refreshTargets clock ctx w = Ret None w'
    /\ mgr w' = set_targets
                  (survivors clock (unhealthyThreshold (mgr w)) (tick w)
                     fetched)
                  (set_gitlab g' (mgr w))
    /\ tick w' = (tick w + List.length fetched)%nat
    /\ remote_calls (trace w') = remote_calls (trace w) ++ [CFetchFiles].
Proof.
  intros Hfetch. unfold refreshTargets, bind at 1, gitlab_FetchFiles.
  rewrite Hfetch. cbn [snd fst].
  unfold bind at 1, read at 1.
  cbn [mgr with_mgr emit set_gitlab unhealthyThreshold].
  unfold bind at 1.
  destruct (filter_unhealthy_spec clock (unhealthyThreshold (mgr w)) fetched []
              (emit (Remote CFetchFiles) (with_mgr (set_gitlab g') w)))
    as (w1 & Hrun & Hmgr & Htick & Hcalls & _).
  rewrite Hrun. cbn [mgr tick trace emit with_mgr app] in *.
  eexists. split; [reflexivity|].
  cbn [mgr tick trace with_mgr emit]. rewrite Hmgr, Htick. repeat split.
  rewrite remote_calls_app, Hcalls, remote_calls_app. cbn.
  now rewrite app_nil_r.
Qed.

(** X1.  The code reads the clock once per record.  If all readings taken
    during a refresh lie between [lo] and [hi], every fetched record last
    seen before [lo - unhealthyThreshold] is dropped and every fetched
    record last seen at [hi - unhealthyThreshold] or later is kept; only in
    between does the outcome depend on when the record's turn came. *)
Theorem refresh_under_moving_clock (ctx : Context) (w : world G) (g' : G)
    (fetched : list GlobalTarget) (lo hi : time.Time) :
  time.min_int64 < unhealthyThreshold (mgr w) <= time.max_int64 ->
  FetchFiles ctx (gitlab (mgr w)) = (g', (fetched, None)) ->
  (forall i, (tick w <= i < tick w + List.length fetched)%nat ->
             lo <= clock i <= hi) ->
  exists w',
    refreshTargets clock ctx w = Ret None w'
    /\ (forall r, In r fetched ->
                  LastSeen r < lo - unhealthyThreshold (mgr w) ->
                  ~ In r (targets (mgr w')))
    /\ (forall r, In r fetched ->
                  hi - unhealthyThreshold (mgr w) <= LastSeen r ->
                  In r (targets (mgr w'))).
Proof.
  intros Hthr Hfetch Hclock.
  destruct (refreshTargets_success_world ctx w g' fetched Hfetch)
    as (w' & Hrun & Hmgr & _).
  exists w'. split; [exact Hrun|].
  rewrite Hmgr. cbn [targets set_targets]. split.
  - intros r _ Hold Hin.
    apply (survivors_not_before clock _ lo fetched Hthr (tick w)) in Hin.
    + lia.
    + intros i Hi. apply Hclock, Hi.
  - intros r Hin Hfresh.
    apply (survivors_from clock _ hi fetched Hthr (tick w)); auto.
    intros i Hi. apply Hclock, Hi.
Qed.

(** X2.  Whatever the clock and the threshold, [refreshTargets] returns
    the error [FetchFiles] returned; when that is [nil], the new peer list
    is the fetched list with some records left out: nothing is added,
    repeated, changed or reordered.  Otherwise the peer list is the old
    one. *)
Theorem refresh_selects_in_order (ctx : Context) (w : world G) :
  exists w',
    refreshTargets clock ctx w
    = Ret (snd (snd (FetchFiles ctx (gitlab (mgr w))))) w'
    /\ match snd (snd (FetchFiles ctx (gitlab (mgr w)))) with
       | None =>
           subsequence (targets (mgr w'))
             (fst (snd (FetchFiles ctx (gitlab (mgr w)))))
       | Some _ => targets (mgr w') = targets (mgr w)
       end.
Proof.
  destruct (FetchFiles ctx (gitlab (mgr w))) as [g' [fetched [e|]]] eqn:Hfetch;
    cbn [snd fst].
  - eexists. split.
    + apply (refreshTargets_failure clock ctx w g' fetched e Hfetch).
    + reflexivity.
  - destruct (refreshTargets_success_world ctx w g' fetched Hfetch)
      as (w' & Hrun & Hmgr & _).
    exists w'. split; [exact Hrun|].
    rewrite Hmgr. cbn [targets set_targets]. apply survivors_subsequence.
Qed.

(** X3.  [refreshTargets] always returns, having called the store exactly
    once, with [FetchFiles]: it never publishes.  It leaves [registered],
    the [done] channel, the name and the three durations alone, and it
    reads the clock once per fetched record on success and not at all on
    failure. *)
Theorem refresh_footprint (ctx : Context) (w : world G) :
  exists r w',
    refreshTargets clock ctx w = Ret r w'
    /\ remote_calls (trace w') = remote_calls (trace w) ++ [CFetchFiles]
    /\ registered (mgr w') = registered (mgr w)
    /\ done (mgr w') = done (mgr w)
    /\ name (mgr w') = name (mgr w)
    /\ checkInterval (mgr w') = checkInterval (mgr w)
    /\ unhealthyThreshold (mgr w') = unhealthyThreshold (mgr w)
    /\ registrationInterval (mgr w') = registrationInterval (mgr w)
    /\ tick w'
       = match r with
         | None =>
             (tick w
              + List.length (fst (snd (FetchFiles ctx (gitlab (mgr w))))))%nat
         | Some _ => tick w
         end.
Proof.
  destruct (FetchFiles ctx (gitlab (mgr w))) as [g' [fetched [e|]]] eqn:Hfetch;
    cbn [snd fst].
  - exists (Some e). eexists. split.
    + apply (refreshTargets_failure clock ctx w g' fetched e Hfetch).
    + cbn [mgr trace tick emit with_mgr set_gitlab registered done name
           checkInterval unhealthyThreshold registrationInterval].
      rewrite !remote_calls_app. cbn. rewrite app_nil_r.
      repeat split; reflexivity.
  - destruct (refreshTargets_success_world ctx w g' fetched Hfetch)
      as (w' & Hrun & Hmgr & Htick & Hcalls).
    exists None, w'. rewrite Hmgr. repeat split; assumption.
Qed.

(** X4.  A listing that succeeds with no record at all empties the peer
    list, whatever was cached, and reads no clock: only a failed listing
    keeps the cache. *)
Theorem refresh_of_empty_store_clears_cache (ctx : Context) (w : world G)
    (g' : G) :
  FetchFiles ctx (gitlab (mgr w)) = (g', ([], None)) ->
  exists w',
    refreshTargets clock ctx w = Ret None w'
    /\ targets (mgr w') = []
    /\ GetTargets w' = Ret [] w'
    /\ tick w' = tick w.
Proof.
  intros Hfetch.
  destruct (refreshTargets_success_world ctx w g' [] Hfetch)
    as (w' & Hrun & Hmgr & Htick & _).
  exists w'. split; [exact Hrun|].
  assert (Htargets : targets (mgr w') = []) by now rewrite Hmgr.
  split; [exact Htargets|]. split.
  - unfold GetTargets, read. now rewrite Htargets.
  - cbn [List.length] in Htick. lia.
Qed.


End MoreOnRefresh.

Lemma refresh_under_moving_clock_witness :
  time.min_int64 < threshold0 <= time.max_int64
  /\ exists w',
       refreshTargets (fun k => now0 + Z.of_nat k) ctx0
         (world_with store_ab [peer_c])
       = Ret None w'
       /\ (forall r, In r [peer_a; peer_b] ->
                     LastSeen r < now0 - threshold0 ->
                     ~ In r (targets (mgr w')))
       /\ (forall r, In r [peer_a; peer_b] ->
                     now0 + 1 - threshold0 <= LastSeen r ->
                     In r (targets (mgr w'))).
Proof.
  split; [vm_compute; split; [reflexivity | discriminate]|].
  apply (refresh_under_moving_clock (fun k => now0 + Z.of_nat k) ctx0
           (world_with store_ab [peer_c]) store_ok [peer_a; peer_b]
           now0 (now0 + 1)).
  - vm_compute; split; [reflexivity | discriminate].
  - reflexivity.
  - cbn [tick world_with List.length]. intros i Hi. lia.
Defined.

Lemma refresh_of_empty_store_clears_cache_witness :
  FetchFiles ctx0 (gitlab (mgr (world_with store_ok [peer_a; peer_b])))
  = (store_ok, ([], None))
  /\ exists w',
       refreshTargets clock0 ctx0 (world_with store_ok [peer_a; peer_b])
       = Ret None w'
       /\ targets (mgr w') = []
       /\ GetTargets w' = Ret [] w'
       /\ tick w' = tick (world_with store_ok [peer_a; peer_b]).
Proof.
  split; [reflexivity|].
  apply (refresh_of_empty_store_clears_cache clock0 ctx0
           (world_with store_ok [peer_a; peer_b]) store_ok).
  reflexivity.
Defined.


(* ------------------------------------------------------------------------ *)
(** ** More on registration and shutdown *)

Section MoreOnRegistration.

Context {G : Type} `{Gitlab G}.
Variable clock : nat -> time.Time.

(** X6.  [updateRegistration] always returns what the client answered to
    the one remote call it makes: a [PutFile] marked "Updated registration"
    when [registered], a [PostFile] marked "Initial registration"
    otherwise, never a [FetchFiles].  The file is on branch "main", authored
    by the manager's name at "<name>@sparrow", and its content is the
    target "https://<name>" last seen at the one clock reading taken.  The
    peer list and the [done] channel are left alone. *)
Theorem registration_publishes_once (ctx : Context) (w : world G) :
  exists r w' f,
    updateRegistration clock ctx w = Ret r w'
    /\ remote_calls (trace w')
       = remote_calls (trace w)
         ++ [if registered (mgr w) then CPutFile f else CPostFile f]
    /\ (r, gitlab (mgr w'))
       = (if registered (mgr w)
          then (snd (PutFile ctx f (gitlab (mgr w))),
                fst (PutFile ctx f (gitlab (mgr w))))
          else (snd (PostFile ctx f (gitlab (mgr w))),
                fst (PostFile ctx f (gitlab (mgr w)))))
    /\ Branch f = "main"
    /\ AuthorName f = name (mgr w)
    /\ AuthorEmail f = (name (mgr w) ++ "@sparrow")%string
    /\ Content f = {| Url := ("https://" ++ name (mgr w))%string;
                      LastSeen := clock (tick w) |}
    /\ CommitMessage f
       = (if registered (mgr w)
          then "Updated registration" else "Initial registration")
    /\ tick w' = S (tick w)
    /\ targets (mgr w') = targets (mgr w)
    /\ done (mgr w') = done (mgr w).
Proof.
  unfold updateRegistration.
  unfold bind, log, time_Now, Registered, read, gitlab_PutFile,
    gitlab_PostFile, write, ret, with_CommitMessage.
  cbn [mgr tick trace emit with_mgr Branch AuthorEmail AuthorName Content
       CommitMessage].
  destruct (registered (mgr w)) eqn:Hreg.
  - match goal with
    | |- context [PutFile ctx ?file ?g] =>
        change g with (gitlab (mgr w));
        destruct (PutFile ctx file (gitlab (mgr w))) as [g' [e|]] eqn:Hput;
        [exists (Some e) | exists None]; eexists; exists file
    end;
      (split; [reflexivity|]);
      cbn [mgr trace tick emit with_mgr set_gitlab gitlab targets done
           Branch AuthorEmail AuthorName Content CommitMessage fst snd];
      rewrite !remote_calls_app; cbn [remote_calls app];
      rewrite ?app_nil_r, ?Hput, ?Hpost; repeat split; reflexivity.
  - match goal with
    | |- context [PostFile ctx ?file ?g] =>
        change g with (gitlab (mgr w));
        destruct (PostFile ctx file (gitlab (mgr w))) as [g' [e|]] eqn:Hpost;
        [exists (Some e) | exists None]; eexists; exists file
    end;
      (split; [reflexivity|]);
      cbn [mgr trace tick emit with_mgr set_gitlab set_registered gitlab
           targets done Branch AuthorEmail AuthorName Content CommitMessage
           fst snd];
      rewrite !remote_calls_app; cbn [remote_calls app];
      rewrite ?app_nil_r, ?Hput, ?Hpost; repeat split; reflexivity.
Qed.

(** X7.  [Shutdown] never calls the store: whether it returns or parks, the
    remote-store calls, the client and the peer list are what they were,
    and [registered] is false.  The registration published earlier is not
    deleted. *)
Theorem Shutdown_makes_no_remote_call (ctx : Context) (w : world G) :
  exists w',
    (Shutdown ctx w = Ret None w' \/ Shutdown ctx w = Park w')
    /\ remote_calls (trace w') = remote_calls (trace w)
    /\ gitlab (mgr w') = gitlab (mgr w)
    /\ targets (mgr w') = targets (mgr w)
    /\ registered (mgr w') = false.
Proof.
  destruct (Nat.lt_ge_cases (done (mgr w)) done_cap) as [Hroom|Hfull].
  - eexists. split; [left; apply (Shutdown_room ctx w Hroom)|].
    cbn [mgr trace with_mgr emit set_done set_registered gitlab targets
         registered].
    rewrite remote_calls_app. cbn. rewrite app_nil_r.
    repeat split; reflexivity.
  - eexists. split; [right; apply (Shutdown_full ctx w Hfull)|].
    cbn [mgr trace with_mgr emit set_registered gitlab targets registered].
    rewrite remote_calls_app. cbn. rewrite app_nil_r.
    repeat split; reflexivity.
Qed.

(** X8.  After a [Shutdown] that returned, the manager has forgotten that
    it was registered: the next [updateRegistration] publishes with
    [PostFile], marked "Initial registration", also when the manager had
    registered before; and when that call succeeds [registered] is true
    again. *)
Theorem registration_after_Shutdown_is_a_create (ctx : Context)
    (w : world G) :
  done (mgr w) = 0%nat ->
  exists w1 r w2,
    Shutdown ctx w = Ret None w1
    /\ updateRegistration clock ctx w1 = Ret r w2
    /\ remote_calls (trace w2)
       = remote_calls (trace w)
         ++ [CPostFile (registration_file (name (mgr w)) (clock (tick w))
                          "Initial registration")]
    /\ registered (mgr w2) = is_nil r.
Proof.
  intros Hempty.
  assert (Hroom : (done (mgr w) < done_cap)%nat)
    by (rewrite Hempty; unfold done_cap; lia).
  pose proof (Shutdown_room ctx w Hroom) as Hshut.
  remember (with_mgr (set_done (S (done (mgr w))))
              (with_mgr (set_registered false)
                 (emit (Log Debug "Shutting down global gitlabTargetManager")
                    w))) as w1 eqn:Hw1.
  destruct (updateRegistration_spec clock ctx w1)
    as (w2 & Hrun & Hreg & _ & _ & Hcalls & _).
  exists w1, (snd (registration_answer clock ctx w1)), w2.
  split; [exact Hshut|]. split; [exact Hrun|].
  unfold registration_call in Hcalls.
  assert (Hunreg : registered (mgr w1) = false) by now subst w1.
  rewrite Hunreg in Hcalls, Hreg. cbn [orb] in Hreg.
  split; [|exact Hreg].
  rewrite Hcalls. subst w1.
  cbn [mgr tick trace with_mgr emit set_done set_registered name].
  rewrite remote_calls_app. cbn [remote_calls app].
  now rewrite app_nil_r.
Qed.

(** X9.  [Shutdown] is good for one call.  With [done] empty, the first
    call returns [nil] and leaves one signal in the channel; a second call
    before anyone has received finds the channel full and parks on the
    send, [registered] being false. *)
Theorem second_Shutdown_parks (ctx ctx' : Context) (w : world G) :
  done (mgr w) = 0%nat ->
  exists w1 w2,
    Shutdown ctx w = Ret None w1
    /\ done (mgr w1) = 1%nat
    /\ Shutdown ctx' w1 = Park w2
    /\ done (mgr w2) = 1%nat
    /\ registered (mgr w2) = false.
Proof.
  intros Hempty.
  assert (Hroom : (done (mgr w) < done_cap)%nat)
    by (rewrite Hempty; unfold done_cap; lia).
  eexists _, _. split; [apply (Shutdown_room ctx w Hroom)|].
  cbn [mgr with_mgr set_done done]. rewrite Hempty.
  split; [reflexivity|]. split.
  - apply Shutdown_full. cbn [mgr with_mgr set_done done]. unfold done_cap. lia.
  - split; reflexivity.
Qed.

(** X10.  A manager from [NewGitlabManager] has an empty peer list, is not
    registered, and holds the name and the three durations it was given;
    its first [updateRegistration] is a create ([PostFile]), and its first
    [Shutdown] returns. *)
Theorem fresh_manager (ctx : Context) (g : G) (n : string)
    (checkI thr regI : time.Duration) (k : nat) (tr : list event) :
  exists w1 r w2,
    GetTargets {| mgr := NewGitlabManager g n checkI thr regI;
                  tick := k; trace := tr |}
    = Ret [] {| mgr := NewGitlabManager g n checkI thr regI;
                tick := k; trace := tr |}
    /\ Registered {| mgr := NewGitlabManager g n checkI thr regI;
                     tick := k; trace := tr |}
       = Ret false {| mgr := NewGitlabManager g n checkI thr regI;
                      tick := k; trace := tr |}
    /\ (name (NewGitlabManager g n checkI thr regI),
        checkInterval (NewGitlabManager g n checkI thr regI),
        unhealthyThreshold (NewGitlabManager g n checkI thr regI),
        registrationInterval (NewGitlabManager g n checkI thr regI))
       = (n, checkI, thr, regI)
    /\ Shutdown ctx {| mgr := NewGitlabManager g n checkI thr regI;
                       tick := k; trace := tr |}
       = Ret None w1
    /\ updateRegistration clock ctx
         {| mgr := NewGitlabManager g n checkI thr regI;
            tick := k; trace := tr |}
       = Ret r w2
    /\ remote_calls (trace w2)
       = remote_calls tr
         ++ [CPostFile (registration_file n (clock k) "Initial registration")].
Proof.
  set (w := {| mgr := NewGitlabManager g n checkI thr regI;
               tick := k; trace := tr |}).
  assert (Hroom : (done (mgr w) < done_cap)%nat) by (cbn; unfold done_cap; lia).
  destruct (updateRegistration_spec clock ctx w)
    as (w2 & Hrun & _ & _ & _ & Hcalls & _).
  eexists _, _, w2.
  split; [reflexivity|]. split; [reflexivity|]. split; [reflexivity|].
  split; [apply (Shutdown_room ctx w Hroom)|]. split; [exact Hrun|].
  exact Hcalls.
Qed.

End MoreOnRegistration.

Lemma registration_after_Shutdown_is_a_create_witness :
  done (mgr (with_mgr (set_registered true) (world_with store_ok [])))
  = 0%nat
  /\ exists w1 r w2,
       Shutdown ctx0 (with_mgr (set_registered true) (world_with store_ok []))
       = Ret None w1
       /\ updateRegistration clock0 ctx0 w1 = Ret r w2
       /\ remote_calls (trace w2)
          = remote_calls
              (trace (with_mgr (set_registered true)
                        (world_with store_ok [])))
            ++ [CPostFile
                  (registration_file
                     (name (mgr (with_mgr (set_registered true)
                                   (world_with store_ok []))))
                     (clock0 (tick (with_mgr (set_registered true)
                                      (world_with store_ok []))))
                     "Initial registration")]
       /\ registered (mgr w2) = is_nil r.
Proof.
  split; [reflexivity|].
  apply (registration_after_Shutdown_is_a_create clock0 ctx0
           (with_mgr (set_registered true) (world_with store_ok []))).
  reflexivity.
Defined.

Lemma second_Shutdown_parks_witness :
  done (mgr (world_with store_ok [])) = 0%nat
  /\ exists w1 w2,
       Shutdown ctx0 (world_with store_ok []) = Ret None w1
       /\ done (mgr w1) = 1%nat
       /\ Shutdown {| closed := true |} w1 = Park w2
       /\ done (mgr w2) = 1%nat
       /\ registered (mgr w2) = false.
Proof.
  split; [reflexivity|].
  apply (second_Shutdown_parks ctx0 {| closed := true |}
           (world_with store_ok [])).
  reflexivity.
Defined.

(* ------------------------------------------------------------------------ *)
(** ** More on the [Reconcile] loop *)

Section MoreOnTheLoop.

Context {G : Type} `{Gitlab G}.
Variable clock : nat -> time.Time.

Lemma exec_select (c : select_case) (l l' : loop G) :
  exec clock (Select c) l = Some l' ->
  status_of l = Running
  /\ ready c l = true
  /\ l' = Reconcile_iteration clock c l.
Proof.
  cbn [exec]. destruct (status_of l); try discriminate.
  destruct (ready c l); [|discriminate]. intros [= <-]. now repeat split.
Qed.

(** What serving a tick of the check timer leaves alone. *)
Lemma check_iteration_frame (l l' : loop G) :
  exec clock (Select CaseCheckTimer) l = Some l' ->
  ctx l' = ctx l
  /\ done (mgr (world_of l')) = done (mgr (world_of l))
  /\ registered (mgr (world_of l')) = registered (mgr (world_of l)).
Proof.
  intros Hexec. destruct (exec_select _ _ _ Hexec) as (_ & _ & ->).
  destruct (iteration_check clock l) as (r & w' & Hrun & ->).
  destruct (refreshTargets_total clock (ctx l) (world_of l))
    as (r0 & w0 & Hrun0 & Hreg & Hdone & _).
  rewrite Hrun in Hrun0. injection Hrun0 as <- <-.
  destruct r; cbn; auto.
Qed.

(** What serving a tick of the registration timer leaves alone. *)
Lemma registration_iteration_frame (l l' : loop G) :
  exec clock (Select CaseRegistrationTimer) l = Some l' ->
  ctx l' = ctx l
  /\ done (mgr (world_of l')) = done (mgr (world_of l))
  /\ targets (mgr (world_of l')) = targets (mgr (world_of l)).
Proof.
  intros Hexec. destruct (exec_select _ _ _ Hexec) as (_ & _ & ->).
  destruct (iteration_registration clock l) as (r & w' & Hrun & ->).
  destruct (updateRegistration_spec clock (ctx l) (world_of l))
    as (w0 & Hrun0 & _ & Hdone & Htargets & _).
  rewrite Hrun in Hrun0. injection Hrun0 as _ <-.
  destruct r; cbn; auto.
Qed.

(** X11.  When the operation a timer triggers succeeds, the handler reaches
    [Reset]: the loop keeps running with that timer armed again, so the
    timer can fire again and the operation recurs. *)
Theorem successful_operation_rearms (l : loop G) :
  status_of l = Running ->
  (checkTimer l = Fired ->
   forall w',
     refreshTargets clock (ctx l) (world_of l) = Ret None w' ->
     exists l1,
       exec clock (Select CaseCheckTimer) l = Some l1
       /\ world_of l1 = w'
       /\ status_of l1 = Running
       /\ checkTimer l1 = Armed
       /\ exec clock (Fire CheckT) l1 = Some (set_checkTimer Fired l1))
  /\ (registrationTimer l = Fired ->
      forall w',
        updateRegistration clock (ctx l) (world_of l) = Ret None w' ->
        exists l1,
          exec clock (Select CaseRegistrationTimer) l = Some l1
          /\ world_of l1 = w'
          /\ status_of l1 = Running
          /\ registrationTimer l1 = Armed
          /\ exec clock (Fire RegistrationT) l1
             = Some (set_registrationTimer Fired l1)).
Proof.
  intros Hrun. split.
  - intros Hfired w' Hok.
    cbn [exec ready]. rewrite Hrun, Hfired. cbn [is_fired].
    eexists. split; [reflexivity|].
    destruct (iteration_check clock l) as (r & w1 & Hr & ->).
    rewrite Hok in Hr. injection Hr as <- <-.
    cbn [set_checkTimer set_world world_of status_of checkTimer get_timer
         set_timer].
    repeat split; auto.
  - intros Hfired w' Hok.
    cbn [exec ready]. rewrite Hrun, Hfired. cbn [is_fired].
    eexists. split; [reflexivity|].
    destruct (iteration_registration clock l) as (r & w1 & Hr & ->).
    rewrite Hok in Hr. injection Hr as <- <-.
    cbn [set_registrationTimer set_world world_of status_of registrationTimer
         get_timer set_timer].
    repeat split; auto.
Qed.

(** X12.  The two triggers do not interfere.  Serving a tick of the check
    timer, whether the refresh fails or not, leaves the registration timer,
    [registered], the context and the [done] channel as they were; serving
    a tick of the registration timer leaves the check timer, the peer list,
    the context and the [done] channel as they were. *)
Theorem triggers_are_independent (l l' : loop G) :
  (exec clock (Select CaseCheckTimer) l = Some l' ->
   registrationTimer l' = registrationTimer l
   /\ registered (mgr (world_of l')) = registered (mgr (world_of l))
   /\ ctx l' = ctx l
   /\ done (mgr (world_of l')) = done (mgr (world_of l)))
  /\ (exec clock (Select CaseRegistrationTimer) l = Some l' ->
      checkTimer l' = checkTimer l
      /\ targets (mgr (world_of l')) = targets (mgr (world_of l))
      /\ ctx l' = ctx l
      /\ done (mgr (world_of l')) = done (mgr (world_of l))).
Proof.
  split; intros Hexec.
  - destruct (check_iteration_frame l l' Hexec) as (Hctx & Hdone & Hreg).
    destruct (exec_effect clock _ _ _ Hexec) as (_ & _ & _ & _ & Htimer & _).
    repeat split; assumption.
  - destruct (registration_iteration_frame l l' Hexec)
      as (Hctx & Hdone & Htargets).
    destruct (exec_effect clock _ _ _ Hexec) as (_ & _ & _ & _ & Htimer & _).
    repeat split; assumption.
Qed.

(** X13.  A running loop leaves [Running] in two ways only: it returns, and
    then the action was an iteration on the [done] clause; or it parks, and
    then the action was an iteration on the clause of [ctx.Done()] with the
    context cancelled and the [done] channel full.  No timer clause and no
    failure of the store ends the loop. *)
Theorem loop_ends_only_by_done_or_in_Shutdown (a : action) (l l' : loop G) :
  status_of l = Running ->
  exec clock a l = Some l' ->
  (status_of l' = Returned -> a = Select CaseDone)
  /\ (status_of l' = Parked ->
      a = Select CaseCtxDone
      /\ closed (ctx l) = true
      /\ (done_cap <= done (mgr (world_of l)))%nat).
Proof.
  intros Hrun Hexec.
  pose proof (exec_effect clock a l l' Hexec) as [_ Heff].
  destruct a as [[| | |]|[|]| |].
  - split; [destruct Heff as (_ & [Hst|Hst] & _); congruence|].
    intros Hparked. split; [reflexivity|].
    cbn [exec ready] in Hexec. rewrite Hrun in Hexec.
    destruct (closed (ctx l)) eqn:Hclosed; [|discriminate].
    injection Hexec as <-.
    rewrite (iteration_ctx_done clock l Hclosed) in Hparked. cbv zeta in Hparked.
    destruct (Nat.ltb_spec (done (mgr (world_of l))) done_cap) as [Hroom|Hfull].
    + cbn in Hparked. congruence.
    + now split.
  - split; [reflexivity|]. destruct Heff as (_ & Hst & _). congruence.
  - destruct Heff as (_ & Hst & _). split; congruence.
  - destruct Heff as (_ & Hst & _). split; congruence.
  - destruct Heff as (Hst & _). split; congruence.
  - destruct Heff as (Hst & _). split; congruence.
  - destruct Heff as (Hst & _). split; congruence.
  - destruct Heff as (Hst & _). split; congruence.
Qed.

Lemma exec_undisturbed (a : action) (l l' : loop G) :
  asks_to_stop a = false ->
  exec clock a l = Some l' ->
  undisturbed l ->
  undisturbed l'.
Proof.
  intros Hquiet Hexec (Hrun & Hopen & Hempty). unfold undisturbed.
  destruct a as [[| | |]|[|]| |]; try discriminate Hquiet.
  - cbn [exec ready] in Hexec. rewrite Hrun, Hopen in Hexec. discriminate.
  - cbn [exec ready] in Hexec. rewrite Hrun, Hempty in Hexec. discriminate.
  - destruct (check_iteration_frame l l' Hexec) as (Hctx & Hdone & _).
    destruct (exec_effect clock _ _ _ Hexec) as (_ & _ & Hst & _).
    repeat split; congruence.
  - destruct (registration_iteration_frame l l' Hexec) as (Hctx & Hdone & _).
    destruct (exec_effect clock _ _ _ Hexec) as (_ & _ & Hst & _).
    repeat split; congruence.
  - cbn [exec get_timer set_timer] in Hexec.
    destruct (checkTimer l); try discriminate. injection Hexec as <-.
    now cbn.
  - cbn [exec get_timer set_timer] in Hexec.
    destruct (registrationTimer l); try discriminate. injection Hexec as <-.
    now cbn.
Qed.

(** X14.  [Reconcile] does not stop on its own.  Started with a context
    that is not cancelled and an empty [done] channel, it is still running
    after every schedule in which the context is not cancelled and nobody
    calls [Shutdown], whatever the store answers. *)
Theorem loop_runs_until_asked_to_stop (c : Context) (w : world G)
    (sched : list action) (l' : loop G) :
  closed c = false ->
  done (mgr w) = 0%nat ->
  forallb (fun a => negb (asks_to_stop a)) sched = true ->
  Reconcile clock sched c w = Some l' ->
  status_of l' = Running.
Proof.
  intros Hopen Hempty Hquiet Hrun.
  assert (Hgen : forall acts l,
             forallb (fun a => negb (asks_to_stop a)) acts = true ->
             undisturbed l ->
             runs clock acts l = Some l' ->
             undisturbed l').
  { induction acts as [|a acts IH]; intros l Hq Hund; cbn [runs].
    - now intros [= <-].
    - cbn [forallb] in Hq. apply andb_prop in Hq as [Ha Hq].
      apply negb_true_iff in Ha.
      destruct (exec clock a l) as [l1|] eqn:Hexec; [|discriminate].
      apply (IH l1 Hq), (exec_undisturbed a l l1 Ha Hexec Hund). }
  apply (Hgen sched (Reconcile_enter c w) Hquiet); [|exact Hrun].
  repeat split; assumption.
Qed.

(** X15.  The shutdown the code was written for.  With the context
    cancelled and [done] empty, an iteration on the clause of [ctx.Done()]
    followed by one on the [done] clause ends [Reconcile]: [Shutdown] was
    called once, [registered] is false, the signal has been received, and
    the store was not called. *)
Theorem cancellation_then_done_returns (l : loop G) :
  status_of l = Running ->
  closed (ctx l) = true ->
  done (mgr (world_of l)) = 0%nat ->
  exists l2,
    runs clock [Select CaseCtxDone; Select CaseDone] l = Some l2
    /\ status_of l2 = Returned
    /\ registered (mgr (world_of l2)) = false
    /\ done (mgr (world_of l2)) = 0%nat
    /\ logged "Shutting down global gitlabTargetManager" l2
       = S (logged "Shutting down global gitlabTargetManager" l)
    /\ calls_of l2 = calls_of l.
Proof.
  intros Hrun Hclosed Hempty.
  cbn [runs exec ready]. rewrite Hrun, Hclosed.
  rewrite (iteration_ctx_done clock l Hclosed). rewrite Hempty.
  cbn [Nat.ltb Nat.leb done_cap]. cbv zeta.
  cbn [set_world status_of world_of with_mgr mgr set_done done Nat.ltb
       Nat.leb].
  rewrite Hrun. rewrite iteration_done.
  eexists. split; [reflexivity|].
  unfold logged, calls_of.
  cbn [Reconcile_return logl set_world set_status set_checkTimer
       set_registrationTimer world_of status_of with_mgr emit mgr trace
       set_done set_registered registered done pred].
  rewrite !remote_calls_app, !count_log_app. cbn.
  rewrite ?app_nil_r. repeat split; lia.
Qed.

(** How many iterations of a schedule serve a timer tick. *)
Lemma runs_calls_length (acts : list action) :
  forall l l' : loop G,
    runs clock acts l = Some l' ->
    List.length (calls_of l')
    = (List.length (calls_of l) + List.length (filter serves_tick acts))%nat.
Proof.
  induction acts as [|a acts IH]; intros l l' Hruns; cbn [runs] in Hruns.
  - injection Hruns as <-. cbn. lia.
  - destruct (exec clock a l) as [l1|] eqn:Hexec; [|discriminate].
    rewrite (IH l1 l' Hruns).
    apply exec_effect in Hexec as [_ Heff].
    destruct a as [[| | |]|[|]| |]; cbn [filter serves_tick List.length].
    + destruct Heff as (_ & _ & _ & _ & ->). lia.
    + destruct Heff as (_ & _ & _ & _ & ->). lia.
    + destruct Heff as (_ & _ & _ & _ & ->).
      rewrite length_app. cbn. lia.
    + destruct Heff as (_ & _ & _ & _ & ->).
      rewrite length_app. cbn. lia.
    + destruct Heff as (_ & _ & _ & _ & ->). lia.
    + destruct Heff as (_ & _ & _ & _ & ->). lia.
    + destruct Heff as (_ & _ & _ & ->). lia.
    + destruct Heff as (_ & _ & _ & ->). lia.
Qed.

(** X16.  [Reconcile] calls the store only to serve a timer tick, once per
    tick: along every schedule the number of remote-store calls made is the
    number of iterations on a timer clause.  A served check tick is one
    [FetchFiles], a served registration tick one publishing call; the
    clauses of [ctx.Done()] and [done], and whatever happens outside the
    loop, add none. *)
Theorem store_is_called_once_per_tick (sched : list action) (c : Context)
    (w : world G) (l' : loop G) :
  Reconcile clock sched c w = Some l' ->
  List.length (calls_of l')
  = (List.length (remote_calls (trace w))
     + List.length (filter serves_tick sched))%nat
  /\ forall a l1 l2,
       exec clock a l1 = Some l2 ->
       calls_of l2
       = calls_of l1
         ++ match a with
            | Select CaseCheckTimer => [CFetchFiles]
            | Select CaseRegistrationTimer =>
                [registration_call clock (world_of l1)]
            | _ => []
            end.
Proof.
  intros Hrun. split.
  - unfold Reconcile in Hrun. rewrite (runs_calls_length sched _ l' Hrun).
    unfold calls_of, Reconcile_enter. cbn [world_of emit trace].
    rewrite remote_calls_app. cbn. now rewrite app_nil_r.
  - intros a l1 l2 Hexec. apply exec_effect in Hexec as [_ Heff].
    destruct a as [[| | |]|[|]| |]; rewrite ?app_nil_r.
    + now destruct Heff as (_ & _ & _ & _ & ->).
    + now destruct Heff as (_ & _ & _ & _ & ->).
    + now destruct Heff as (_ & _ & _ & _ & ->).
    + now destruct Heff as (_ & _ & _ & _ & ->).
    + now destruct Heff as (_ & _ & _ & _ & ->).
    + now destruct Heff as (_ & _ & _ & _ & ->).
    + now destruct Heff as (_ & _ & _ & ->).
    + now destruct Heff as (_ & _ & _ & ->).
Qed.

(** A returned loop whose timers are both stopped stays so. *)
Lemma exec_timers_stopped (a : action) (l l' : loop G) :
  exec clock a l = Some l' ->
  status_of l = Returned ->
  checkTimer l <> Armed ->
  registrationTimer l <> Armed ->
  status_of l' = Returned
  /\ checkTimer l' = checkTimer l
  /\ registrationTimer l' = registrationTimer l.
Proof.
  intros Hexec Hret Hc Hr. apply exec_effect in Hexec as [_ Heff].
  destruct a as [[| | |]|[|]| |];
    try (destruct Heff as (Hrun & _); congruence).
  - destruct Heff as (_ & Harmed & _). congruence.
  - destruct Heff as (_ & Harmed & _). congruence.
  - destruct Heff as (Hst & Hc' & Hr' & _). repeat split; congruence.
  - destruct Heff as (Hst & Hc' & Hr' & _). repeat split; congruence.
Qed.

(** X17.  [Reconcile] leaves no timer running behind.  When it returns,
    the deferred [Stop]s have run: neither timer is armed, and under every
    later schedule neither fires, so no tick is produced for a loop that is
    gone. *)
Theorem returned_loop_leaves_no_timer_running (l l1 : loop G)
    (acts : list action) (l2 : loop G) :
  exec clock (Select CaseDone) l = Some l1 ->
  runs clock acts l1 = Some l2 ->
  checkTimer l2 <> Armed
  /\ registrationTimer l2 <> Armed
  /\ forall tm, exec clock (Fire tm) l2 = None.
Proof.
  intros Hdone Hruns.
  destruct (exec_effect clock _ _ _ Hdone) as (_ & _ & Hret & Hc & Hr & _).
  assert (Hc1 : checkTimer l1 <> Armed)
    by (rewrite Hc; destruct (checkTimer l); discriminate).
  assert (Hr1 : registrationTimer l1 <> Armed)
    by (rewrite Hr; destruct (registrationTimer l); discriminate).
  assert (Hgen : forall acts l1,
             status_of l1 = Returned ->
             checkTimer l1 <> Armed ->
             registrationTimer l1 <> Armed ->
             runs clock acts l1 = Some l2 ->
             checkTimer l2 <> Armed /\ registrationTimer l2 <> Armed).
  { clear. induction acts as [|a acts IH]; intros l1 Hret Hc Hr; cbn [runs].
    - intros [= <-]. now split.
    - destruct (exec clock a l1) as [l'|] eqn:Hexec; [|discriminate].
      destruct (exec_timers_stopped a l1 l' Hexec Hret Hc Hr)
        as (Hret' & Hc' & Hr').
      apply IH; congruence. }
  destruct (Hgen acts l1 Hret Hc1 Hr1 Hruns) as [Hc2 Hr2].
  split; [exact Hc2|]. split; [exact Hr2|].
  intros [|]; cbn [exec get_timer].
  - destruct (checkTimer l2); congruence.
  - destruct (registrationTimer l2); congruence.
Qed.

End MoreOnTheLoop.

Lemma successful_operation_rearms_witness :
  status_of loop_ticks_pending = Running
  /\ (exists w' l1,
        refreshTargets clock0 ctx0 (world_of loop_ticks_pending)
        = Ret None w'
        /\ exec clock0 (Select CaseCheckTimer) loop_ticks_pending = Some l1
        /\ world_of l1 = w'
        /\ status_of l1 = Running
        /\ checkTimer l1 = Armed
        /\ exec clock0 (Fire CheckT) l1 = Some (set_checkTimer Fired l1))
  /\ (exists w' l1,
        updateRegistration clock0 ctx0 (world_of loop_ticks_pending)
        = Ret None w'
        /\ exec clock0 (Select CaseRegistrationTimer) loop_ticks_pending
           = Some l1
        /\ world_of l1 = w'
        /\ status_of l1 = Running
        /\ registrationTimer l1 = Armed
        /\ exec clock0 (Fire RegistrationT) l1
           = Some (set_registrationTimer Fired l1)).
Proof.
  split; [reflexivity|].
  destruct (successful_operation_rearms clock0 loop_ticks_pending eq_refl)
    as [Hcheck Hregistration].
  split.
  - assert (Hrun : {w' | refreshTargets clock0 ctx0
                           (world_of loop_ticks_pending) = Ret None w'})
      by (eexists; cbv; reflexivity).
    destruct Hrun as [w' Hrun].
    destruct (Hcheck eq_refl w' Hrun) as (l1 & Hl1).
    exists w', l1. split; [exact Hrun | exact Hl1].
  - assert (Hrun : {w' | updateRegistration clock0 ctx0
                           (world_of loop_ticks_pending) = Ret None w'})
      by (eexists; cbv; reflexivity).
    destruct Hrun as [w' Hrun].
    destruct (Hregistration eq_refl w' Hrun) as (l1 & Hl1).
    exists w', l1. split; [exact Hrun | exact Hl1].
Defined.

Lemma loop_ends_only_by_done_or_in_Shutdown_witness :
  status_of loop_signalled = Running
  /\ exec clock0 (Select CaseDone) loop_signalled
     = Some (Reconcile_iteration clock0 CaseDone loop_signalled)
  /\ (status_of (Reconcile_iteration clock0 CaseDone loop_signalled)
      = Returned ->
      Select CaseDone = Select CaseDone)
  /\ (status_of (Reconcile_iteration clock0 CaseDone loop_signalled)
      = Parked ->
      Select CaseDone = Select CaseCtxDone
      /\ closed (ctx loop_signalled) = true
      /\ (done_cap <= done (mgr (world_of loop_signalled)))%nat).
Proof.
  split; [reflexivity|]. split; [reflexivity|].
  apply (loop_ends_only_by_done_or_in_Shutdown clock0 (Select CaseDone)
           loop_signalled); reflexivity.
Defined.

Lemma loop_runs_until_asked_to_stop_witness :
  closed ctx0 = false
  /\ done (mgr (world_with store_failing [peer_a])) = 0%nat
  /\ forallb (fun a => negb (asks_to_stop a))
       [Fire CheckT; Select CaseCheckTimer; Fire RegistrationT;
        Select CaseRegistrationTimer] = true
  /\ exists l',
       Reconcile clock0
         [Fire CheckT; Select CaseCheckTimer; Fire RegistrationT;
          Select CaseRegistrationTimer]
         ctx0 (world_with store_failing [peer_a])
       = Some l'
       /\ status_of l' = Running.
Proof.
  split; [reflexivity|]. split; [reflexivity|]. split; [reflexivity|].
  destruct (Reconcile clock0
              [Fire CheckT; Select CaseCheckTimer; Fire RegistrationT;
               Select CaseRegistrationTimer]
              ctx0 (world_with store_failing [peer_a])) as [l'|] eqn:Hrun.
  - exists l'. split; [reflexivity|].
    apply (loop_runs_until_asked_to_stop clock0 ctx0
             (world_with store_failing [peer_a])
             [Fire CheckT; Select CaseCheckTimer; Fire RegistrationT;
              Select CaseRegistrationTimer] l');
      [reflexivity | reflexivity | reflexivity | exact Hrun].
  - cbv in Hrun. discriminate Hrun.
Defined.

Lemma cancellation_then_done_returns_witness :
  status_of loop_cancelled = Running
  /\ closed (ctx loop_cancelled) = true
  /\ done (mgr (world_of loop_cancelled)) = 0%nat
  /\ exists l2,
       runs clock0 [Select CaseCtxDone; Select CaseDone] loop_cancelled
       = Some l2
       /\ status_of l2 = Returned
       /\ registered (mgr (world_of l2)) = false
       /\ done (mgr (world_of l2)) = 0%nat
       /\ logged "Shutting down global gitlabTargetManager" l2
          = S (logged "Shutting down global gitlabTargetManager"
                 loop_cancelled)
       /\ calls_of l2 = calls_of loop_cancelled.
Proof.
  split; [reflexivity|]. split; [reflexivity|]. split; [reflexivity|].
  apply (cancellation_then_done_returns clock0 loop_cancelled); reflexivity.
Defined.

Lemma store_is_called_once_per_tick_witness :
  exists l',
    Reconcile clock0 two_rounds ctx0 (world_with store_ab []) = Some l'
    /\ List.length (calls_of l') = 4%nat.
Proof.
  destruct (Reconcile clock0 two_rounds ctx0 (world_with store_ab []))
    as [l'|] eqn:Hrun.
  - exists l'. split; [reflexivity|].
    exact (proj1 (store_is_called_once_per_tick clock0 two_rounds ctx0
                    (world_with store_ab []) l' Hrun)).
  - cbv in Hrun. discriminate Hrun.
Defined.

Lemma returned_loop_leaves_no_timer_running_witness :
  exists l1 l2,
    exec clock0 (Select CaseDone) loop_signalled = Some l1
    /\ runs clock0 [Cancel; OwnerShutdown] l1 = Some l2
    /\ checkTimer l2 <> Armed
    /\ registrationTimer l2 <> Armed
    /\ forall tm, exec clock0 (Fire tm) l2 = None.
Proof.
  destruct (exec clock0 (Select CaseDone) loop_signalled) as [l1|] eqn:Hdone;
    [|cbv in Hdone; discriminate Hdone].
  destruct (runs clock0 [Cancel; OwnerShutdown] l1) as [l2|] eqn:Hruns.
  - exists l1, l2. split; [reflexivity|]. split; [exact Hruns|].
    apply (returned_loop_leaves_no_timer_running clock0 loop_signalled l1
             [Cancel; OwnerShutdown] l2 Hdone Hruns).
  - cbv in Hdone. injection Hdone as <-. cbv in Hruns. discriminate Hruns.
Defined.

(* ------------------------------------------------------------------------ *)
(** ** More on the protocol of the mutex *)

Section MoreOnInterleaving.

Import Interleaving.

Context {G : Type} `{Gitlab G}.
Variable clock : nat -> time.Time.
Variable ctx : Context.

Lemma nth_error_update {A : Type} (i : nat) (x y : A) (xs : list A) :
  nth_error xs i = Some y -> nth_error (update i x xs) i = Some x.
Proof.
  revert i. induction xs as [|z xs IH]; intros [|i]; cbn; try discriminate.
  - reflexivity.
  - apply IH.
Qed.

(** A positive count of read locks names a getter holding one. *)
Lemma count_rlocks_positive (gs : list getter) :
  count_rlocks gs <> 0%nat ->
  exists i g, nth_error gs i = Some g /\ holds_rlock g = true.
Proof.
  induction gs as [|g0 gs IH]; cbn [count_rlocks]; [congruence|].
  destruct (holds_rlock g0) eqn:Hg0; intros Hpos.
  - exists 0%nat, g0. now split.
  - destruct IH as (i & g & Hnth & Hg); [exact Hpos|].
    exists (S i), g. now split.
Qed.

(** Either every getter has returned, or one that has not can be named. *)
Lemma getters_returned_or_not (gs : list getter) :
  forallb getter_returned gs = true
  \/ exists i g, nth_error gs i = Some g /\ getter_returned g = false.
Proof.
  induction gs as [|g0 gs IH]; cbn [forallb]; [now left|].
  destruct (getter_returned g0) eqn:Hg0.
  - destruct IH as [Hall|(i & g & Hnth & Hg)]; [now left|].
    right. exists (S i), g. now split.
  - right. exists 0%nat, g0. now split.
Qed.

(** The refresher, once it holds the lock, is never stuck. *)
Lemma step_refresher_holding (c : config G) :
  holds_lock (refresh c) = true ->
  exists c', step_refresher clock ctx c = Some c'.
Proof.
  unfold step_refresher.
  destruct (refresh c) as [| |[|t rest] h|err|err]; cbn [holds_lock];
    try discriminate; intros _.
  - unfold atomically, gitlab_FetchFiles, log.
    destruct (FetchFiles ctx (gitlab (mgr (memory c)))) as [g' [ts [e|]]];
      cbn [snd]; eexists; reflexivity.
  - eexists; reflexivity.
  - unfold atomically, time_Now, log. cbn [set_memory memory mgr].
    destruct (time.After _ _); eexists; reflexivity.
  - eexists; reflexivity.
Qed.

(** A getter past its [RLock] is never stuck. *)
Lemma step_getter_holding (i : nat) (g : getter) (c : config G) :
  nth_error (getters c) i = Some g ->
  holds_rlock g = true ->
  exists c', step_getter i c = Some c'.
Proof.
  intros Hnth Hholds. unfold step_getter. rewrite Hnth.
  destruct g; try discriminate; eexists; reflexivity.
Qed.

(** The three statements of [GetTargets]. *)
Lemma step_getter_rlock (i : nat) (c : config G) :
  nth_error (getters c) i = Some AtRLock ->
  writer (mu c) = false ->
  step_getter i c
  = Some (set_getter i AtRead
            (set_mu {| writer := false; readers := S (readers (mu c)) |} c)).
Proof.
  intros Hnth Hfree. unfold step_getter, RLock. now rewrite Hnth, Hfree.
Qed.

Lemma step_getter_read (i : nat) (c : config G) :
  nth_error (getters c) i = Some AtRead ->
  step_getter i c
  = Some (set_getter i (AtRUnlock (targets (mgr (memory c))))
            (set_memory (memory c) c)).
Proof.
  intros Hnth. unfold step_getter. now rewrite Hnth.
Qed.

Lemma step_getter_runlock (i : nat) (v : list GlobalTarget) (c : config G) :
  nth_error (getters c) i = Some (AtRUnlock v) ->
  step_getter i c
  = Some (set_getter i (Got v) (set_mu (RUnlock (mu c)) c)).
Proof.
  intros Hnth. unfold step_getter. now rewrite Hnth.
Qed.

Lemma result_known_step_refresher (w0 : world G) (c c' : config G) :
  invariant clock ctx w0 c ->
  result_known ctx w0 (refresh c) ->
  step_refresher clock ctx c = Some c' ->
  result_known ctx w0 (refresh c').
Proof.
  intros [_ _ _ Hm _] Hknown. unfold step_refresher.
  destruct (refresh c) as [| |[|t rest] h|err|err];
    cbn [memory_at result_known] in *.
  - destruct (Lock (mu c)); [|discriminate]. now intros [= <-].
  - unfold atomically, gitlab_FetchFiles, log. rewrite Hm.
    destruct (FetchFiles ctx (gitlab (mgr w0))) as [g' [fetched [e|]]]
      eqn:Hfetch;
      cbn [snd fst set_memory memory]; intros [= <-];
      cbn [set_refresh refresh result_known]; now rewrite Hfetch.
  - unfold atomically, bind, write, log. intros [= <-]. cbn. now symmetry.
  - unfold atomically, time_Now, log. cbn [set_memory memory mgr tick].
    destruct (time.After _ _); now intros [= <-].
  - now intros [= <-].
  - discriminate.
Qed.

Lemma result_known_step_getter (w0 : world G) (i : nat) (c c' : config G) :
  result_known ctx w0 (refresh c) ->
  step_getter i c = Some c' ->
  result_known ctx w0 (refresh c').
Proof.
  intros Hknown. unfold step_getter.
  destruct (nth_error (getters c) i) as [[| |v|v]|]; try discriminate.
  - destruct (RLock (mu c)); [|discriminate]. now intros [= <-].
  - unfold atomically, GetTargets, read. now intros [= <-].
  - now intros [= <-].
Qed.

Lemma reachable_invariants (w0 : world G) (sched : list turn) :
  forall c c' : config G,
    invariant clock ctx w0 c ->
    result_known ctx w0 (refresh c) ->
    run clock ctx sched c = Some c' ->
    invariant clock ctx w0 c' /\ result_known ctx w0 (refresh c').
Proof.
  induction sched as [|t sched IH]; intros c c' Hinv Hknown; cbn [run].
  - intros [= <-]. now split.
  - destruct (step clock ctx t c) as [c1|] eqn:Hstep; [|discriminate].
    apply IH; destruct t; cbn [step] in Hstep.
    + exact (invariant_step_refresher clock ctx w0 c c1 Hinv Hstep).
    + exact (invariant_step_getter clock ctx w0 i c c1 Hinv Hstep).
    + exact (result_known_step_refresher w0 c c1 Hinv Hknown Hstep).
    + exact (result_known_step_getter w0 i c c1 Hknown Hstep).
Qed.

(** X18.  The mutex is held exactly by the goroutines that are between
    their [Lock] and its deferred [Unlock]: under every interleaving, the
    write lock is taken if and only if the refresher stands between the
    two, so [refreshTargets] has released it when it returns, on the error
    path as on the other; and the number of read locks taken is the number
    of [GetTargets] calls that stand between [RLock] and [RUnlock]. *)
Theorem locks_are_released (w : world G) (n : nat) (sched : list turn)
    (c : config G) :
  run clock ctx sched (start w n) = Some c ->
  writer (mu c) = holds_lock (refresh c)
  /\ readers (mu c) = count_rlocks (getters c)
  /\ (forall err, refresh c = Refreshed err -> writer (mu c) = false)
  /\ (all_returned c = true -> mu c = unlocked).
Proof.
  intros Hrun.
  destruct (invariant_run clock ctx w sched _ c (invariant_start clock ctx w n)
              Hrun) as [Hw Hr _ _ _].
  split; [exact Hw|]. split; [exact Hr|]. split.
  - intros err Hat. now rewrite Hw, Hat.
  - unfold all_returned. destruct (refresh c) eqn:Hat; try discriminate.
    intros Hall.
    assert (Hzero : count_rlocks (getters c) = 0%nat).
    { clear - Hall. induction (getters c) as [|g gs IH]; [reflexivity|].
      cbn [forallb] in Hall. apply andb_prop in Hall as [Hg Hgs].
      cbn [count_rlocks]. rewrite (IH Hgs).
      destruct g; try discriminate; reflexivity. }
    destruct (mu c) as [wr rd]. cbn [writer readers holds_lock] in *.
    unfold unlocked. congruence.
Qed.

(** X19.  The protocol cannot deadlock: in every configuration an
    interleaving can reach, either [refreshTargets] and all [GetTargets]
    calls have returned, or some goroutine can take its next step. *)
Theorem interleaving_makes_progress (w : world G) (n : nat)
    (sched : list turn) (c : config G) :
  run clock ctx sched (start w n) = Some c ->
  all_returned c = true
  \/ exists t c', step clock ctx t c = Some c'.
Proof.
  intros Hrun.
  destruct (invariant_run clock ctx w sched _ c (invariant_start clock ctx w n)
              Hrun) as [Hw Hr _ _ _].
  destruct (holds_lock (refresh c)) eqn:Hholds.
  - right. destruct (step_refresher_holding c Hholds) as [c' Hstep].
    exists Refresher, c'. exact Hstep.
  - destruct (Nat.eq_dec (count_rlocks (getters c)) 0) as [Hzero|Hpos].
    + destruct (refresh c) as [| |rest h|err|err] eqn:Hat;
        try discriminate Hholds.
      * right. exists Refresher. cbn [step]. unfold step_refresher, Lock.
        rewrite Hat, Hw, Hr, Hzero. eexists; reflexivity.
      * destruct (getters_returned_or_not (getters c))
          as [Hall|(i & g & Hnth & Hg)].
        -- left. unfold all_returned. now rewrite Hat.
        -- right. exists (Getter i). cbn [step]. unfold step_getter, RLock.
           rewrite Hnth, Hw.
           destruct g; try discriminate Hg; eexists; reflexivity.
    + right. destruct (count_rlocks_positive _ Hpos) as (i & g & Hnth & Hg).
      destruct (step_getter_holding i g c Hnth Hg) as [c' Hstep].
      exists (Getter i), c'. exact Hstep.
Qed.

(** X20.  Concurrent readers do not change what a refresh does, and a
    reader that comes after it sees its outcome: in every configuration an
    interleaving can reach with [refreshTargets] returned, its result is
    the error of [FetchFiles], the shared peer list is the one the
    sequential [refreshTargets] installs, and a [GetTargets] call that has
    not started yet can run to its end and returns that list. *)
Theorem reader_after_refresh_sees_its_outcome (w : world G) (n : nat)
    (sched : list turn) (c : config G) (err : option error) (i : nat) :
  run clock ctx sched (start w n) = Some c ->
  refresh c = Refreshed err ->
  nth_error (getters c) i = Some AtRLock ->
  err = snd (snd (FetchFiles ctx (gitlab (mgr w))))
  /\ targets (mgr (memory c)) = post_refresh clock ctx w
  /\ exists c',
       run clock ctx [Getter i; Getter i; Getter i] c = Some c'
       /\ nth_error (getters c') i = Some (Got (post_refresh clock ctx w))
       /\ memory c' = memory c.
Proof.
  intros Hrun Hat Hnth.
  destruct (reachable_invariants w sched _ c (invariant_start clock ctx w n) I
              Hrun) as [[Hw Hr _ Hm _] Hknown].
  rewrite Hat in Hknown, Hm, Hw. cbn [result_known holds_lock] in Hknown, Hw.
  assert (Htargets : targets (mgr (memory c)) = post_refresh clock ctx w).
  { destruct err as [e|]; cbn [memory_at] in Hm; [|exact Hm].
    rewrite Hm. unfold post_refresh. now rewrite <- Hknown. }
  split; [exact Hknown|]. split; [exact Htargets|].
  rewrite (run_cons clock ctx). cbn [step].
  rewrite (step_getter_rlock i c Hnth Hw). cbv beta iota.
  rewrite (run_cons clock ctx). cbn [step].
  erewrite step_getter_read
    by (cbn [set_getter getters]; eapply nth_error_update, Hnth).
  cbv beta iota.
  rewrite (run_cons clock ctx). cbn [step].
  erewrite step_getter_runlock
    by (cbn [set_getter getters];
        eapply nth_error_update, nth_error_update, Hnth).
  cbv beta iota. cbn [run].
  eexists. split; [reflexivity|].
  cbn [set_getter set_mu set_memory getters memory mgr].
  split; [|reflexivity].
  rewrite Htargets.
  eapply nth_error_update, nth_error_update, nth_error_update, Hnth.
Qed.

End MoreOnInterleaving.

Lemma locks_are_released_witness :
  exists c,
    Interleaving.run clock0 ctx0 reader_then_refresher
      (Interleaving.start (world_with store_ab [peer_c]) 2)
    = Some c
    /\ Interleaving.writer (Interleaving.mu c)
       = Interleaving.holds_lock (Interleaving.refresh c)
    /\ Interleaving.readers (Interleaving.mu c)
       = Interleaving.count_rlocks (Interleaving.getters c).
Proof.
  destruct (Interleaving.run clock0 ctx0 reader_then_refresher
              (Interleaving.start (world_with store_ab [peer_c]) 2))
    as [c|] eqn:Hrun.
  - exists c. split; [reflexivity|].
    destruct (locks_are_released clock0 ctx0 (world_with store_ab [peer_c]) 2
                reader_then_refresher c Hrun) as (Hw & Hr & _).
    split; [exact Hw | exact Hr].
  - cbv in Hrun. discriminate Hrun.
Defined.

Lemma interleaving_makes_progress_witness :
  exists c,
    Interleaving.run clock0 ctx0 reader_then_refresher
      (Interleaving.start (world_with store_ab [peer_c]) 2)
    = Some c
    /\ (all_returned c = true
        \/ exists t c', Interleaving.step clock0 ctx0 t c = Some c').
Proof.
  destruct (Interleaving.run clock0 ctx0 reader_then_refresher
              (Interleaving.start (world_with store_ab [peer_c]) 2))
    as [c|] eqn:Hrun.
  - exists c. split; [reflexivity|].
    exact (interleaving_makes_progress clock0 ctx0
             (world_with store_ab [peer_c]) 2 reader_then_refresher c Hrun).
  - cbv in Hrun. discriminate Hrun.
Defined.

Lemma reader_after_refresh_sees_its_outcome_witness :
  exists c c',
    Interleaving.run clock0 ctx0 whole_refresh
      (Interleaving.start (world_with store_ab [peer_c]) 1)
    = Some c
    /\ Interleaving.refresh c = Interleaving.Refreshed None
    /\ nth_error (Interleaving.getters c) 0 = Some Interleaving.AtRLock
    /\ Interleaving.run clock0 ctx0
         [Interleaving.Getter 0; Interleaving.Getter 0; Interleaving.Getter 0]
         c
       = Some c'
    /\ nth_error (Interleaving.getters c') 0
       = Some (Interleaving.Got
                 (Interleaving.post_refresh clock0 ctx0
                    (world_with store_ab [peer_c]))).
Proof.
  destruct (Interleaving.run clock0 ctx0 whole_refresh
              (Interleaving.start (world_with store_ab [peer_c]) 1))
    as [c|] eqn:Hrun; [|cbv in Hrun; discriminate Hrun].
  assert (Hat : Interleaving.refresh c = Interleaving.Refreshed None)
    by (cbv in Hrun; injection Hrun as <-; reflexivity).
  assert (Hnth : nth_error (Interleaving.getters c) 0
                 = Some Interleaving.AtRLock)
    by (cbv in Hrun; injection Hrun as <-; reflexivity).
  destruct (reader_after_refresh_sees_its_outcome clock0 ctx0
              (world_with store_ab [peer_c]) 1 whole_refresh c None 0
              Hrun Hat Hnth) as (_ & _ & c' & Hread & Hgot & _).
  exists c, c'. repeat split; assumption.
Defined.

(* ======================================================================== *)
(** * Properties of the metrics manager *)

Section MetricsProperties.

Import metrics.

Context {Config Resource SpanExporter E : Type}.
Context `{Telemetry Config Resource SpanExporter E}.

Lemma shutdowns_app (h1 h2 : list mevent) :
  shutdowns (h1 ++ h2) = shutdowns h1 ++ shutdowns h2.
Proof.
  induction h1 as [|ev h1 IH]; cbn [app shutdowns]; [reflexivity|].
  destruct ev; cbn [app]; now rewrite ?IH.
Qed.

Lemma creations_app (h1 h2 : list mevent) :
  creations (h1 ++ h2) = (creations h1 + creations h2)%nat.
Proof.
  induction h1 as [|ev h1 IH]; cbn [app creations]; [reflexivity|].
  destruct ev; cbn [Nat.add]; now rewrite ?IH.
Qed.

(** [InitTracing], case by case. *)
Lemma InitTracing_run (ctx : Context) (s : state Config Resource SpanExporter E) :
  exists r s',
    InitTracing ctx s = Ret r s'
    /\ registry (self s') = registry (self s)
    /\ shutdowns (history s') = shutdowns (history s)
    /\ match resource_New ctx resource_options (env s) with
       | (_, (_, Some e1)) =>
           r = Some (Plain ("failed to create resource: " ++ message e1))
           /\ self s' = self s
           /\ global_provider s' = global_provider s
           /\ allocated s' = allocated s
           /\ creations (history s') = creations (history s)
       | (env1, (res, None)) =>
           match exporter_Create ctx (config (self s)) env1 with
           | (_, _, (_, Some e2)) =>
               r = Some (Plain ("failed to create exporter: " ++ message e2))
               /\ tp (self s') = tp (self s)
               /\ global_provider s' = global_provider s
               /\ allocated s' = allocated s
               /\ creations (history s') = S (creations (history s))
           | (env2, cfg, (exp, None)) =>
               r = None
               /\ self s' = {| config := cfg; registry := registry (self s);
                               tp := Some (provider_of s res exp) |}
               /\ global_provider s' = Some (provider_of s res exp)
               /\ allocated s' = S (allocated s)
               /\ env s' = env2
               /\ creations (history s') = S (creations (history s))
           end
       end.
Proof.
  unfold InitTracing, bind at 1, call_resource_New.
  destruct (resource_New ctx resource_options (env s)) as [env1 [res [e1|]]];
    cbn [snd fst].
  - eexists _, _. split; [reflexivity|].
    cbn [record with_env self history global_provider allocated].
    rewrite !shutdowns_app, !creations_app. cbn.
    rewrite ?app_nil_r, ?Nat.add_0_r. repeat split; reflexivity.
  - unfold bind at 1, call_exporter_Create.
    cbn [record with_env self env].
    destruct (exporter_Create ctx (config (self s)) env1)
      as [[env2 cfg] [exp [e2|]]]; cbn [snd fst].
    + eexists _, _. split; [reflexivity|].
      cbn [record with_env with_self set_config self history global_provider
           allocated tp registry].
      rewrite !shutdowns_app, !creations_app. cbn.
      rewrite ?app_nil_r. repeat split; try reflexivity; lia.
    + eexists _, _. split; [reflexivity|].
      cbn [record with_env with_self set_config set_tp self history
           global_provider allocated tp registry env config].
      rewrite !shutdowns_app, !creations_app. cbn.
      rewrite ?app_nil_r. repeat split; try reflexivity; lia.
Qed.

(** [Shutdown], case by case. *)
Lemma metrics_Shutdown_run (ctx : Context) (s : state Config Resource SpanExporter E) :
  exists r s',
    Shutdown ctx s = Ret r s'
    /\ self s' = self s
    /\ global_provider s' = global_provider s
    /\ match tp (self s) with
       | None =>
           r = None /\ env s' = env s
           /\ shutdowns (history s') = shutdowns (history s)
       | Some p =>
           shutdowns (history s') = shutdowns (history s) ++ [tp_id p]
           /\ env s' = fst (provider_Shutdown ctx p (env s))
           /\ r = match snd (provider_Shutdown ctx p (env s)) with
                  | Some e =>
                      Some (Wrapping
                              ("failed to shutdown tracer provider: "
                               ++ message e) e)
                  | None => None
                  end
       end.
Proof.
  unfold Shutdown. destruct (tp (self s)) as [p|].
  - unfold bind at 1, call_provider_Shutdown.
    destruct (provider_Shutdown ctx p (env s)) as [env1 [e|]];
      eexists _, _; (split; [reflexivity|]);
      cbn [record with_env self history global_provider env fst snd];
      rewrite !shutdowns_app; cbn; rewrite ?app_nil_r;
      repeat split; reflexivity.
  - eexists _, _. split; [reflexivity|].
    cbn [record self history global_provider env].
    rewrite !shutdowns_app. cbn. rewrite ?app_nil_r.
    repeat split; reflexivity.
Qed.

(** X21.  When [InitTracing] fails, nothing is installed: the manager's
    provider, the global provider of [otel] and the registry are what they
    were, and no provider was allocated.  The error carries the library's
    message behind "failed to create resource: " or "failed to create
    exporter: " and wraps nothing ([%v]); when it is the resource that
    failed, the exporter was not asked and the manager is untouched. *)
Theorem failed_InitTracing_installs_nothing (ctx : Context)
    (s : state Config Resource SpanExporter E) (err : goerror)
    (s' : state Config Resource SpanExporter E) :
  InitTracing ctx s = Ret (Some err) s' ->
  Unwrap err = None
  /\ tp (self s') = tp (self s)
  /\ registry (self s') = registry (self s)
  /\ global_provider s' = global_provider s
  /\ allocated s' = allocated s
  /\ shutdowns (history s') = shutdowns (history s)
  /\ ((exists e1,
         snd (snd (resource_New ctx resource_options (env s))) = Some e1
         /\ message err
            = ("failed to create resource: " ++ message e1)%string
         /\ self s' = self s
         /\ creations (history s') = creations (history s))
      \/ (exists e2,
            snd (snd (resource_New ctx resource_options (env s))) = None
            /\ snd (snd (exporter_Create ctx (config (self s))
                           (fst (resource_New ctx resource_options
                                   (env s)))))
               = Some e2
            /\ message err
               = ("failed to create exporter: " ++ message e2)%string)).
Proof.
  intros Hrun.
  destruct (InitTracing_run ctx s) as (r & s1 & Hrun1 & Hreg & Hshut & Hcase).
  rewrite Hrun in Hrun1. injection Hrun1 as <- <-.
  destruct (resource_New ctx resource_options (env s)) as [env1 [res [e1|]]];
    cbn [snd fst].
  - destruct Hcase as (Herr & Hself & Hglobal & Halloc & Hcre).
    injection Herr as ->. rewrite Hself.
    repeat split; auto. left. exists e1. repeat split; auto.
  - destruct (exporter_Create ctx (config (self s)) env1)
      as [[env2 cfg] [exp [e2|]]]; cbn [snd fst].
    + destruct Hcase as (Herr & Htp & Hglobal & Halloc & Hcre).
      injection Herr as ->.
      repeat split; auto. right. exists e2. repeat split; auto.
    + destruct Hcase as (Herr & _). discriminate Herr.
Qed.

(** X22.  When [InitTracing] returns [nil], both libraries had succeeded,
    the exporter was asked once, and a newly allocated provider is both the
    manager's and the global provider of [otel]: it samples always, exports
    in batches of at most 100 from a queue of 1000 with a timeout of five
    seconds, through the exporter and with the resource the libraries
    returned.  No provider was shut down, the one installed before
    neither. *)
Theorem InitTracing_installs_a_new_provider (ctx : Context)
    (s s' : state Config Resource SpanExporter E) :
  InitTracing ctx s = Ret None s' ->
  exists p,
    tp (self s') = Some p
    /\ global_provider s' = Some p
    /\ tp_id p = allocated s
    /\ allocated s' = S (allocated s)
    /\ tp_sampler p = AlwaysSample
    /\ bsp_batchTimeout _ (tp_spanProcessor p) = 5 * time.Second
    /\ bsp_maxQueueSize _ (tp_spanProcessor p) = 1000
    /\ bsp_maxExportBatchSize _ (tp_spanProcessor p) = 100
    /\ snd (snd (resource_New ctx resource_options (env s))) = None
    /\ tp_resource p = fst (snd (resource_New ctx resource_options (env s)))
    /\ snd (exporter_Create ctx (config (self s))
              (fst (resource_New ctx resource_options (env s))))
       = (bsp_exporter _ (tp_spanProcessor p), None)
    /\ creations (history s') = S (creations (history s))
    /\ shutdowns (history s') = shutdowns (history s)
    /\ registry (self s') = registry (self s).
Proof.
  intros Hrun.
  destruct (InitTracing_run ctx s) as (r & s1 & Hrun1 & Hreg & Hshut & Hcase).
  rewrite Hrun in Hrun1. injection Hrun1 as <- <-.
  destruct (resource_New ctx resource_options (env s)) as [env1 [res [e1|]]];
    cbn [snd fst].
  - destruct Hcase as (Herr & _). discriminate Herr.
  - destruct (exporter_Create ctx (config (self s)) env1)
      as [[env2 cfg] [exp [e2|]]]; cbn [snd fst].
    + destruct Hcase as (Herr & _). discriminate Herr.
    + destruct Hcase as (_ & Hself & Hglobal & Halloc & _ & Hcre).
      exists (provider_of s res exp). rewrite Hself.
      repeat split; auto.
Qed.

(** X23.  With a provider installed, [Shutdown] asks exactly that provider
    to shut down, once.  It returns [nil] exactly when the provider does;
    otherwise its error wraps the provider's ([%w]), behind "failed to
    shutdown tracer provider: ".  Either way the manager keeps the
    provider: a second [Shutdown] asks the same provider again. *)
Theorem metrics_Shutdown_asks_the_provider (ctx ctx' : Context)
    (s : state Config Resource SpanExporter E)
    (p : TracerProvider Resource SpanExporter) :
  tp (self s) = Some p ->
  exists r s',
    Shutdown ctx s = Ret r s'
    /\ shutdowns (history s') = shutdowns (history s) ++ [tp_id p]
    /\ tp (self s') = Some p
    /\ match snd (provider_Shutdown ctx p (env s)) with
       | None => r = None
       | Some e =>
           exists err,
             r = Some err
             /\ Unwrap err = Some e
             /\ message err
                = ("failed to shutdown tracer provider: " ++ message e)%string
       end
    /\ exists r2 s2,
         Shutdown ctx' s' = Ret r2 s2
         /\ shutdowns (history s2)
            = shutdowns (history s) ++ [tp_id p; tp_id p].
Proof.
  intros Htp.
  destruct (metrics_Shutdown_run ctx s) as (r & s1 & Hrun & Hself & _ & Hcase).
  rewrite Htp in Hcase. destruct Hcase as (Hshut & _ & Hr).
  exists r, s1. split; [exact Hrun|]. split; [exact Hshut|].
  assert (Htp1 : tp (self s1) = Some p) by now rewrite Hself.
  split; [exact Htp1|]. split.
  - destruct (snd (provider_Shutdown ctx p (env s))) as [e|]; [|exact Hr].
    eexists. split; [exact Hr|]. split; reflexivity.
  - destruct (metrics_Shutdown_run ctx' s1)
      as (r2 & s2 & Hrun2 & _ & _ & Hcase2).
    rewrite Htp1 in Hcase2. destruct Hcase2 as (Hshut2 & _).
    exists r2, s2. split; [exact Hrun2|].
    rewrite Hshut2, Hshut, <- app_assoc. reflexivity.
Qed.

(** X24.  Without a provider, that is before [InitTracing] or after an
    [InitTracing] that failed, [Shutdown] returns [nil] and asks no
    provider to shut down; the libraries are not called at all. *)
Theorem metrics_Shutdown_without_provider (ctx ctx' : Context)
    (s : state Config Resource SpanExporter E) :
  tp (self s) = None ->
  (exists s1,
     Shutdown ctx s = Ret None s1
     /\ env s1 = env s
     /\ shutdowns (history s1) = shutdowns (history s))
  /\ (forall err s2,
        InitTracing ctx' s = Ret (Some err) s2 ->
        exists s3,
          Shutdown ctx s2 = Ret None s3
          /\ env s3 = env s2
          /\ shutdowns (history s3) = shutdowns (history s)).
Proof.
  intros Hnone. split.
  - destruct (metrics_Shutdown_run ctx s) as (r & s1 & Hrun & _ & _ & Hcase).
    rewrite Hnone in Hcase. destruct Hcase as (-> & Henv & Hshut).
    exists s1. repeat split; assumption.
  - intros err s2 Hinit.
    destruct (InitTracing_run ctx' s)
      as (r & s2' & Hrun & _ & Hshut & Hcase).
    rewrite Hinit in Hrun. injection Hrun as <- <-.
    assert (Htp : tp (self s2) = None).
    { destruct (resource_New ctx' resource_options (env s))
        as [env1 [res [e1|]]].
      - destruct Hcase as (_ & Hself & _). now rewrite Hself.
      - destruct (exporter_Create ctx' (config (self s)) env1)
          as [[env2 cfg] [exp [e2|]]].
        + destruct Hcase as (_ & Htp & _). now rewrite Htp.
        + destruct Hcase as (Herr & _). discriminate Herr. }
    destruct (metrics_Shutdown_run ctx s2) as (r3 & s3 & Hrun3 & _ & _ & Hcase3).
    rewrite Htp in Hcase3. destruct Hcase3 as (-> & Henv & Hshut3).
    exists s3. repeat split; try assumption. congruence.
Qed.

(** X25.  A second successful [InitTracing] replaces the provider without
    shutting the first one down: the manager and [otel] hold the second,
    newly allocated provider, no provider has been asked to shut down, and
    a [Shutdown] that follows asks the second provider only. *)
Theorem second_InitTracing_replaces_provider (ctx ctx' ctx'' : Context)
    (s s1 s2 : state Config Resource SpanExporter E) :
  InitTracing ctx s = Ret None s1 ->
  InitTracing ctx' s1 = Ret None s2 ->
  exists p1 p2,
    tp (self s1) = Some p1
    /\ tp (self s2) = Some p2
    /\ global_provider s2 = Some p2
    /\ tp_id p1 = allocated s
    /\ tp_id p2 = S (allocated s)
    /\ shutdowns (history s2) = shutdowns (history s)
    /\ exists r s3,
         Shutdown ctx'' s2 = Ret r s3
         /\ shutdowns (history s3) = shutdowns (history s) ++ [tp_id p2].
Proof.
  intros Hfirst Hsecond.
  assert (Hinv : forall c (a b : state Config Resource SpanExporter E),
             InitTracing c a = Ret None b ->
             exists p, tp (self b) = Some p
                       /\ global_provider b = Some p
                       /\ tp_id p = allocated a
                       /\ allocated b = S (allocated a)
                       /\ shutdowns (history b) = shutdowns (history a)).
  { intros c a b Hrun.
    destruct (InitTracing_run c a) as (r & b' & Hrun' & _ & Hshut & Hcase).
    rewrite Hrun in Hrun'. injection Hrun' as <- <-.
    destruct (resource_New c resource_options (env a)) as [env1 [res [e1|]]].
    - destruct Hcase as (Herr & _). discriminate Herr.
    - destruct (exporter_Create c (config (self a)) env1)
        as [[env2 cfg] [exp [e2|]]].
      + destruct Hcase as (Herr & _). discriminate Herr.
      + destruct Hcase as (_ & Hself & Hglobal & Halloc & _).
        exists (provider_of a res exp). rewrite Hself.
        repeat split; auto. }
  destruct (Hinv ctx s s1 Hfirst) as (p1 & Htp1 & _ & Hid1 & Halloc1 & Hsh1).
  destruct (Hinv ctx' s1 s2 Hsecond) as (p2 & Htp2 & Hg2 & Hid2 & _ & Hsh2).
  exists p1, p2. repeat split; try assumption; try congruence.
  destruct (metrics_Shutdown_run ctx'' s2)
    as (r & s3 & Hrun & _ & _ & Hcase).
  rewrite Htp2 in Hcase. destruct Hcase as (Hshut & _).
  exists r, s3. split; [exact Hrun|]. congruence.
Qed.

(** [Shutdown] allocates nothing. *)
Lemma metrics_Shutdown_allocated (ctx : Context)
    (s : state Config Resource SpanExporter E) :
  exists r s', Shutdown ctx s = Ret r s' /\ allocated s' = allocated s.
Proof.
  unfold Shutdown. destruct (tp (self s)) as [p|].
  - unfold bind at 1, call_provider_Shutdown.
    destruct (provider_Shutdown ctx p (env s)) as [env1 [e|]];
      eexists _, _; (split; [reflexivity|]); reflexivity.
  - eexists _, _. split; reflexivity.
Qed.

(** One call keeps the registry, and keeps the manager's provider equal to
    the global one and the last one allocated. *)
Lemma serve_keeps_provider (q : request)
    (s : state Config Resource SpanExporter E) :
  tp (self s) = global_provider s ->
  match tp (self s) with
  | None => allocated s = 0%nat
  | Some p => allocated s = S (tp_id p)
  end ->
  exists r s',
    serve q s = Ret r s'
    /\ registry (self s') = registry (self s)
    /\ tp (self s') = global_provider s'
    /\ match tp (self s') with
       | None => allocated s' = 0%nat
       | Some p => allocated s' = S (tp_id p)
       end.
Proof.
  intros Hglobal Hlast. destruct q as [ctx|ctx]; cbn [serve].
  - destruct (InitTracing_run ctx s) as (r & s' & Hrun & Hreg & _ & Hcase).
    exists r, s'. split; [exact Hrun|]. split; [exact Hreg|].
    destruct (resource_New ctx resource_options (env s))
      as [env1 [res [e1|]]].
    + destruct Hcase as (_ & Hself & Hg & Ha & _).
      rewrite Hself, Hg, Ha. split; assumption.
    + destruct (exporter_Create ctx (config (self s)) env1)
        as [[env2 cfg] [exp [e2|]]].
      * destruct Hcase as (_ & Htp & Hg & Ha & _).
        rewrite Htp, Hg, Ha. split; assumption.
      * destruct Hcase as (_ & Hself & Hg & Ha & _).
        rewrite Hself, Hg, Ha. cbn [tp provider_of tp_id].
        split; reflexivity.
  - destruct (metrics_Shutdown_run ctx s) as (r & s' & Hrun & Hself & Hg & _).
    destruct (metrics_Shutdown_allocated ctx s) as (r2 & s2 & Hrun2 & Ha).
    rewrite Hrun in Hrun2. injection Hrun2 as _ <-.
    exists r, s'. split; [exact Hrun|].
    rewrite Hself, Hg, Ha. repeat split; assumption.
Qed.

(** X26.  The registry is fixed by [New]: whatever calls of [InitTracing]
    and [Shutdown] a client makes afterwards and whatever the libraries
    answer, [GetRegistry] returns the registry with the Go and the process
    collector, registered in that order and nothing else.  All along, the
    manager's provider is the global provider of [otel], and it is the
    provider allocated last: none as long as no [InitTracing] has
    succeeded. *)
Theorem registry_is_fixed_by_New (cfg : Config) (e : E)
    (reqs : list request) :
  GetRegistry (New (Resource := Resource) (SpanExporter := SpanExporter) cfg)
  = [GoCollector; ProcessCollector]
  /\ GetRegistry (self (serve_all reqs (fresh cfg e)))
     = [GoCollector; ProcessCollector]
  /\ tp (self (serve_all reqs (fresh cfg e)))
     = global_provider (serve_all reqs (fresh cfg e))
  /\ match tp (self (serve_all reqs (fresh cfg e))) with
     | None => allocated (serve_all reqs (fresh cfg e)) = 0%nat
     | Some p => allocated (serve_all reqs (fresh cfg e)) = S (tp_id p)
     end.
Proof.
  split; [reflexivity|].
  assert (Hgen : forall (s : state Config Resource SpanExporter E),
             registry (self s) = [GoCollector; ProcessCollector] ->
             tp (self s) = global_provider s ->
             match tp (self s) with
             | None => allocated s = 0%nat
             | Some p => allocated s = S (tp_id p)
             end ->
             GetRegistry (self (serve_all reqs s))
             = [GoCollector; ProcessCollector]
             /\ tp (self (serve_all reqs s))
                = global_provider (serve_all reqs s)
             /\ match tp (self (serve_all reqs s)) with
                | None => allocated (serve_all reqs s) = 0%nat
                | Some p => allocated (serve_all reqs s) = S (tp_id p)
                end).
  { induction reqs as [|q rest IH]; intros s Hreg Hglobal Hlast.
    - cbn [serve_all]. unfold GetRegistry. repeat split; assumption.
    - cbn [serve_all].
      destruct (serve_keeps_provider q s Hglobal Hlast)
        as (r & s' & Hrun & Hreg' & Hglobal' & Hlast').
      rewrite Hrun. apply IH; [congruence | assumption | assumption]. }
  apply Hgen; reflexivity.
Qed.

End MetricsProperties.

Lemma failed_InitTracing_installs_nothing_witness :
  exists s' : canned_state,
    metrics.InitTracing ctx0 (fresh_process metrics.no_exporter)
    = Ret (Some (metrics.Plain "failed to create exporter: unknown exporter"))
        s'
    /\ metrics.Unwrap
         (metrics.Plain "failed to create exporter: unknown exporter")
       = None
    /\ metrics.tp (metrics.self s') = None
    /\ metrics.global_provider s' = None
    /\ metrics.allocated s' = 0%nat.
Proof.
  destruct (metrics.InitTracing ctx0 (fresh_process metrics.no_exporter))
    as [r s'|s'] eqn:Hrun; [|cbv in Hrun; discriminate Hrun].
  assert (Hr : r = Some (metrics.Plain
                           "failed to create exporter: unknown exporter"))
    by (cbv in Hrun; injection Hrun as <- _; reflexivity).
  subst r. exists s'. split; [reflexivity|].
  destruct (failed_InitTracing_installs_nothing ctx0 _ _ s' Hrun)
    as (Hunwrap & Htp & _ & Hglobal & Halloc & _).
  repeat split; assumption.
Defined.

Lemma InitTracing_installs_a_new_provider_witness :
  exists (s' : canned_state) p,
    metrics.InitTracing ctx0 (fresh_process metrics.all_well) = Ret None s'
    /\ metrics.tp (metrics.self s') = Some p
    /\ metrics.global_provider s' = Some p
    /\ metrics.tp_id p = 0%nat
    /\ metrics.tp_sampler p = metrics.AlwaysSample.
Proof.
  destruct (metrics.InitTracing ctx0 (fresh_process metrics.all_well))
    as [r s'|s'] eqn:Hrun; [|cbv in Hrun; discriminate Hrun].
  assert (Hr : r = None) by (cbv in Hrun; injection Hrun as <- _; reflexivity).
  subst r.
  destruct (InitTracing_installs_a_new_provider ctx0 _ s' Hrun)
    as (p & Htp & Hglobal & Hid & _ & Hsampler & _).
  exists s', p. repeat split; assumption.
Defined.

Lemma metrics_Shutdown_asks_the_provider_witness :
  exists p r (s' : canned_state),
    metrics.tp (metrics.self (traced_process metrics.flush_fails)) = Some p
    /\ metrics.Shutdown ctx0 (traced_process metrics.flush_fails) = Ret r s'
    /\ metrics.shutdowns (metrics.history s') = [metrics.tp_id p]
    /\ metrics.tp (metrics.self s') = Some p.
Proof.
  destruct (metrics.tp (metrics.self (traced_process metrics.flush_fails)))
    as [p|] eqn:Htp; [|cbv in Htp; discriminate Htp].
  destruct (metrics_Shutdown_asks_the_provider ctx0 ctx0
              (traced_process metrics.flush_fails) p Htp)
    as (r & s' & Hrun & Hshut & Htp' & _).
  exists p, r, s'. repeat split; assumption.
Defined.

Lemma metrics_Shutdown_without_provider_witness :
  metrics.tp (metrics.self (fresh_process metrics.no_host)) = None
  /\ exists s1 : canned_state,
       metrics.Shutdown ctx0 (fresh_process metrics.no_host) = Ret None s1
       /\ metrics.env s1 = metrics.no_host
       /\ metrics.shutdowns (metrics.history s1) = [].
Proof.
  split; [reflexivity|].
  exact (proj1 (metrics_Shutdown_without_provider ctx0 ctx0
                  (fresh_process metrics.no_host) eq_refl)).
Defined.

Lemma second_InitTracing_replaces_provider_witness :
  exists (s1 s2 : canned_state) p1 p2,
    metrics.InitTracing ctx0 (fresh_process metrics.all_well) = Ret None s1
    /\ metrics.InitTracing ctx0 s1 = Ret None s2
    /\ metrics.tp (metrics.self s1) = Some p1
    /\ metrics.tp (metrics.self s2) = Some p2
    /\ metrics.global_provider s2 = Some p2
    /\ metrics.tp_id p1 = 0%nat
    /\ metrics.tp_id p2 = 1%nat
    /\ metrics.shutdowns (metrics.history s2) = [].
Proof.
  destruct (metrics.InitTracing ctx0 (fresh_process metrics.all_well))
    as [r1 s1|s1] eqn:Hrun1; [|cbv in Hrun1; discriminate Hrun1].
  assert (Hr1 : r1 = None)
    by (cbv in Hrun1; injection Hrun1 as <- _; reflexivity).
  subst r1.
  destruct (metrics.InitTracing ctx0 s1) as [r2 s2|s2] eqn:Hrun2;
    [|cbv in Hrun1; injection Hrun1 as <-; cbv in Hrun2; discriminate Hrun2].
  assert (Hr2 : r2 = None)
    by (cbv in Hrun1; injection Hrun1 as <-; cbv in Hrun2;
        injection Hrun2 as <- _; reflexivity).
  subst r2.
  destruct (second_InitTracing_replaces_provider ctx0 ctx0 ctx0 _ s1 s2
              Hrun1 Hrun2)
    as (p1 & p2 & Htp1 & Htp2 & Hg & Hid1 & Hid2 & Hsh & _).
  exists s1, s2, p1, p2. repeat split; assumption.
Defined.
